(** * FileConcat: concatenating a directory tree into one annotated
      document and splitting it back

    A shallow embedding of [script.py]: the ignore-rule loader
    ([load_gitignore]), the filter predicate ([should_process_file]), the
    concatenator ([concatenate_directory]) and the splitter
    ([split_concatenated_file]), followed by the properties of the
    specification that were checked against them.

    Python text is modelled by [string]; one character stands for one code
    point below 256.  The text of a file is what [f.read()] returns. *)

From Stdlib Require Import Strings.String Strings.Ascii Lists.List Bool.Bool
  Arith.PeanoNat Arith.Arith micromega.Lia Sorting.Permutation Sorting.Sorted.
Import ListNotations.
Open Scope string_scope.
Open Scope list_scope.

(** ** Python string operations used by the script *)

Module PyStr.

Definition LF : ascii := "010"%char.
Definition nl : string := String LF EmptyString.
Definition CR : ascii := "013"%char.
Definition NUL : ascii := "000"%char.
Definition cr : string := String CR EmptyString.

(** What reading in text mode with [newline=None] does to the characters
    of a file: a carriage return followed by a line feed, and a carriage
    return alone, become one line feed. *)
Fixpoint universal_newlines (s : string) : string :=
  match s with
  | EmptyString => EmptyString
  | String c s' =>
      if Ascii.eqb c CR then
        match s' with
        | String d _ =>
            if Ascii.eqb d LF then universal_newlines s'
            else String LF (universal_newlines s')
        | EmptyString => String LF EmptyString
        end
      else String c (universal_newlines s')
  end.

(** [str.isspace] on one code point below 256: TAB..CR, FS..US, space,
    NEL and NBSP. *)
Definition isspace (c : ascii) : bool :=
  let n := nat_of_ascii c in
  (Nat.leb 9 n && Nat.leb n 13) || (Nat.leb 28 n && Nat.leb n 32)
  || Nat.eqb n 133 || Nat.eqb n 160.

Definition startswith (p s : string) : bool := String.prefix p s.

Fixpoint lstrip (s : string) : string :=
  match s with
  | EmptyString => EmptyString
  | String c s' => if isspace c then lstrip s' else s
  end.

Fixpoint rstrip (s : string) : string :=
  match s with
  | EmptyString => EmptyString
  | String c s' =>
      match rstrip s' with
      | EmptyString => if isspace c then EmptyString else String c EmptyString
      | r => String c r
      end
  end.

Definition strip (s : string) : string := rstrip (lstrip s).

(** Python truth value of a string and of a list. *)
Definition truthy (s : string) : bool :=
  match s with EmptyString => false | _ => true end.

Definition nonempty {A} (l : list A) : bool :=
  match l with [] => false | _ => true end.

Definition cons_head (c : ascii) (l : list string) : list string :=
  match l with
  | [] => [String c EmptyString]
  | h :: t => String c h :: t
  end.

(** [s.split(sep)] and [s.split(sep, maxsplit)] for a non-empty [sep]:
    a left-to-right scan for non-overlapping occurrences.  [skip] counts
    the characters of a separator that was just recognised and is being
    passed over; [budget] is the number of splits still allowed ([None]:
    no limit). *)
Fixpoint split_scan (sep : string) (skip : nat) (budget : option nat)
    (s : string) : list string :=
  match s with
  | EmptyString => [EmptyString]
  | String c s' =>
      match skip with
      | S k => split_scan sep k budget s'
      | O =>
          match budget with
          | Some O => [s]
          | _ =>
              if String.prefix sep s
              then EmptyString ::
                   split_scan sep (String.length sep - 1)
                     (option_map Nat.pred budget) s'
              else cons_head c (split_scan sep 0 budget s')
          end
      end
  end.

Definition split (sep s : string) : list string :=
  split_scan sep 0 None s.

Definition split_max (sep : string) (maxsplit : nat) (s : string)
  : list string :=
  split_scan sep 0 (Some maxsplit) s.

(** [sep.join(l)] *)
Definition join (sep : string) (l : list string) : string :=
  String.concat sep l.

(** [x in l] on a list of strings. *)
Definition mem (x : string) (l : list string) : bool :=
  existsb (String.eqb x) l.

(** [sub in s] *)
Fixpoint contains (sub s : string) : bool :=
  String.prefix sub s ||
  match s with
  | EmptyString => false
  | String _ s' => contains sub s'
  end.

(** [s.rfind(".")]: the text from the last dot on, when there is a dot. *)
Fixpoint from_last_dot (s : string) : option string :=
  match s with
  | EmptyString => None
  | String c s' =>
      match from_last_dot s' with
      | Some r => Some r
      | None => if Ascii.eqb c "."%char then Some s else None
      end
  end.

(** Lines of a text file as iteration over the file object yields them:
    each line keeps its line feed; the last one may lack it. *)
Fixpoint lines (s : string) : list string :=
  match s with
  | EmptyString => []
  | String c s' =>
      if Ascii.eqb c LF then nl :: lines s' else cons_head c (lines s')
  end.

(** [c * n] for a character [c] *)
Fixpoint replicate (n : nat) (c : ascii) : string :=
  match n with
  | O => EmptyString
  | S n' => String c (replicate n' c)
  end.

(** [all(f(c) for c in s)] *)
Fixpoint every (f : ascii -> bool) (s : string) : bool :=
  match s with
  | EmptyString => true
  | String c s' => f c && every f s'
  end.

(** Predicates on strings used in the statements. *)

(** [absent c s]: the character [c] does not occur in [s]. *)
Fixpoint absent (c : ascii) (s : string) : Prop :=
  match s with
  | EmptyString => True
  | String d s' => d <> c /\ absent c s'
  end.

(** [stops c r]: [r] is empty or begins with [c]. *)
Definition stops (c : ascii) (r : string) : Prop :=
  match r with
  | EmptyString => True
  | String d _ => d = c
  end.

(** [clear_of sep a r]: no occurrence of [sep] in [a ++ r] starts inside
    [a]. *)
Fixpoint clear_of (sep a r : string) : Prop :=
  match a with
  | EmptyString => True
  | String c a' =>
      String.prefix sep (a ++ r) = false /\ clear_of sep a' r
  end.

Definition prepend (a : string) (l : list string) : list string :=
  match l with
  | [] => [a]
  | h :: t => (a ++ h)%string :: t
  end.

End PyStr.

(** ** [pathlib.PurePosixPath] *)

Module PurePath.

Record t : Type := mk { root : string; parts : list string }.

(** The root of a POSIX path: exactly two leading slashes are kept, any
    other number of them is one slash. *)
Definition leading_root (s : string) : string :=
  match s with
  | String "/" (String "/" (String "/" _)) => "/"
  | String "/" (String "/" _) => "//"
  | String "/" _ => "/"
  | _ => EmptyString
  end.

Definition keep_part (x : string) : bool :=
  PyStr.truthy x && negb (x =? ".").

(** [Path(s)] *)
Definition Path (s : string) : t :=
  {| root := leading_root s;
     parts := filter keep_part (PyStr.split "/" s) |}.

(** [str(p)] *)
Definition str (p : t) : string :=
  match root p, parts p with
  | EmptyString, [] => "."
  | r, ps => r ++ PyStr.join "/" ps
  end.

(** [p.name] *)
Definition name (p : t) : string := last (parts p) EmptyString.

(** [p.suffix]: [name[i:]] for [i = name.rfind(".")] when
    [0 < i < len(name) - 1], the empty string otherwise. *)
Definition suffix (p : t) : string :=
  match PyStr.from_last_dot (name p) with
  | Some r =>
      if Nat.ltb 1 (String.length r)
         && Nat.ltb (String.length r) (String.length (name p))
      then r else EmptyString
  | None => EmptyString
  end.

(** [p.parent] *)
Definition parent (p : t) : t :=
  {| root := root p; parts := removelast (parts p) |}.

(** [p.joinpath(q)]: a rooted [q] replaces [p]. *)
Definition joinpath (p q : t) : t :=
  if PyStr.truthy (root q) then q
  else {| root := root p; parts := parts p ++ parts q |}.

(** [p / s] for a string [s] *)
Definition truediv (p : t) (s : string) : t := joinpath p (Path s).

(** [p / entry] for the name of a directory entry, which holds no slash
    and is neither empty nor a dot: the name is appended as it is. *)
Definition child (p : t) (entry : string) : t :=
  {| root := root p; parts := parts p ++ [entry] |}.

(** [p] followed by the names [rel] of a walk below it. *)
Definition descend (p : t) (rel : list string) : t :=
  {| root := root p; parts := parts p ++ rel |}.

Fixpoint strip_prefix (base l : list string) : option (list string) :=
  match base, l with
  | [], _ => Some l
  | b :: base', x :: l' => if b =? x then strip_prefix base' l' else None
  | _ :: _, [] => None
  end.

(** [p.relative_to(base)].  Python raises [ValueError] when [base] is not
    a prefix of [p]; the script only calls it on paths walked below
    [base], where the result is the walked part (see
    [relative_to_descend]); elsewhere the model leaves [p]'s parts. *)
Definition relative_to (p base : t) : t :=
  match strip_prefix (parts base) (parts p) with
  | Some rest => {| root := EmptyString; parts := rest |}
  | None => {| root := EmptyString; parts := parts p |}
  end.

(** A name as a directory listing gives it, other than the two dot
    entries: not empty and without a slash. *)
Definition plain_name (x : string) : Prop :=
  x <> EmptyString /\ x <> "." /\ x <> ".." /\ PyStr.absent "/" x.

End PurePath.

(** ** The ignore-pattern matcher of the [pathspec] library *)

Definition PathSpec : Type := list string.

Module GitWildMatch.

(** Modelled from the spec: [PathSpec.from_lines(GitWildMatchPattern, ..)]
    and [PathSpec.match_file] belong to the third-party [pathspec]
    package, which is not part of the sources.  The model follows the
    gitignore semantics the specification lists: [*] and [?] globs inside
    one path segment, the recursive wildcard, directory-only patterns
    (trailing slash), anchoring by a leading or inner slash, negation with
    [!] where the last matching pattern decides, comment and blank lines
    matching nothing.  Bracket expressions and backslash escapes are not
    modelled. *)
Fixpoint glob (p : string) : string -> bool :=
  match p with
  | EmptyString => fun s => negb (PyStr.truthy s)
  | String c p' =>
      if Ascii.eqb c "*"%char then
        fix star (s : string) : bool :=
          glob p' s ||
          match s with
          | EmptyString => false
          | String _ s' => star s'
          end
      else if Ascii.eqb c "?"%char then
        fun s => match s with
                 | EmptyString => false
                 | String _ s' => glob p' s'
                 end
      else
        fun s => match s with
                 | EmptyString => false
                 | String d s' => Ascii.eqb c d && glob p' s'
                 end
  end.

(** Modelled from the spec: one segment of a pattern of the [pathspec]
    package against one component of a path: a lone [*] wants a non-empty
    component. *)
Definition seg_glob (seg comp : string) : bool :=
  if seg =? "*" then PyStr.truthy comp else glob seg comp.

(** Modelled from the spec: the segments of a normalised pattern against
    the components of a path.  A double asterisk in front or inside takes
    any number of components, a trailing one wants at least one more
    component, and a last ordinary segment also matches everything below
    the path it names. *)
Fixpoint seg_match (segs : list string) : list string -> bool :=
  match segs with
  | [] => fun comps => negb (PyStr.nonempty comps)
  | seg :: rest =>
      if seg =? "**" then
        match rest with
        | [] => fun comps => PyStr.nonempty comps
        | _ :: _ =>
            fix skip (comps : list string) : bool :=
              seg_match rest comps ||
              match comps with
              | [] => false
              | _ :: comps' => skip comps'
              end
        end
      else
        fun comps =>
          match comps with
          | [] => false
          | c :: comps' =>
              seg_glob seg c &&
              match rest with
              | [] => true
              | _ :: _ => seg_match rest comps'
              end
          end
  end.

(** Modelled from the spec: the normal form of a pattern of the
    [pathspec] package; a run of double asterisks counts as one. *)
Fixpoint dedup_stars (segs : list string) : list string :=
  match segs with
  | a :: rest =>
      match rest with
      | b :: _ =>
          if (a =? "**") && (b =? "**") then dedup_stars rest
          else a :: dedup_stars rest
      | [] => segs
      end
  | [] => []
  end.

(** Modelled from the spec: anchoring in the [pathspec] package.  A
    pattern starting with a slash is relative to the base directory; a
    pattern of one segment (with or without a trailing slash) matches at
    any depth. *)
Definition anchor (segs : list string) : list string :=
  match segs with
  | EmptyString :: rest => rest
  | [s] => if s =? "**" then segs else "**" :: segs
  | [s; EmptyString] => if s =? "**" then segs else "**" :: segs
  | _ => segs
  end.

(** Modelled from the spec: directory-only patterns of the [pathspec]
    package; a trailing slash stands for everything below the
    directory. *)
Definition close_dir (segs : list string) : list string :=
  match rev segs with
  | EmptyString :: x :: r => rev ("**" :: x :: r)
  | _ => segs
  end.

(** Modelled from the spec: a compiled pattern of the [pathspec] package,
    its segments or the special pattern [**/], which matches every path
    inside some directory. *)
Inductive compiled : Type :=
| Segments (segs : list string)
| BelowAnyDir.

Record pattern : Type :=
  mk_pattern { include : bool; matcher : compiled }.

(** Modelled from the spec: one line of an ignore file as a pattern;
    [None] for a line that matches nothing (blank, comment, a lone
    slash, no segment left). *)
Definition compile (line : string) : option pattern :=
  let p := PyStr.strip line in
  if PyStr.startswith "#" p then None
  else if p =? "/" then None
  else if negb (PyStr.truthy p) then None
  else
    let incl := negb (PyStr.startswith "!" p) in
    let body := if incl then p else
                  match p with String _ r => r | EmptyString => p end in
    let segs := dedup_stars (PyStr.split "/" body) in
    match segs with
    | ["**"; EmptyString] => Some (mk_pattern incl BelowAnyDir)
    | _ =>
        match anchor segs with
        | [] => None
        | anchored => Some (mk_pattern incl (Segments (close_dir anchored)))
        end
    end.

(** Modelled from the spec: [normalize_file] of the [pathspec] package; a
    leading [./] is dropped. *)
Definition normalize_file (file : string) : string :=
  match file with
  | String "." (String "/" r) => r
  | _ => file
  end.

(** Modelled from the spec: a compiled pattern of the [pathspec] package
    against a path; a lone double asterisk matches every path. *)
Definition pattern_matches (m : compiled) (file : string) : bool :=
  let comps := PyStr.split "/" file in
  match m with
  | Segments segs =>
      match segs with
      | ["**"] => match comps with
                  | c :: _ => PyStr.truthy c
                  | [] => false
                  end
      | _ => seg_match segs comps
      end
  | BelowAnyDir =>
      match comps with
      | c :: _ :: _ => PyStr.truthy c
      | _ => false
      end
  end.

(** Modelled from the spec: [spec.match_file(file)]; the last pattern
    that matches decides, a negated one re-includes the path. *)
Definition match_file (spec : PathSpec) (file : string) : bool :=
  fold_left
    (fun matched line =>
       match compile line with
       | Some p =>
           if pattern_matches (matcher p) (normalize_file file)
           then include p else matched
       | None => matched
       end)
    spec false.

End GitWildMatch.

(** ** The directory that is read *)

(** What [open(path, 'r').read()] gives: the text, in which text mode
    has made every line end a line feed, or the exception. *)
Inductive read_result : Type :=
| ReadOk (text : string)
| ReadErr (exc : string).

(** A directory lists its entries in the order [os.scandir] returns them,
    which the operating system chooses. *)
#[local] Unset Elimination Schemes.
Inductive node : Type :=
| File (content : read_result)
| Dir (entries : list (string * node)).
#[local] Set Elimination Schemes.

(** The view that text mode gives of a directory whose files hold the
    characters [raw]: every file reads as [universal_newlines raw].  The
    [top] that [concatenate_directory] is given is such a view. *)
Fixpoint text_mode (disk : node) : node :=
  match disk with
  | File (ReadOk raw) => File (ReadOk (PyStr.universal_newlines raw))
  | File (ReadErr exc) => File (ReadErr exc)
  | Dir entries => Dir (map (fun e => (fst e, text_mode (snd e))) entries)
  end.

Definition is_dir (n : node) : bool :=
  match n with Dir _ => true | File _ => false end.

Definition dirnames (entries : list (string * node)) : list string :=
  map fst (filter (fun e => is_dir (snd e)) entries).

Definition filenames (entries : list (string * node)) : list string :=
  map fst (filter (fun e => negb (is_dir (snd e))) entries).

Fixpoint find_entry (x : string) (entries : list (string * node))
  : option node :=
  match entries with
  | [] => None
  | (y, n) :: rest => if x =? y then Some n else find_entry x rest
  end.

Fixpoint lookup (n : node) (rel : list string) : option node :=
  match rel with
  | [] => Some n
  | x :: rest =>
      match n with
      | Dir entries =>
          match find_entry x entries with
          | Some c => lookup c rest
          | None => None
          end
      | File _ => None
      end
  end.

(** [with open(path, 'r', encoding='utf-8') as f: f.read()] on the file at
    [rel] below the directory [top]. *)
Definition open_read (top : node) (rel : list string) : read_result :=
  match lookup top rel with
  | Some (File r) => r
  | Some (Dir _) => ReadErr "IsADirectoryError"
  | None => ReadErr "FileNotFoundError"
  end.

(** [os.walk(top)], top-down: every directory is yielded before its
    subdirectories, which are visited in listing order. *)
Fixpoint os_walk (top : PurePath.t) (n : node)
  : list (PurePath.t * list string * list string) :=
  match n with
  | File _ => []
  | Dir entries =>
      (top, dirnames entries, filenames entries) ::
      flat_map (fun e => os_walk (PurePath.child top (fst e)) (snd e)) entries
  end.

(** [sorted(files)]: strings compare by code point. *)
Fixpoint insert_sorted (x : string) (l : list string) : list string :=
  match l with
  | [] => [x]
  | y :: l' => if String.leb x y then x :: l else y :: insert_sorted x l'
  end.

Definition sorted (l : list string) : list string :=
  fold_right insert_sorted [] l.

(** [x <= y] on strings. *)
Definition le (x y : string) : Prop := String.leb x y = true.

(** ** The file system that is written *)

Module Store.

(** A file holds the characters that were written to it ([ReadOk]), or
    bytes that do not decode ([ReadErr]).  On POSIX, writing in text mode
    stores the text as it is; reading translates the line ends (see
    [open_read]).  The store has no permissions and no limits on size or
    on names: what [open] and [mkdir] do is decided by the entries
    alone. *)
Inductive entry : Type :=
| EFile (content : read_result)
| EDir.

(** A location is the list of names from the root directory down. *)
Definition loc : Type := list string.

Definition t : Type := loc -> option entry.

Definition get (s : t) (l : loc) : option entry :=
  match l with
  | [] => Some EDir
  | _ :: _ => s l
  end.

Definition set (s : t) (l : loc) (e : entry) : t :=
  fun q => if list_eq_dec string_dec q l then Some e else s q.

(** One component of a path, as the kernel follows it. *)
Definition step (l : loc) (c : string) : loc :=
  if c =? ".." then removelast l else l ++ [c].

Definition start (cwd : loc) (p : PurePath.t) : loc :=
  if PyStr.truthy (PurePath.root p) then [] else cwd.

(** [Path.mkdir(parents=True, exist_ok=True)]: every prefix of the path
    is made a directory, from the outside in; a prefix that is a file
    raises, after the directories before it were created. *)
Fixpoint mkdir_from (s : t) (l : loc) (ps : list string) : t * bool :=
  match ps with
  | [] => (s, true)
  | c :: rest =>
      let l' := step l c in
      match get s l' with
      | Some EDir => mkdir_from s l' rest
      | Some (EFile _) => (s, false)
      | None => mkdir_from (set s l' EDir) l' rest
      end
  end.

Definition mkdir_parents (s : t) (cwd : loc) (p : PurePath.t) : t * bool :=
  mkdir_from s (start cwd p) (PurePath.parts p).

(** The directory a path's leading components lead to, when each of them
    is one. *)
Fixpoint resolve_dirs (s : t) (l : loc) (ps : list string) : option loc :=
  match ps with
  | [] => Some l
  | c :: rest =>
      let l' := step l c in
      match get s l' with
      | Some EDir => resolve_dirs s l' rest
      | _ => None
      end
  end.

(** [with open(p, 'w', encoding='utf-8') as f: f.write(text)]: [None]
    when [open] raises for what the entries decide (a missing parent, a
    file where a directory is needed, a directory in the way).  In this
    store nothing else makes [open] fail, and a [write] after a
    successful [open] succeeds; statements about the script that are to
    hold on every file system are therefore made for both outcomes of
    the [try]. *)
Definition open_write (s : t) (cwd : loc) (p : PurePath.t) (text : string)
  : option t :=
  match rev (PurePath.parts p) with
  | [] => None
  | name :: rdirs =>
      match resolve_dirs s (start cwd p) (rev rdirs) with
      | None => None
      | Some l =>
          if name =? ".." then None
          else match get s (l ++ [name]) with
               | Some EDir => None
               | _ => Some (set s (l ++ [name]) (EFile (ReadOk text)))
               end
      end
  end.

(** A path string whose last component is empty, [.] or [..] names a
    directory: [x/], [x/.], [x/..], [.], and the empty string, which names
    nothing. *)
Definition names_directory (p : string) : bool :=
  let c := last (PyStr.split "/" p) EmptyString in
  (c =? EmptyString) || (c =? ".") || (c =? "..").

(** [open] on a path given as a string: a path that names a directory
    cannot be opened for writing. *)
Definition open_write_str (s : t) (cwd : loc) (p : string) (text : string)
  : option t :=
  if names_directory p then None
  else open_write s cwd (PurePath.Path p) text.

(** Whether a file stands where the path needs a directory. *)
Fixpoint file_in_the_way (s : t) (l : loc) (ps : list string) : bool :=
  match ps with
  | [] => false
  | c :: rest =>
      match get s (step l c) with
      | Some EDir => file_in_the_way s (step l c) rest
      | Some (EFile _) => true
      | None => false
      end
  end.

Definition no_directory (s : t) (l : loc) (ps : list string) : string :=
  if file_in_the_way s l ps then "NotADirectoryError"
  else "FileNotFoundError".

(** The characters of the file that the path string [p] names, or the
    exception that [open(p, 'r')] or the decoding raises. *)
Definition stored (s : t) (cwd : loc) (p : string) : read_result :=
  let path := PurePath.Path p in
  if names_directory p then
    if p =? EmptyString then ReadErr "FileNotFoundError"
    else
      match resolve_dirs s (start cwd path) (PurePath.parts path) with
      | Some _ => ReadErr "IsADirectoryError"
      | None =>
          ReadErr (no_directory s (start cwd path) (PurePath.parts path))
      end
  else
    match rev (PurePath.parts path) with
    | [] => ReadErr "IsADirectoryError"
    | name :: rdirs =>
        match resolve_dirs s (start cwd path) (rev rdirs) with
        | None => ReadErr (no_directory s (start cwd path) (rev rdirs))
        | Some l =>
            match get s (step l name) with
            | Some (EFile r) => r
            | Some EDir => ReadErr "IsADirectoryError"
            | None => ReadErr "FileNotFoundError"
            end
        end
    end.

(** [with open(p, 'r', encoding='utf-8') as f: f.read()] on a path given
    as a string: the characters of the file with their line ends
    translated. *)
Definition open_read (s : t) (cwd : loc) (p : string) : read_result :=
  match stored s cwd p with
  | ReadOk raw => ReadOk (PyStr.universal_newlines raw)
  | ReadErr exc => ReadErr exc
  end.

(** The store in which [l] is a directory, unless something is there. *)
Definition ensure_dir (s : t) (l : loc) : t :=
  match get s l with
  | None => set s l EDir
  | Some _ => s
  end.

End Store.

(** ** What the script prints *)

Inductive event : Type :=
| WarningGitignore (exc : string)
| ErrorProcessing (file_path : PurePath.t) (exc : string)
| OutputWritten (output_file : string)
| ErrorWritingOutput
| ErrorReadingInput (exc : string)
| Written (output_path : PurePath.t)
| ErrorWriting (output_path : PurePath.t).

(** How a call ends: it returns, or an exception leaves it. *)
Inductive outcome : Type :=
| Returned
| Raised (exc : string).

(** ** The script *)

Definition DEFAULT_PATTERNS : PathSpec :=
  [".git/"; "__pycache__/"; "node_modules/";
   "*.pyc"; "*.pyo"; "*.pyd"; ".Python";
   ".env"; ".venv/"; "env/"; "venv/";
   ".idea/"; ".vscode/"].

Definition DEFAULT_EXTENSIONS : list string :=
  [".py"; ".js"; ".ts"; ".jsx"; ".tsx"; ".css"; ".scss"; ".html"].

Definition MARKER : string := PyStr.nl ++ "// File: ".

(** The lines of an ignore file that the comprehension of line 17 keeps:
    not blank, not starting with [#]. *)
Definition usable_lines (text : string) : list string :=
  filter (fun line => PyStr.truthy (PyStr.strip line)
                      && negb (PyStr.startswith "#" line))
         (PyStr.lines text).

(** [patterns] after lines 12 to 20 of [load_gitignore]: the stripped
    usable lines of [.gitignore]; empty when the file does not exist or
    reading it raises. *)
Definition gitignore_patterns (directory : node) : list string * list event :=
  match lookup directory [".gitignore"] with
  | None => ([], [])
  | Some _ =>
      match open_read directory [".gitignore"] with
      | ReadOk text => (map PyStr.strip (usable_lines text), [])
      | ReadErr exc => ([], [WarningGitignore exc])
      end
  end.

Definition load_gitignore (directory : node) : PathSpec * list event :=
  let (patterns, log) := gitignore_patterns directory in
  (if PyStr.nonempty patterns then patterns else DEFAULT_PATTERNS, log).

Section Script.

(** [gitignore_spec.match_file(relative_path)] of the [pathspec] package;
    [GitWildMatch.match_file] is the model used on concrete inputs. *)
Variable match_file : PathSpec -> string -> bool.

Definition should_process_file (path base_dir : PurePath.t)
    (gitignore_spec : PathSpec) : bool :=
  let relative_path := PurePath.str (PurePath.relative_to path base_dir) in
  negb (PyStr.startswith "." (PurePath.name path)
        || match_file gitignore_spec relative_path).

(** The extension test of line 83. *)
Definition extension_skipped (allowed_extensions : list string)
    (file_path : PurePath.t) : bool :=
  PyStr.nonempty allowed_extensions
  && negb (PyStr.mem (PurePath.suffix file_path) allowed_extensions).

(** One round of the inner loop (lines 76 to 100): what is appended to
    [concatenated] and what is printed. *)
Definition process_file (top : node) (directory_path : PurePath.t)
    (gitignore_spec : PathSpec) (allowed_extensions : list string)
    (root_path : PurePath.t) (file : string) : list string * list event :=
  let file_path := PurePath.child root_path file in
  if negb (should_process_file file_path directory_path gitignore_spec)
  then ([], [])
  else if extension_skipped allowed_extensions file_path then ([], [])
  else
    let relative_path := PurePath.relative_to file_path directory_path in
    match open_read top (PurePath.parts relative_path) with
    | ReadOk content =>
        ([(MARKER ++ PurePath.str relative_path ++ PyStr.nl)%string;
          content; PyStr.nl], [])
    | ReadErr exc => ([], [ErrorProcessing file_path exc])
    end.

Definition gather {A B} (l : list (list A * list B)) : list A * list B :=
  (concat (map fst l), concat (map snd l)).

(** One round of the outer loop (lines 69 to 100). *)
Definition process_directory (top : node) (directory_path : PurePath.t)
    (gitignore_spec : PathSpec) (allowed_extensions : list string)
    (walked : PurePath.t * list string * list string)
  : list string * list event :=
  let '(root_path, _, files) := walked in
  if negb (should_process_file root_path directory_path gitignore_spec)
  then ([], [])
  else gather (map (process_file top directory_path gitignore_spec
                      allowed_extensions root_path)
                   (sorted files)).

(** [concatenate_directory(directory, output_file, allowed_extensions)]
    where the directory at [directory] is [top]: the returned text, the
    file system after the call and what was printed. *)
Definition concatenate_directory (top : node) (fs : Store.t)
    (cwd : Store.loc) (directory : string) (output_file : option string)
    (allowed_extensions : option (list string))
  : string * Store.t * list event :=
  let allowed_extensions :=
    match allowed_extensions with
    | None => DEFAULT_EXTENSIONS
    | Some l => l
    end in
  let directory_path := PurePath.Path directory in
  let (gitignore_spec, warnings) := load_gitignore top in
  let (concatenated, errors) :=
    gather (map (process_directory top directory_path gitignore_spec
                   allowed_extensions)
                (os_walk directory_path top)) in
  let final_content := PyStr.join EmptyString concatenated in
  match output_file with
  | Some f =>
      if PyStr.truthy f then
        match Store.open_write_str fs cwd f final_content with
        | Some fs' =>
            (final_content, fs', warnings ++ errors ++ [OutputWritten f])
        | None =>
            (final_content, fs, warnings ++ errors ++ [ErrorWritingOutput])
        end
      else (final_content, fs, warnings ++ errors)
  | None => (final_content, fs, warnings ++ errors)
  end.

(** The sections of the document, as pairs of the relative path and the
    text read: what [process_file] and [process_directory] append, before
    it is laid out (see [concatenated_sections]). *)
Definition file_section (top : node) (directory_path : PurePath.t)
    (gitignore_spec : PathSpec) (allowed_extensions : list string)
    (root_path : PurePath.t) (file : string)
  : list (PurePath.t * string) :=
  let file_path := PurePath.child root_path file in
  if should_process_file file_path directory_path gitignore_spec
     && negb (extension_skipped allowed_extensions file_path)
  then
    match open_read top
            (PurePath.parts (PurePath.relative_to file_path directory_path))
    with
    | ReadOk content =>
        [(PurePath.relative_to file_path directory_path, content)]
    | ReadErr _ => []
    end
  else [].

Definition directory_sections (top : node) (directory_path : PurePath.t)
    (gitignore_spec : PathSpec) (allowed_extensions : list string)
    (walked : PurePath.t * list string * list string)
  : list (PurePath.t * string) :=
  if should_process_file (fst (fst walked)) directory_path gitignore_spec
  then flat_map (file_section top directory_path gitignore_spec
                   allowed_extensions (fst (fst walked)))
                (sorted (snd walked))
  else [].

Definition sections (top : node) (directory : string)
    (allowed_extensions : option (list string))
  : list (PurePath.t * string) :=
  let allowed :=
    match allowed_extensions with
    | None => DEFAULT_EXTENSIONS
    | Some l => l
    end in
  flat_map (directory_sections top (PurePath.Path directory)
              (fst (load_gitignore top)) allowed)
           (os_walk (PurePath.Path directory) top).

End Script.

(** The three strings a section adds to [concatenated]. *)
Definition render (s : PurePath.t * string) : list string :=
  [(MARKER ++ PurePath.str (fst s) ++ PyStr.nl)%string; snd s; PyStr.nl].

(** The text of one section. *)
Definition section_text (s : PurePath.t * string) : string :=
  (MARKER ++ PurePath.str (fst s) ++ PyStr.nl ++ snd s ++ PyStr.nl)%string.

(** The text returned by [concatenate_directory]. *)
Definition document (match_file : PathSpec -> string -> bool) (top : node)
    (directory : string) (allowed_extensions : option (list string))
  : string :=
  fst (fst (concatenate_directory match_file top (fun _ => None) []
              directory None allowed_extensions)).

(** One round of the loop of [split_concatenated_file] (lines 134 to
    151), followed by the rounds for the remaining chunks.  A chunk without
    a line feed cannot be unpacked and is passed over; [mkdir] stands
    outside the [try] and its exception leaves the function. *)
Fixpoint write_chunks (cwd : Store.loc) (output_dir : string)
    (files : list string) (fs : Store.t)
  : Store.t * list event * outcome :=
  match files with
  | [] => (fs, [], Returned)
  | file_content :: rest =>
      match PyStr.split_max PyStr.nl 1 file_content with
      | [file_path; content] =>
          let output_path :=
            PurePath.truediv (PurePath.Path output_dir) file_path in
          match Store.mkdir_parents fs cwd (PurePath.parent output_path) with
          | (fs1, false) => (fs1, [], Raised "OSError")
          | (fs1, true) =>
              match Store.open_write fs1 cwd output_path
                      (PyStr.rstrip content) with
              | Some fs2 =>
                  let '(fs3, log, res) :=
                    write_chunks cwd output_dir rest fs2 in
                  (fs3, Written output_path :: log, res)
              | None =>
                  let '(fs3, log, res) :=
                    write_chunks cwd output_dir rest fs1 in
                  (fs3, ErrorWriting output_path :: log, res)
              end
          end
      | _ => write_chunks cwd output_dir rest fs
      end
  end.

(** [split_concatenated_file(input_file, output_dir)] in the file system
    [fs] with working directory [cwd]. *)
Definition split_concatenated_file (fs : Store.t) (cwd : Store.loc)
    (input_file output_dir : string) : Store.t * list event * outcome :=
  match Store.open_read fs cwd input_file with
  | ReadErr exc => (fs, [ErrorReadingInput exc], Returned)
  | ReadOk content =>
      let files := PyStr.split MARKER content in
      let files :=
        if PyStr.strip (hd EmptyString files) =? EmptyString
        then tl files else files in
      write_chunks cwd output_dir files fs
  end.

(** ** The entry point *)

(** What [parser.parse_args()] returns: [--mode], [--input], [--output]
    and [--extensions] ([None] when the option is absent, the list of its
    values, which may be empty, otherwise). *)
Inductive run_mode : Type :=
| ModeConcat
| ModeSplit.

Record arguments : Type :=
  mk_arguments {
    mode : run_mode;
    input : string;
    output : string;
    extensions : option (list string)
  }.

(** [main()] after the arguments are parsed (lines 166 to 169); [top] is
    the directory at [args.input], which only the concat mode reads.  The
    value that [concatenate_directory] returns is dropped. *)
Definition main (match_file : PathSpec -> string -> bool) (args : arguments)
    (top : node) (fs : Store.t) (cwd : Store.loc)
  : Store.t * list event * outcome :=
  match mode args with
  | ModeConcat =>
      let '(_, fs', log) :=
        concatenate_directory match_file top fs cwd (input args)
          (Some (output args)) (extensions args) in
      (fs', log, Returned)
  | ModeSplit => split_concatenated_file fs cwd (input args) (output args)
  end.

(** ** The walk seen from the directory that is concatenated

    The script handles every path through its part relative to
    [directory_path]; of [directory_path] itself only the name matters.
    The definitions below restate the sections in these terms; they are
    shown equal to [sections] in [sections_relative]. *)

Section Relative.

Variable match_file : PathSpec -> string -> bool.

(** [os.walk] with the walked directories given by their relative parts. *)
Fixpoint walk (rel : list string) (n : node)
  : list (list string * list string * list string) :=
  match n with
  | File _ => []
  | Dir entries =>
      (rel, dirnames entries, filenames entries) ::
      flat_map (fun e => walk (rel ++ [fst e]) (snd e)) entries
  end.

(** [should_process_file] on the path [rel] below a directory named
    [base_name]. *)
Definition keep (base_name : string) (gitignore_spec : PathSpec)
    (rel : list string) : bool :=
  negb (PyStr.startswith "." (last rel base_name)
        || match_file gitignore_spec
             (PurePath.str (PurePath.mk EmptyString rel))).

Definition rel_file_section (base_name : string) (top : node)
    (gitignore_spec : PathSpec) (allowed_extensions : list string)
    (rel : list string) (file : string) : list (PurePath.t * string) :=
  if keep base_name gitignore_spec (rel ++ [file])
     && negb (extension_skipped allowed_extensions
                (PurePath.mk EmptyString [file]))
  then
    match open_read top (rel ++ [file]) with
    | ReadOk content => [(PurePath.mk EmptyString (rel ++ [file]), content)]
    | ReadErr _ => []
    end
  else [].

Definition rel_directory_sections (base_name : string) (top : node)
    (gitignore_spec : PathSpec) (allowed_extensions : list string)
    (walked : list string * list string * list string)
  : list (PurePath.t * string) :=
  if keep base_name gitignore_spec (fst (fst walked))
  then flat_map (rel_file_section base_name top gitignore_spec
                   allowed_extensions (fst (fst walked)))
                (sorted (snd walked))
  else [].

Definition rel_sections (base_name : string) (top : node)
    (allowed_extensions : list string) : list (PurePath.t * string) :=
  flat_map (rel_directory_sections base_name top (fst (load_gitignore top))
              allowed_extensions)
           (walk [] top).

End Relative.

(** ** Directory trees used as examples *)

Module Examples.

Definition text (name content : string) : string * node :=
  (name, File (ReadOk content)).

(** A hidden directory with a subdirectory that is not hidden. *)
Definition hidden_tree : node :=
  Dir [(".cache", Dir [text "top.py" "t = 0";
                       ("pkg", Dir [text "mod.py" "x = 1"])])].

(** A directory whose listing gives [b] before [a]. *)
Definition unsorted_listing : node :=
  Dir [("b", Dir [text "x.py" "1"]); ("a", Dir [text "y.py" "2"])].

Definition notes_tree : node := Dir [text "notes.txt" "hello"].

Definition three_files : node :=
  Dir [text "a.py" "print(1)"; text "b.js" "x"; text ".hidden.py" "h"].

(** The same three names, with an [a.py] that is not text. *)
Definition three_files_binary : node :=
  Dir [("a.py", File (ReadErr "UnicodeDecodeError")); text "b.js" "x";
       text ".hidden.py" "h"].








(** Two text files, one in a subdirectory, the second with trailing
    blanks. *)
Definition project_tree : node :=
  Dir [text "main.py" ("import util" ++ PyStr.nl)%string;
       ("pkg", Dir [text "util.py" "x = 1  "])].

(** A directory on disk whose view in text mode is [project_tree]. *)
Definition project_disk : node :=
  Dir [text "main.py" ("import util" ++ PyStr.cr ++ PyStr.nl)%string;
       ("pkg", Dir [text "util.py" "x = 1  "])].

(** A directory with a file that cannot be read as text. *)
Definition unreadable_tree : node :=
  Dir [("bad.py", File (ReadErr "UnicodeDecodeError"));
       ("good.py", File (ReadOk "ok"))].

Definition empty_fs : Store.t := fun _ => None.

(** A home directory that holds the document [doc] as [all.txt]. *)
Definition holding (doc : string) : Store.t :=
  Store.set (Store.set empty_fs ["home"] Store.EDir) ["home"; "all.txt"]
    (Store.EFile (ReadOk doc)).

(** A home directory with a document that is one marker line. *)
Definition marker_only_fs : Store.t :=
  Store.set (Store.set empty_fs ["home"] Store.EDir) ["home"; "all.txt"]
    (Store.EFile (ReadOk (MARKER ++ "a.py"))).

(** A home directory with a file of notes and a document whose only
    section names [../notes.txt]. *)
Definition escape_fs : Store.t :=
  Store.set
    (Store.set (Store.set empty_fs ["home"] Store.EDir)
       ["home"; "notes.txt"] (Store.EFile (ReadOk "mine")))
    ["home"; "all.txt"]
    (Store.EFile
       (ReadOk (MARKER ++ "../notes.txt" ++ PyStr.nl ++ "theirs" ++ PyStr.nl))).

(** An ignore file whose first line is a comment that is indented. *)
Definition indented_comment_tree : node :=
  Dir [text ".gitignore"
         ("  # build" ++ PyStr.nl ++ "*.log" ++ PyStr.nl)%string;
       text "main.py" "print(1)"].

(** An empty home directory. *)
Definition home_fs : Store.t := Store.set empty_fs ["home"] Store.EDir.


End Examples.

(** ** The round trip *)

(** A name that can stand on a marker line: a plain name without a line
    feed. *)
Definition name_ok (x : string) : Prop :=
  PurePath.plain_name x /\ PyStr.absent PyStr.LF x.

(** A name that is read back from the document as it was written to it:
    it holds no carriage return, which reading in text mode turns into a
    line feed, and no NUL, which no file name can hold. *)
Definition name_kept (x : string) : Prop :=
  PyStr.absent PyStr.CR x /\ PyStr.absent PyStr.NUL x.

(** Text that cannot be taken for a marker: the marker does not occur in
    it and it does not begin with the marker's visible part. *)
Definition clean_text (content : string) : Prop :=
  PyStr.contains MARKER content = false
  /\ PyStr.startswith "// File: " content = false.

(** Every walked directory passes the filter, and every file in it passes
    the filter and the extension test, has a path of proper names that
    are kept, and reads as clean text. *)
Definition round_trip_ready (match_file : PathSpec -> string -> bool)
    (top : node) (directory : string)
    (allowed_extensions : option (list string)) : Prop :=
  let dp := PurePath.Path directory in
  let spec := fst (load_gitignore top) in
  let allowed :=
    match allowed_extensions with
    | None => DEFAULT_EXTENSIONS
    | Some l => l
    end in
  forall root_path ds files,
    In (root_path, ds, files) (os_walk dp top) ->
    should_process_file match_file root_path dp spec = true
    /\ forall file,
         In file files ->
         let file_path := PurePath.child root_path file in
         let rel := PurePath.parts (PurePath.relative_to file_path dp) in
         should_process_file match_file file_path dp spec = true
         /\ extension_skipped allowed file_path = false
         /\ Forall name_ok rel
         /\ Forall name_kept rel
         /\ exists content,
              open_read top rel = ReadOk content /\ clean_text content.

(** The location of the output directory. *)
Definition output_loc (cwd : Store.loc) (output_dir : string) : Store.loc :=
  Store.start cwd (PurePath.Path output_dir)
  ++ PurePath.parts (PurePath.Path output_dir).

(** The output directory is new: its path has no [..], none of the names
    on the way to it is a file, and nothing exists below it. *)
Definition fresh_output (fs : Store.t) (cwd : Store.loc)
    (output_dir : string) : Prop :=
  let p := PurePath.Path output_dir in
  Forall (fun c => c <> "..") (PurePath.parts p)
  /\ (forall pre suf r,
        pre <> [] -> PurePath.parts p = pre ++ suf ->
        Store.get fs (Store.start cwd p ++ pre) <> Some (Store.EFile r))
  /\ (forall rel,
        rel <> [] -> Store.get fs (output_loc cwd output_dir ++ rel) = None).

(** What the splitter has written below the location [base] after the
    sections [done]: the files there are the stripped texts of [done],
    each directory there leads to one of them, and no name on the way to
    [base] is a file. *)
Definition written_inv (start : Store.loc) (outparts : list string)
    (fs : Store.t) (done : list (list string * string)) : Prop :=
  (forall rel r,
      rel <> [] ->
      Store.get fs (start ++ outparts ++ rel) = Some (Store.EFile r) ->
      exists c, In (rel, c) done /\ r = ReadOk (PyStr.rstrip c))
  /\ (forall rel c,
        In (rel, c) done ->
        Store.get fs (start ++ outparts ++ rel)
        = Some (Store.EFile (ReadOk (PyStr.rstrip c))))
  /\ (forall rel,
        rel <> [] ->
        Store.get fs (start ++ outparts ++ rel) = Some Store.EDir ->
        exists rel' c x more, In (rel', c) done /\ rel' = rel ++ x :: more)
  /\ (forall pre suf r,
        pre <> [] -> outparts = pre ++ suf ->
        Store.get fs (start ++ pre) <> Some (Store.EFile r)).

(** Sections given by the names of their paths: proper names, one text
    per path, and no path that continues another. *)
Definition writes_ok (ws : list (list string * string)) : Prop :=
  (forall rel c, In (rel, c) ws -> rel <> [] /\ Forall name_ok rel)
  /\ (forall rel c c', In (rel, c) ws -> In (rel, c') ws -> c = c')
  /\ (forall rel c rel' c' x more,
        In (rel, c) ws -> In (rel', c') ws -> rel' <> rel ++ x :: more).

Definition chunk_at (w : list string * string) : string :=
  (PyStr.join "/" (fst w) ++ PyStr.nl ++ snd w ++ PyStr.nl)%string.

Definition is_written (e : event) : Prop :=
  match e with
  | Written _ => True
  | _ => False
  end.

(** A section given by the names of its path. *)
Definition as_write (s : PurePath.t * string) : list string * string :=
  (PurePath.parts (fst s), snd s).

(** The chunk of a section: its path line and its text. *)
Definition chunk_of (s : PurePath.t * string) : string :=
  (PurePath.str (fst s) ++ PyStr.nl ++ snd s ++ PyStr.nl)%string.

(** A section whose path line holds no line feed and whose text is
    clean. *)
Definition shaped (s : PurePath.t * string) : Prop :=
  PyStr.absent PyStr.LF (PurePath.str (fst s)) /\ clean_text (snd s).

(** ** Paths the default patterns name *)


(** ** Orders on the sections *)

(** The directory of [p] is not after the directory of [q], as strings. *)
Definition by_directory (p q : PurePath.t) : Prop :=
  String.leb (PurePath.str (PurePath.parent p))
             (PurePath.str (PurePath.parent q)) = true.

(** The file name of [p] is not after the file name of [q]. *)
Definition by_name (p q : PurePath.t) : Prop :=
  String.leb (PurePath.name p) (PurePath.name q) = true.

(** ** Extension lists *)

(** A file name whose suffix is longer than every entry of [l]. *)
Definition unlisted_name (l : list string) : string :=
  ("x." ++ PyStr.replicate
             (S (fold_right (fun x n => String.length x + n) 0 l)) "a")%string.

(** ** Directory listings *)

(** No directory of the tree lists a name twice, as on a file system. *)
#[local] Unset Elimination Schemes.
Inductive unique_names : node -> Prop :=
| unique_file (r : read_result) : unique_names (File r)
| unique_dir (entries : list (string * node)) :
    NoDup (map fst entries) ->
    Forall (fun e => unique_names (snd e)) entries ->
    unique_names (Dir entries).
#[local] Set Elimination Schemes.

(** ** What a run leaves in place *)

(** [fs'] holds everything [fs] holds, apart from files that were
    written over: at every location the entry is the one of [fs], a new
    directory where [fs] had nothing, or a text without trailing blanks
    where [fs] had no directory. *)
Definition only_adds (fs fs' : Store.t) : Prop :=
  forall q,
    Store.get fs' q = Store.get fs q
    \/ (Store.get fs q = None /\ Store.get fs' q = Some Store.EDir)
    \/ (Store.get fs q <> Some Store.EDir
        /\ exists text,
             Store.get fs' q = Some (Store.EFile (ReadOk text))
             /\ PyStr.rstrip text = text).

(** The chunks of a document that the loop of [split_concatenated_file]
    can unpack: those with a line feed. *)
Definition unpacked (files : list string) : list string :=
  filter (PyStr.contains PyStr.nl) files.

(** A message of the write loop. *)
Definition is_write_message (e : event) : Prop :=
  match e with
  | Written _ | ErrorWriting _ => True
  | _ => False
  end.

(** * Properties *)

(** ** Strings *)

Module StrFacts.
Import PyStr.

Lemma append_nil_r (s : string) : (s ++ EmptyString)%string = s.
Proof. induction s; simpl; congruence. Qed.

Lemma append_assoc (a b c : string) :
  ((a ++ b) ++ c)%string = (a ++ (b ++ c))%string.
Proof. induction a; simpl; congruence. Qed.

Lemma prefix_refl_app (p s : string) : String.prefix p (p ++ s) = true.
Proof.
  induction p as [|c p IH]; simpl.
  - destruct s; reflexivity.
  - destruct (ascii_dec c c); [assumption | congruence].
Qed.

Lemma prefix_cons (c d : ascii) (p s : string) :
  String.prefix (String c p) (String d s)
  = Ascii.eqb c d && String.prefix p s.
Proof.
  simpl. destruct (ascii_dec c d) as [->|n].
  - now rewrite Ascii.eqb_refl.
  - apply Ascii.eqb_neq in n. now rewrite n.
Qed.

Lemma prefix_nil_r (p : string) :
  String.prefix p EmptyString = negb (truthy p).
Proof. destruct p; reflexivity. Qed.

Lemma absent_app (c : ascii) (a b : string) :
  absent c (a ++ b) <-> absent c a /\ absent c b.
Proof. induction a; simpl; tauto. Qed.

(** A prefix free of [c] cannot reach over a [c]. *)
Lemma prefix_before (c : ascii) (p t r : string) :
  absent c p -> stops c r ->
  String.prefix p (t ++ r) = true -> String.prefix p t = true.
Proof.
  revert t. induction p as [|d p IH]; intros t Hp Hr H.
  - destruct t; reflexivity.
  - destruct Hp as [Hd Hp]. destruct t as [|e t]; simpl in H |- *.
    + destruct r as [|f r]; [discriminate|]. simpl in Hr. subst f.
      simpl in H. destruct (ascii_dec d c); [contradiction | discriminate].
    + destruct (ascii_dec d e); [eauto | discriminate].
Qed.

Lemma clear_of_app (sep a b r : string) :
  clear_of sep a (b ++ r) -> clear_of sep b r -> clear_of sep (a ++ b) r.
Proof.
  induction a as [|c a IH]; simpl; intros Ha Hb; [assumption|].
  destruct Ha as [H Ha]. rewrite append_assoc. split; [exact H | auto].
Qed.

Lemma clear_of_absent (c : ascii) (sep a r : string) :
  absent c a -> clear_of (String c sep) a r.
Proof.
  induction a as [|d a IH]; simpl; intros H; [exact I|].
  destruct H as [Hd Ha]. split; [|auto].
  destruct (ascii_dec c d); [congruence | reflexivity].
Qed.

Lemma contains_false_cons (sub : string) (c : ascii) (s : string) :
  contains sub (String c s) = false ->
  String.prefix sub (String c s) = false /\ contains sub s = false.
Proof. cbn [contains]. intros H. apply orb_false_iff in H. exact H. Qed.

(** Without an occurrence of [c :: sep] in [a], none starts inside [a]
    when what follows stops at [c] and [sep] is free of [c]. *)
Lemma clear_of_contains (c : ascii) (sep a r : string) :
  absent c sep -> stops c r ->
  contains (String c sep) a = false ->
  clear_of (String c sep) a r.
Proof.
  intros Hs Hr. induction a as [|d a IH]; intros H; [exact I|].
  apply contains_false_cons in H. destruct H as [Hp Hc].
  split; [|auto].
  destruct (String.prefix (String c sep) (String d a ++ r)) eqn:E;
    [|reflexivity].
  change (String d a ++ r)%string with (String d (a ++ r)) in E.
  rewrite prefix_cons in E. apply andb_true_iff in E. destruct E as [E1 E2].
  apply (prefix_before c) in E2; [|assumption|assumption].
  rewrite prefix_cons, E1, E2 in Hp. discriminate.
Qed.

Lemma absent_not_contains (c : ascii) (sep s : string) :
  absent c s -> contains (String c sep) s = false.
Proof.
  induction s as [|d s IH]; intros H; [reflexivity|].
  destruct H as [Hd Hs]. cbn [contains]. rewrite prefix_cons.
  apply not_eq_sym, Ascii.eqb_neq in Hd. rewrite Hd. simpl. auto.
Qed.

(** *** [split] *)

Lemma split_scan_nonnil sep k b s : split_scan sep k b s <> [].
Proof.
  revert k b. induction s as [|c s IH]; intros k b; cbn [split_scan];
    [discriminate|].
  destruct k; [|apply IH].
  destruct b as [[|n]|]; try discriminate;
    (destruct (String.prefix sep (String c s)); [discriminate|]);
    specialize (IH 0); unfold cons_head.
  - destruct (split_scan sep 0 (Some (S n)) s); discriminate.
  - destruct (split_scan sep 0 None s); discriminate.
Qed.

Lemma split_scan_skip sep b (u s : string) :
  split_scan sep (String.length u) b (u ++ s) = split_scan sep 0 b s.
Proof. induction u; simpl; auto. Qed.

Lemma split_scan_zero sep s : split_scan sep 0 (Some 0) s = [s].
Proof. destruct s; reflexivity. Qed.

(** The separator in front: an empty first piece. *)
Lemma split_scan_sep (c : ascii) (sep : string) b (s : string) :
  b <> Some 0 ->
  split_scan (String c sep) 0 b (String c sep ++ s)
  = EmptyString :: split_scan (String c sep) 0 (option_map Nat.pred b) s.
Proof.
  intros Hb.
  change (String c sep ++ s)%string with (String c (sep ++ s)).
  cbn [split_scan].
  change (String c (sep ++ s)) with (String c sep ++ s)%string.
  rewrite prefix_refl_app.
  replace (String.length (String c sep) - 1) with (String.length sep)
    by (simpl; lia).
  rewrite split_scan_skip.
  destruct b as [[|n]|]; [congruence | reflexivity | reflexivity].
Qed.

(** Text in which no separator starts goes to the first piece. *)
Lemma split_scan_clear sep b (a r : string) :
  b <> Some 0 -> clear_of sep a r ->
  split_scan sep 0 b (a ++ r) = prepend a (split_scan sep 0 b r).
Proof.
  intros Hb. induction a as [|c a IH]; intros H.
  - simpl. pose proof (split_scan_nonnil sep 0 b r).
    destruct (split_scan sep 0 b r); [congruence | reflexivity].
  - destruct H as [Hp Ha].
    change (String c a ++ r)%string with (String c (a ++ r)) in *.
    cbn [split_scan]. rewrite Hp, (IH Ha).
    pose proof (split_scan_nonnil sep 0 b r).
    destruct b as [[|n]|]; try congruence;
      (destruct (split_scan sep 0 _ r); [congruence | reflexivity]).
Qed.

Lemma split_single (c : ascii) (sep s : string) :
  contains (String c sep) s = false -> absent c sep ->
  split (String c sep) s = [s].
Proof.
  intros H Hs. unfold split.
  rewrite <- (append_nil_r s) at 1.
  rewrite split_scan_clear; [simpl; now rewrite append_nil_r | discriminate |].
  apply clear_of_contains; simpl; auto.
Qed.

(** [s.split(LF, 1)] *)
Lemma split_max_no_newline (s : string) :
  absent LF s -> split_max nl 1 s = [s].
Proof.
  intros H. unfold split_max, nl.
  rewrite <- (append_nil_r s) at 1.
  rewrite split_scan_clear; [simpl; now rewrite append_nil_r | discriminate |].
  now apply clear_of_absent.
Qed.

Lemma split_max_first_line (p rest : string) :
  absent LF p -> split_max nl 1 (p ++ nl ++ rest) = [p; rest].
Proof.
  intros H. unfold split_max, nl.
  rewrite split_scan_clear; [|discriminate|now apply clear_of_absent].
  rewrite split_scan_sep by discriminate. simpl.
  rewrite split_scan_zero. simpl. now rewrite append_nil_r.
Qed.

(** *** [rstrip], [strip] *)

Lemma rstrip_app_space (s : string) (c : ascii) :
  isspace c = true -> rstrip (s ++ String c EmptyString) = rstrip s.
Proof.
  intros Hc. induction s as [|d s IH]; simpl.
  - now rewrite Hc.
  - now rewrite IH.
Qed.

Lemma isspace_LF : isspace LF = true.
Proof. reflexivity. Qed.

Lemma rstrip_app_nl (s : string) : rstrip (s ++ nl) = rstrip s.
Proof. apply rstrip_app_space, isspace_LF. Qed.

Lemma contains_absent (c : ascii) (s : string) :
  contains (String c EmptyString) s = false <-> absent c s.
Proof.
  induction s as [|d s IH].
  - simpl. tauto.
  - cbn [contains absent]. rewrite prefix_cons, orb_false_iff, IH.
    assert (String.prefix EmptyString s = true) as -> by (destruct s; reflexivity).
    rewrite andb_true_r, Ascii.eqb_neq. split; intros [A B]; split; auto.
Qed.

(** *** [join] *)

Lemma join_empty (l : list string) :
  join EmptyString l = fold_right String.append EmptyString l.
Proof.
  unfold join. induction l as [|a l IH]; [reflexivity|].
  destruct l as [|b l]; [simpl; now rewrite append_nil_r|].
  change (String.concat EmptyString (a :: b :: l))
    with (a ++ (EmptyString ++ String.concat EmptyString (b :: l)))%string.
  rewrite IH. reflexivity.
Qed.

End StrFacts.

(** ** The splitter: chunks *)

Section Chunks.
Import PyStr StrFacts.

Variables (cwd : Store.loc) (output_dir : string).

Lemma MARKER_eq : MARKER = String LF "// File: ".
Proof. reflexivity. Qed.

(** The round of the loop for a chunk that has a first line. *)
Lemma write_chunks_cons (p content : string) (rest : list string)
    (fs : Store.t) :
  absent LF p ->
  write_chunks cwd output_dir ((p ++ nl ++ content)%string :: rest) fs
  = let output_path := PurePath.truediv (PurePath.Path output_dir) p in
    match Store.mkdir_parents fs cwd (PurePath.parent output_path) with
    | (fs1, false) => (fs1, [], Raised "OSError")
    | (fs1, true) =>
        match Store.open_write fs1 cwd output_path (rstrip content) with
        | Some fs2 =>
            let '(fs3, log, res) := write_chunks cwd output_dir rest fs2 in
            (fs3, Written output_path :: log, res)
        | None =>
            let '(fs3, log, res) := write_chunks cwd output_dir rest fs1 in
            (fs3, ErrorWriting output_path :: log, res)
        end
    end.
Proof.
  intros Hp. cbn [write_chunks]. rewrite (split_max_first_line _ _ Hp).
  reflexivity.
Qed.

Lemma write_chunks_skip (c : string) (rest : list string) (fs : Store.t) :
  absent LF c ->
  write_chunks cwd output_dir (c :: rest) fs
  = write_chunks cwd output_dir rest fs.
Proof.
  intros Hc. cbn [write_chunks]. now rewrite (split_max_no_newline _ Hc).
Qed.

Lemma write_chunks_skip_inside (pre : list string) (c : string)
    (post : list string) :
  absent LF c ->
  forall fs,
    write_chunks cwd output_dir (pre ++ c :: post) fs
    = write_chunks cwd output_dir (pre ++ post) fs.
Proof.
  intros Hc. induction pre as [|x pre IH]; intros fs.
  - apply write_chunks_skip, Hc.
  - cbn [app write_chunks].
    destruct (split_max nl 1 x) as [|a [|b [|? ?]]]; try apply IH.
    destruct (Store.mkdir_parents fs cwd _) as [fs1 [|]]; [|reflexivity].
    destruct (Store.open_write fs1 cwd _ _) as [fs2|]; now rewrite IH.
Qed.

Lemma split_marker_only (c : string) :
  absent LF c -> split MARKER (MARKER ++ c) = [EmptyString; c].
Proof.
  intros Hc. unfold split. rewrite MARKER_eq.
  rewrite split_scan_sep by discriminate. simpl option_map.
  fold (split (String LF "// File: ") c).
  rewrite split_single; [reflexivity | | simpl; intuition discriminate].
  now apply absent_not_contains.
Qed.

End Chunks.

(** C7: when reading the input file raises, the splitter prints the error
    and returns; the file system is the one it started with, so no file
    was written and no directory created. *)
Theorem split_read_failure_no_effect :
  forall (fs : Store.t) (cwd : Store.loc) (input_file output_dir exc : string),
    Store.open_read fs cwd input_file = ReadErr exc ->
    split_concatenated_file fs cwd input_file output_dir
    = (fs, [ErrorReadingInput exc], Returned).
Proof.
  intros fs cwd input_file output_dir exc H.
  unfold split_concatenated_file. now rewrite H.
Qed.

(** [split_read_failure_no_effect] on an input file that does not
    exist. *)
Lemma split_read_failure_no_effect_witness :
  Store.open_read Examples.empty_fs ["home"] "all.txt"
  = ReadErr "FileNotFoundError"
  /\ split_concatenated_file Examples.empty_fs ["home"] "all.txt" "out"
     = (Examples.empty_fs, [ErrorReadingInput "FileNotFoundError"], Returned).
Proof.
  split; [reflexivity|].
  apply (split_read_failure_no_effect Examples.empty_fs ["home"] "all.txt"
           "out" "FileNotFoundError").
  reflexivity.
Defined.

(** C6: a chunk without a line feed is passed over: the loop over a list
    of chunks that holds it anywhere does what it does on the list without
    it (same files, same messages, same way of ending), and a document that
    is a marker line followed by the end of input leaves the file system
    as it was, prints nothing and returns. *)
Theorem chunk_without_newline_skipped :
  forall (fs : Store.t) (cwd : Store.loc) (input_file output_dir : string)
         (pre : list string) (c : string) (post : list string),
    PyStr.contains PyStr.nl c = false ->
    write_chunks cwd output_dir (pre ++ c :: post) fs
    = write_chunks cwd output_dir (pre ++ post) fs
    /\ (Store.open_read fs cwd input_file = ReadOk (MARKER ++ c) ->
        split_concatenated_file fs cwd input_file output_dir
        = (fs, [], Returned)).
Proof.
  intros fs cwd input_file output_dir pre c post H.
  apply StrFacts.contains_absent in H. split.
  - now apply write_chunks_skip_inside.
  - intros Hin. unfold split_concatenated_file. rewrite Hin.
    rewrite (split_marker_only c H). cbn [hd tl].
    change (PyStr.strip EmptyString =? EmptyString)%string with true.
    cbv iota. now rewrite write_chunks_skip.
Qed.

(** [chunk_without_newline_skipped] on the chunk [a.py]. *)
Lemma chunk_without_newline_skipped_witness :
  PyStr.contains PyStr.nl "a.py" = false
  /\ write_chunks ["home"] "out"
       ([("x.py" ++ PyStr.nl ++ "1")%string] ++ "a.py" :: ["b.py"])
       Examples.marker_only_fs
     = write_chunks ["home"] "out"
         ([("x.py" ++ PyStr.nl ++ "1")%string] ++ ["b.py"])
         Examples.marker_only_fs
  /\ split_concatenated_file Examples.marker_only_fs ["home"] "all.txt" "out"
     = (Examples.marker_only_fs, [], Returned).
Proof.
  split; [reflexivity|].
  destruct (chunk_without_newline_skipped Examples.marker_only_fs ["home"]
              "all.txt" "out" [("x.py" ++ PyStr.nl ++ "1")%string] "a.py"
              ["b.py"] eq_refl) as [E1 E2].
  split; [exact E1 | apply E2; reflexivity].
Defined.

(** ** Paths *)

Module PathFacts.
Import PyStr StrFacts PurePath.

Lemma split_slash_single (a : string) :
  absent "/" a -> split "/" a = [a].
Proof.
  intros H. apply split_single; [|exact I].
  now apply contains_absent.
Qed.

Lemma split_slash_cons (a s : string) :
  absent "/" a -> split "/" (a ++ "/" ++ s) = a :: split "/" s.
Proof.
  intros H. unfold split.
  rewrite split_scan_clear; [|discriminate|now apply clear_of_absent].
  rewrite split_scan_sep by discriminate. simpl.
  now rewrite append_nil_r.
Qed.

Lemma leading_root_plain (x : string) :
  absent "/" x -> leading_root x = EmptyString.
Proof.
  destruct x as [|c x]; [reflexivity|]. intros [Hc _].
  destruct c as [[] [] [] [] [] [] [] []]; try reflexivity.
  now contradiction Hc.
Qed.

Lemma leading_root_abs (x : string) :
  x <> EmptyString -> absent "/" x ->
  leading_root (String "/" x) = "/".
Proof.
  destruct x as [|c x]; [congruence|]. intros _ [Hc _].
  destruct c as [[] [] [] [] [] [] [] []]; try reflexivity.
  now contradiction Hc.
Qed.

Lemma keep_part_plain (x : string) : plain_name x -> keep_part x = true.
Proof.
  intros (H0 & H1 & _). unfold keep_part.
  apply String.eqb_neq in H1. rewrite H1.
  destruct x; [congruence | reflexivity].
Qed.

Lemma Path_plain (x : string) :
  plain_name x -> Path x = {| root := EmptyString; parts := [x] |}.
Proof.
  intros H. pose proof (keep_part_plain x H) as K.
  destruct H as (H0 & H1 & H2 & H3). unfold Path.
  rewrite leading_root_plain, split_slash_single by assumption.
  simpl. now rewrite K.
Qed.

Lemma Path_dotdot (x : string) :
  plain_name x ->
  Path ("../" ++ x) = {| root := EmptyString; parts := [".."; x] |}.
Proof.
  intros H. pose proof (keep_part_plain x H) as K.
  destruct H as (H0 & H1 & H2 & H3). unfold Path.
  change ("../" ++ x)%string with (".." ++ "/" ++ x)%string.
  rewrite split_slash_cons by (simpl; intuition discriminate).
  rewrite split_slash_single by assumption.
  simpl. now rewrite K.
Qed.

Lemma Path_abs (x : string) :
  plain_name x ->
  Path ("/" ++ x) = {| root := "/"; parts := [x] |}.
Proof.
  intros H. pose proof (keep_part_plain x H) as K.
  destruct H as (H0 & H1 & H2 & H3). unfold Path.
  change ("/" ++ x)%string with (String "/" x).
  rewrite leading_root_abs by assumption.
  change (String "/" x) with (EmptyString ++ "/" ++ x)%string.
  rewrite split_slash_cons by exact I.
  rewrite split_slash_single by assumption.
  simpl. now rewrite K.
Qed.

End PathFacts.

(** ** The file system that is written *)

Module StoreFacts.
Import Store.

Lemma get_set_same (s : t) (l : loc) (e : entry) :
  l <> [] -> get (set s l e) l = Some e.
Proof.
  intros H. destruct l; [congruence|]. unfold get, set.
  destruct (list_eq_dec string_dec (s0 :: l) (s0 :: l)); congruence.
Qed.

Lemma get_set_other (s : t) (l q : loc) (e : entry) :
  q <> l -> get (set s l e) q = get s q.
Proof.
  intros H. destruct q; [reflexivity|]. unfold get, set.
  destruct (list_eq_dec string_dec (s0 :: q) l); congruence.
Qed.

Lemma step_name (l : loc) (c : string) :
  c <> ".." -> step l c = l ++ [c].
Proof.
  intros H. unfold step. apply String.eqb_neq in H. now rewrite H.
Qed.

Lemma step_up (l : loc) (c : string) : step (l ++ [c]) ".." = l.
Proof. unfold step. simpl. apply removelast_last. Qed.

Lemma get_ensure_dir (s : t) (l : loc) :
  (forall text, get s l <> Some (EFile text)) ->
  get (ensure_dir s l) l = Some EDir.
Proof.
  intros H. unfold ensure_dir. destruct (get s l) as [[text|]|] eqn:E.
  - now contradiction (H text).
  - exact E.
  - destruct l; [discriminate|]. now apply get_set_same.
Qed.

Lemma get_ensure_dir_other (s : t) (l q : loc) :
  q <> l -> get (ensure_dir s l) q = get s q.
Proof.
  intros H. unfold ensure_dir. destruct (get s l); [reflexivity|].
  now apply get_set_other.
Qed.

Lemma mkdir_from_one (s : t) (l : loc) (c : string) (rest : list string) :
  c <> ".." ->
  (forall text, get s (l ++ [c]) <> Some (EFile text)) ->
  mkdir_from s l (c :: rest)
  = mkdir_from (ensure_dir s (l ++ [c])) (l ++ [c]) rest.
Proof.
  intros Hc H. cbn [mkdir_from]. rewrite (step_name _ _ Hc).
  unfold ensure_dir. destruct (get s (l ++ [c])) as [[text|]|] eqn:E.
  - now contradiction (H text).
  - reflexivity.
  - reflexivity.
Qed.

Lemma resolve_dirs_set (ps : list string) :
  forall (s : t) (l l' q : loc) (e : entry),
    get s q <> Some EDir ->
    resolve_dirs s l ps = Some l' ->
    resolve_dirs (set s q e) l ps = Some l'.
Proof.
  induction ps as [|c ps IH]; intros s l l' q e Hq H; [exact H|].
  cbn [resolve_dirs] in *.
  destruct (get s (step l c)) as [[r|]|] eqn:G; try discriminate.
  assert (K : step l c <> q) by congruence.
  rewrite (get_set_other s q _ e K), G. now apply IH.
Qed.

(** The file that [open] wrote holds the text that was written. *)
Lemma written_document_stored (s s' : t) (cwd : loc) (p text : string) :
  open_write_str s cwd p text = Some s' ->
  stored s' cwd p = ReadOk text.
Proof.
  unfold open_write_str, stored, open_write.
  destruct (names_directory p) eqn:N; [discriminate|].
  destruct (rev (PurePath.parts (PurePath.Path p))) as [|name rdirs];
    [discriminate|].
  destruct (resolve_dirs s _ (rev rdirs)) as [l|] eqn:R; [|discriminate].
  destruct (String.eqb_spec name "..") as [->|Hn]; [discriminate|].
  destruct (get s (l ++ [name])) as [[r|]|] eqn:G; try discriminate;
    intros [= <-];
    (rewrite (resolve_dirs_set _ s _ l (l ++ [name]) _
                ltac:(congruence) R));
    rewrite (step_name _ _ Hn), get_set_same by (now destruct l);
    reflexivity.
Qed.

(** A document that [open] wrote is read back with its line ends
    translated. *)
Lemma written_document_read_back (s s' : t) (cwd : loc) (p text : string) :
  open_write_str s cwd p text = Some s' ->
  open_read s' cwd p = ReadOk (PyStr.universal_newlines text).
Proof.
  intros H. unfold open_read. now rewrite (written_document_stored _ _ _ _ _ H).
Qed.

End StoreFacts.

(** ** Text mode *)

Module NewlineFacts.
Import PyStr.

(** Text without a carriage return is read as it is. *)
Lemma universal_newlines_id (s : string) :
  absent CR s -> universal_newlines s = s.
Proof.
  induction s as [|c s IH]; [reflexivity|]. intros [Hc Hs].
  cbn [universal_newlines]. apply Ascii.eqb_neq in Hc. rewrite Hc.
  now rewrite (IH Hs).
Qed.

(** Text that was read holds no carriage return. *)
Lemma universal_newlines_no_CR (s : string) :
  absent CR (universal_newlines s).
Proof.
  induction s as [|c s IH]; [exact I|].
  cbn [universal_newlines]. destruct (Ascii.eqb_spec c CR) as [->|Hc].
  - destruct s as [|d s]; [split; [discriminate | exact I]|].
    destruct (Ascii.eqb d LF); [exact IH|].
    split; [discriminate | exact IH].
  - split; assumption.
Qed.

(** A file written with carriage returns is read with line feeds. *)
Lemma read_translates_line_ends :
  Store.stored
    (Examples.holding ("a" ++ cr ++ nl ++ "b" ++ cr ++ "c")%string)
    ["home"] "all.txt"
  = ReadOk ("a" ++ cr ++ nl ++ "b" ++ cr ++ "c")%string
  /\ Store.open_read
       (Examples.holding ("a" ++ cr ++ nl ++ "b" ++ cr ++ "c")%string)
       ["home"] "all.txt"
     = ReadOk ("a" ++ nl ++ "b" ++ nl ++ "c")%string.
Proof. split; reflexivity. Qed.

(** A path that goes on after a file, also by [.], cannot be opened. *)
Lemma path_through_file_is_refused :
  Store.open_read (Examples.holding "doc") ["home"] "all.txt/."
  = ReadErr "NotADirectoryError"
  /\ Store.open_write_str (Examples.holding "doc") ["home"] "all.txt/." "x"
     = None
  /\ Store.open_write_str (Examples.holding "doc") ["home"] "new.txt/." "x"
     = None
  /\ Store.open_read (Examples.holding "doc") ["home"] "./all.txt"
     = ReadOk "doc".
Proof. repeat split; reflexivity. Qed.

End NewlineFacts.

(** ** The splitter: where a chunk is written *)

Section Targets.
Import PyStr StrFacts PurePath PathFacts Store StoreFacts.

Variables (cwd : loc) (out x : string).
Hypothesis out_plain : plain_name out.
Hypothesis x_plain : plain_name x.

Lemma target_parent_dir :
  truediv (Path out) ("../" ++ x)
  = {| root := EmptyString; parts := [out; ".."; x] |}.
Proof.
  unfold truediv. rewrite (Path_plain out out_plain), (Path_dotdot x x_plain).
  reflexivity.
Qed.

Lemma target_absolute :
  truediv (Path out) ("/" ++ x) = {| root := "/"; parts := [x] |}.
Proof.
  unfold truediv. rewrite (Path_abs x x_plain). reflexivity.
Qed.

Lemma sibling_not_below (rel : list string) :
  x <> out -> cwd ++ [x] <> (cwd ++ [out]) ++ rel.
Proof.
  intros Hx E. rewrite <- app_assoc in E. apply app_inv_head in E.
  simpl in E. congruence.
Qed.

Lemma write_parent_dir (fs : t) (text : string) :
  x <> out ->
  get fs cwd = Some EDir ->
  (forall t0, get fs (cwd ++ [out]) <> Some (EFile t0)) ->
  get fs (cwd ++ [x]) <> Some EDir ->
  let target := {| root := EmptyString; parts := [out; ".."; x] |} in
  mkdir_parents fs cwd (parent target) = (ensure_dir fs (cwd ++ [out]), true)
  /\ open_write (ensure_dir fs (cwd ++ [out])) cwd target text
     = Some (set (ensure_dir fs (cwd ++ [out])) (cwd ++ [x]) (EFile (ReadOk text))).
Proof.
  intros Hx Hcwd Hout Htgt target.
  destruct out_plain as (_ & _ & Ho & _), x_plain as (_ & _ & Hx2 & _).
  assert (Hne : cwd <> cwd ++ [out]).
  { intros E. apply (f_equal (@List.length string)) in E.
    rewrite length_app in E. simpl in E. lia. }
  assert (Hd : get (ensure_dir fs (cwd ++ [out])) (cwd ++ [out]) = Some EDir)
    by now apply get_ensure_dir.
  assert (Hc : get (ensure_dir fs (cwd ++ [out])) cwd = Some EDir)
    by now rewrite get_ensure_dir_other.
  split.
  - unfold mkdir_parents, start, parent, target. cbn [root parts truthy removelast].
    rewrite mkdir_from_one by assumption.
    cbn [mkdir_from]. rewrite step_up, Hc. reflexivity.
  - unfold open_write, start, target. cbn [root parts truthy rev app].
    cbn [resolve_dirs]. rewrite (step_name _ _ Ho), Hd, step_up, Hc.
    apply String.eqb_neq in Hx2. rewrite Hx2.
    rewrite get_ensure_dir_other
      by (intros E; apply app_inv_head in E; congruence).
    destruct (get fs (cwd ++ [x])) as [[t0|]|]; congruence.
Qed.

Lemma write_absolute (fs : t) (text : string) :
  get fs [x] <> Some EDir ->
  let target := {| root := "/"; parts := [x] |} in
  mkdir_parents fs cwd (parent target) = (fs, true)
  /\ open_write fs cwd target text = Some (set fs [x] (EFile (ReadOk text))).
Proof.
  intros Htgt target. destruct x_plain as (_ & _ & Hx2 & _).
  split; [reflexivity|].
  unfold open_write, start, target. cbn [root parts truthy rev app].
  cbn [resolve_dirs app]. apply String.eqb_neq in Hx2. rewrite Hx2.
  destruct (get fs [x]) as [[t0|]|]; congruence.
Qed.

End Targets.

(** C10: the path of a marker line is joined to [output_dir] as it is:
    for every chunk with a first line [p], the directories made and the
    file opened are those of [Path(output_dir) / p], whatever [p] is.  So
    a chunk whose path is [../x] is written to [x] beside the output
    directory, replacing what was there, and a chunk whose path is [/x] is
    written to [x] in the root directory; neither location lies below the
    output directory, and the loop goes on with the remaining chunks. *)
Theorem split_writes_outside_output_dir :
  forall (cwd : Store.loc) (out x content : string) (rest : list string)
         (fs : Store.t),
    PurePath.plain_name out -> PurePath.plain_name x -> x <> out ->
    PyStr.absent PyStr.LF x ->
    Store.get fs cwd = Some Store.EDir ->
    (forall t0, Store.get fs (cwd ++ [out]) <> Some (Store.EFile t0)) ->
    Store.get fs (cwd ++ [x]) <> Some Store.EDir ->
    Store.get fs [x] <> Some Store.EDir ->
    (forall p text files fs0,
        PyStr.absent PyStr.LF p ->
        write_chunks cwd out ((p ++ PyStr.nl ++ text)%string :: files) fs0
        = let output_path := PurePath.truediv (PurePath.Path out) p in
          match Store.mkdir_parents fs0 cwd (PurePath.parent output_path) with
          | (fs1, false) => (fs1, [], Raised "OSError")
          | (fs1, true) =>
              match Store.open_write fs1 cwd output_path (PyStr.rstrip text)
              with
              | Some fs2 =>
                  let '(fs3, log, res) := write_chunks cwd out files fs2 in
                  (fs3, Written output_path :: log, res)
              | None =>
                  let '(fs3, log, res) := write_chunks cwd out files fs1 in
                  (fs3, ErrorWriting output_path :: log, res)
              end
          end)
    /\ (write_chunks cwd out
          ((("../" ++ x) ++ PyStr.nl ++ content)%string :: rest) fs
        = let target :=
            {| PurePath.root := EmptyString;
               PurePath.parts := [out; ".."; x] |} in
          let '(fs3, log, res) :=
            write_chunks cwd out rest
              (Store.set (Store.ensure_dir fs (cwd ++ [out])) (cwd ++ [x])
                 (Store.EFile (ReadOk (PyStr.rstrip content)))) in
          (fs3, Written target :: log, res))
    /\ (write_chunks cwd out
          ((("/" ++ x) ++ PyStr.nl ++ content)%string :: rest) fs
        = let target := {| PurePath.root := "/"; PurePath.parts := [x] |} in
          let '(fs3, log, res) :=
            write_chunks cwd out rest
              (Store.set fs [x] (Store.EFile (ReadOk (PyStr.rstrip content)))) in
          (fs3, Written target :: log, res))
    /\ (forall rel, cwd ++ [x] <> (cwd ++ [out]) ++ rel)
    /\ (forall rel, [x] <> (cwd ++ [out]) ++ rel).
Proof.
  intros cwd out x content rest fs Ho Hx Hne Hnl Hcwd Hout Ht1 Ht2.
  split; [intros p text files fs0 Hp; now apply write_chunks_cons|].
  repeat split.
  - rewrite write_chunks_cons
      by (apply StrFacts.absent_app; split;
          [simpl; intuition discriminate | exact Hnl]).
    rewrite (target_parent_dir out x Ho Hx).
    destruct (write_parent_dir cwd out x Ho Hx fs (PyStr.rstrip content)
                Hne Hcwd Hout Ht1) as [E1 E2].
    cbv zeta. cbv zeta in E1, E2. rewrite E1, E2. reflexivity.
  - rewrite write_chunks_cons
      by (apply StrFacts.absent_app; split;
          [simpl; intuition discriminate | exact Hnl]).
    rewrite (target_absolute out x Hx).
    destruct (write_absolute cwd x Hx fs (PyStr.rstrip content) Ht2)
      as [E1 E2].
    cbv zeta. cbv zeta in E1, E2. rewrite E1, E2. reflexivity.
  - intros rel. now apply sibling_not_below.
  - intros rel E. rewrite <- app_assoc in E. destruct cwd as [|c cwd'].
    + simpl in E. congruence.
    + simpl in E. injection E as _ E. destruct cwd'; discriminate.
Qed.

(** [split_writes_outside_output_dir] on a document whose only section
    names [../notes.txt]. *)
Lemma split_writes_outside_output_dir_witness :
  split_concatenated_file Examples.escape_fs ["home"] "all.txt" "out"
  = (Store.set (Store.ensure_dir Examples.escape_fs ["home"; "out"])
       ["home"; "notes.txt"] (Store.EFile (ReadOk "theirs")),
     [Written {| PurePath.root := EmptyString;
                 PurePath.parts := ["out"; ".."; "notes.txt"] |}],
     Returned).
Proof.
  assert (Ho : PurePath.plain_name "out")
    by (repeat split; simpl; intuition discriminate).
  assert (Hx : PurePath.plain_name "notes.txt")
    by (repeat split; simpl; intuition discriminate).
  assert (Hl : PyStr.absent PyStr.LF "notes.txt")
    by (simpl; intuition discriminate).
  destruct (split_writes_outside_output_dir ["home"] "out" "notes.txt"
              ("theirs" ++ PyStr.nl) [] Examples.escape_fs Ho Hx
              ltac:(discriminate) Hl
              ltac:(reflexivity) ltac:(discriminate) ltac:(discriminate)
              ltac:(discriminate)) as (_ & E & _).
  exact E.
Defined.

(** ** The directory walk *)

Module WalkFacts.
Import PyStr StrFacts PurePath.

(** Induction on a directory tree. *)
Lemma node_rect' (P : node -> Prop) :
  (forall r, P (File r)) ->
  (forall entries, Forall (fun e => P (snd e)) entries -> P (Dir entries)) ->
  forall n, P n.
Proof.
  intros HF HD.
  fix IH 1. intros [r|entries]; [apply HF|]. apply HD.
  induction entries as [|[x c] entries IHe]; constructor; [apply IH | exact IHe].
Qed.

Lemma strip_prefix_app (base rel : list string) :
  strip_prefix base (base ++ rel) = Some rel.
Proof.
  induction base as [|b base IH]; simpl; [reflexivity|].
  now rewrite String.eqb_refl.
Qed.

Lemma relative_to_descend (p : t) (rel : list string) :
  relative_to (descend p rel) p = {| root := EmptyString; parts := rel |}.
Proof. unfold relative_to, descend. simpl. now rewrite strip_prefix_app. Qed.

Lemma descend_nil (p : t) : descend p [] = p.
Proof. destruct p. unfold descend. simpl. now rewrite app_nil_r. Qed.

Lemma child_descend (p : t) (rel : list string) (x : string) :
  child (descend p rel) x = descend p (rel ++ [x]).
Proof. unfold child, descend. simpl. now rewrite app_assoc. Qed.

Lemma name_descend (p : t) (rel : list string) :
  name (descend p rel) = last rel (name p).
Proof.
  unfold name, descend. simpl. revert p.
  induction rel as [|x rel IH] using rev_ind; intros p.
  - now rewrite app_nil_r.
  - now rewrite app_assoc, !last_last.
Qed.

Lemma name_child (p : t) (x : string) : name (child p x) = x.
Proof. unfold name, child. simpl. apply last_last. Qed.

Lemma suffix_child (p q : t) (x : string) :
  suffix (child p x) = suffix (child q x).
Proof. unfold suffix. now rewrite !name_child. Qed.

End WalkFacts.

(** ** The concatenator: the document and its sections *)

Section Sections.
Import PyStr StrFacts PurePath WalkFacts.

Variable match_file : PathSpec -> string -> bool.

Lemma fst_gather {A B} (l : list (list A * list B)) :
  fst (gather l) = concat (map fst l).
Proof. reflexivity. Qed.

Lemma process_file_sections top dp spec allowed root_path file :
  fst (process_file match_file top dp spec allowed root_path file)
  = flat_map render
      (file_section match_file top dp spec allowed root_path file).
Proof.
  unfold process_file, file_section.
  destruct (should_process_file match_file _ dp spec); [|reflexivity].
  destruct (extension_skipped allowed _); [reflexivity|].
  simpl. destruct (open_read top _); reflexivity.
Qed.

Lemma flat_map_flat_map {A B C} (f : A -> list B) (g : B -> list C)
    (l : list A) :
  flat_map g (flat_map f l) = flat_map (fun a => flat_map g (f a)) l.
Proof.
  induction l as [|a l IH]; simpl; [reflexivity|].
  now rewrite flat_map_app, IH.
Qed.

Lemma process_directory_sections top dp spec allowed walked :
  fst (process_directory match_file top dp spec allowed walked)
  = flat_map render
      (directory_sections match_file top dp spec allowed walked).
Proof.
  unfold process_directory, directory_sections.
  destruct walked as [[root_path ds] files]. simpl.
  destruct (should_process_file match_file root_path dp spec);
    [|reflexivity].
  cbn [negb]. rewrite fst_gather, map_map, flat_map_flat_map.
  rewrite flat_map_concat_map. f_equal.
  apply map_ext. intros file. apply process_file_sections.
Qed.

(** The list [concatenated] holds the three strings of each section, in
    the order of the sections. *)
Lemma concatenated_sections top directory allowed_extensions :
  document match_file top directory allowed_extensions
  = join EmptyString
      (flat_map render
         (sections match_file top directory allowed_extensions)).
Proof.
  unfold document, concatenate_directory, sections.
  destruct (load_gitignore top) as [spec warnings]. cbn [fst].
  set (allowed := match allowed_extensions with
                  | Some l => l | None => DEFAULT_EXTENSIONS end).
  rewrite flat_map_flat_map.
  match goal with
  | |- context [gather ?l] =>
      pose proof (fst_gather l) as E; destruct (gather l) as [concatenated errors]
  end.
  cbn [fst] in *. f_equal. subst concatenated.
  rewrite map_map, flat_map_concat_map. f_equal.
  apply map_ext. intros walked. apply process_directory_sections.
Qed.

(** The returned text does not depend on [output_file], on the file system
    that is written or on the working directory. *)
Lemma returned_document top fs cwd directory output_file allowed_extensions :
  fst (fst (concatenate_directory match_file top fs cwd directory
              output_file allowed_extensions))
  = document match_file top directory allowed_extensions.
Proof.
  unfold document, concatenate_directory.
  destruct (load_gitignore top) as [spec warnings].
  match goal with
  | |- context [gather ?l] => destruct (gather l) as [concatenated errors]
  end.
  destruct output_file as [f|]; [|reflexivity].
  destruct (truthy f); [|reflexivity].
  destruct (Store.open_write_str fs cwd f _); reflexivity.
Qed.

Lemma join_render (l : list (PurePath.t * string)) :
  join EmptyString (flat_map render l)
  = fold_right (fun s acc => (section_text s ++ acc)%string) EmptyString l.
Proof.
  rewrite join_empty. induction l as [|s l IH]; [reflexivity|].
  cbn [flat_map render app fold_right]. rewrite IH.
  unfold section_text. now rewrite !append_assoc.
Qed.

End Sections.

(** ** The sections in relative terms *)

Section RelativeFacts.
Import PyStr StrFacts PurePath WalkFacts.

Variable match_file : PathSpec -> string -> bool.

Lemma os_walk_descend (p : PurePath.t) (n : node) :
  forall rel,
    os_walk (descend p rel) n
    = map (fun w => (descend p (fst (fst w)), snd (fst w), snd w))
          (walk rel n).
Proof.
  induction n as [r|entries IH] using node_rect'; intros rel;
    [reflexivity|].
  cbn [os_walk walk map fst snd]. f_equal.
  rewrite !flat_map_concat_map, concat_map, map_map. f_equal.
  induction entries as [|e entries IHe]; [reflexivity|].
  inversion IH as [|? ? He Hes]; subst.
  cbn [map]. rewrite child_descend, He. f_equal. now apply IHe.
Qed.

Lemma should_process_file_descend (p : PurePath.t) (spec : PathSpec)
    (rel : list string) :
  should_process_file match_file (descend p rel) p spec
  = keep match_file (name p) spec rel.
Proof.
  unfold should_process_file, keep.
  now rewrite relative_to_descend, name_descend.
Qed.

Lemma extension_skipped_child allowed (p q : PurePath.t) (x : string) :
  extension_skipped allowed (child p x) = extension_skipped allowed (child q x).
Proof. unfold extension_skipped. now rewrite (suffix_child p q). Qed.

Lemma file_section_descend top (p : PurePath.t) spec allowed rel file :
  file_section match_file top p spec allowed (descend p rel) file
  = rel_file_section match_file (name p) top spec allowed rel file.
Proof.
  unfold file_section, rel_file_section.
  rewrite child_descend, should_process_file_descend, relative_to_descend.
  rewrite <- child_descend.
  rewrite (extension_skipped_child allowed _ (mk EmptyString []) file).
  reflexivity.
Qed.

Lemma directory_sections_descend top (p : PurePath.t) spec allowed w :
  directory_sections match_file top p spec allowed
    (descend p (fst (fst w)), snd (fst w), snd w)
  = rel_directory_sections match_file (name p) top spec allowed w.
Proof.
  unfold directory_sections, rel_directory_sections. cbn [fst snd].
  rewrite should_process_file_descend.
  destruct (keep match_file (name p) spec (fst (fst w))); [|reflexivity].
  apply flat_map_ext. intros file. apply file_section_descend.
Qed.

(** Of [directory] only the name of its path enters the sections. *)
Lemma sections_relative top directory allowed_extensions :
  sections match_file top directory allowed_extensions
  = rel_sections match_file (name (Path directory)) top
      (match allowed_extensions with
       | None => DEFAULT_EXTENSIONS
       | Some l => l
       end).
Proof.
  unfold sections, rel_sections.
  rewrite <- (descend_nil (Path directory)) at 2.
  rewrite os_walk_descend, !flat_map_concat_map, map_map. f_equal.
  apply map_ext. intros w. apply directory_sections_descend.
Qed.

End RelativeFacts.

(** ** The filters on concrete directories *)

(** C2: on a directory that holds [.cache/top.py] and [.cache/pkg/mod.py]
    the hidden directory [.cache] fails the filter and its own file is
    left out, but the walk still enters [.cache/pkg], whose file appears
    in the document. *)
Theorem hidden_directory_is_descended :
  should_process_file GitWildMatch.match_file
    (PurePath.descend (PurePath.Path "proj") [".cache"])
    (PurePath.Path "proj") (fst (load_gitignore Examples.hidden_tree))
  = false
  /\ document GitWildMatch.match_file Examples.hidden_tree "proj" None
     = (MARKER ++ ".cache/pkg/mod.py" ++ PyStr.nl ++ "x = 1" ++ PyStr.nl)%string.
Proof. split; vm_compute; reflexivity. Qed.

(** C3, as stated, fails: when the listing of the directory gives [b]
    before [a], the section of [b/x.py] comes before the section of
    [a/y.py]. *)
Lemma sections_not_sorted_by_directory :
  map (fun s => PurePath.str (fst s))
      (sections GitWildMatch.match_file Examples.unsorted_listing "proj" None)
  = ["b/x.py"; "a/y.py"]
  /\ ~ StronglySorted by_directory
         (map fst (sections GitWildMatch.match_file
                     Examples.unsorted_listing "proj" None)).
Proof.
  split; [vm_compute; reflexivity|].
  intros H.
  assert (E : map fst (sections GitWildMatch.match_file
                         Examples.unsorted_listing "proj" None)
              = [PurePath.mk EmptyString ["b"; "x.py"];
                 PurePath.mk EmptyString ["a"; "y.py"]])
    by (vm_compute; reflexivity).
  rewrite E in H. inversion H as [|? ? _ HF]; subst.
  inversion HF as [|? ? Hab _]; subst.
  vm_compute in Hab. discriminate.
Qed.

(** C4, as stated, fails: with no [allowed_extensions] argument a file
    named [notes.txt] is filtered out, while the empty list lets it
    through. *)
Lemma absent_extension_list_still_filters :
  document GitWildMatch.match_file Examples.notes_tree "proj" None
  = EmptyString
  /\ document GitWildMatch.match_file Examples.notes_tree "proj" (Some [])
     = (MARKER ++ "notes.txt" ++ PyStr.nl ++ "hello" ++ PyStr.nl)%string.
Proof. split; vm_compute; reflexivity. Qed.

(** C9, as stated, fails: when the name of the directory itself starts
    with a dot, the walk passes over the directory and the document is
    empty; it is empty as well when [a.py] cannot be read as text. *)
Lemma hidden_root_gives_empty_document :
  document GitWildMatch.match_file Examples.three_files ".proj"
    (Some [".py"])
  = EmptyString
  /\ document GitWildMatch.match_file Examples.three_files_binary "proj"
       (Some [".py"])
     = EmptyString.
Proof. split; vm_compute; reflexivity. Qed.

Lemma Permutation_three {A} (a b c : A) (l : list A) :
  Permutation l [a; b; c] ->
  l = [a; b; c] \/ l = [a; c; b] \/ l = [b; a; c]
  \/ l = [b; c; a] \/ l = [c; a; b] \/ l = [c; b; a].
Proof.
  intros H. destruct l as [|x l].
  - apply Permutation_nil in H. discriminate.
  - assert (Hx : In x [a; b; c])
      by (apply (Permutation_in _ H); now left).
    destruct Hx as [<-|[<-|[<-|[]]]].
    + apply Permutation_cons_inv, Permutation_sym,
        Permutation_length_2_inv in H.
      destruct H as [->| ->]; tauto.
    + apply (Permutation_cons_app_inv [a] [c]), Permutation_sym,
        Permutation_length_2_inv in H.
      destruct H as [->| ->]; tauto.
    + apply (Permutation_cons_app_inv [a; b] []), Permutation_sym,
        Permutation_length_2_inv in H.
      destruct H as [->| ->]; tauto.
Qed.

Section ThreeFiles.
Import PyStr PurePath.

Variables (base_name ca : string) (rb rh : read_result).
Hypothesis base_shown : startswith "." base_name = false.

Lemma three_files_sections (entries : list (string * node)) :
  Permutation entries
    [("a.py", File (ReadOk ca)); ("b.js", File rb); (".hidden.py", File rh)] ->
  rel_sections GitWildMatch.match_file base_name (Dir entries) [".py"]
  = [(mk EmptyString ["a.py"], ca)].
Proof.
  intros H. apply Permutation_three in H.
  assert (K : forall spec,
             GitWildMatch.match_file spec "." = false ->
             keep GitWildMatch.match_file base_name spec [] = true).
  { intros spec Hs. unfold keep. cbn [last str root parts].
    rewrite base_shown, Hs. reflexivity. }
  destruct H as [->|[->|[->|[->|[->| ->]]]]];
    unfold rel_sections; cbn [walk flat_map app];
    unfold rel_directory_sections at 1; cbn [fst snd];
    (rewrite K by (vm_compute; reflexivity));
    vm_compute; reflexivity.
Qed.

End ThreeFiles.

(** C9, amended: for a directory whose own name does not start with a
    dot and that holds exactly [a.py] (readable), [b.js] and [.hidden.py],
    listed in any order, the allow-list [.py] gives a document of exactly
    one section, for [a.py]; [b.js] is skipped for its extension, and
    [.hidden.py] fails the filter whatever the ignore rules are. *)
Theorem one_section_for_a_py :
  forall (directory ca : string) (rb rh : read_result)
         (entries : list (string * node)),
    PyStr.startswith "." (PurePath.name (PurePath.Path directory)) = false ->
    Permutation entries
      [("a.py", File (ReadOk ca)); ("b.js", File rb);
       (".hidden.py", File rh)] ->
    sections GitWildMatch.match_file (Dir entries) directory (Some [".py"])
    = [(PurePath.mk EmptyString ["a.py"], ca)]
    /\ document GitWildMatch.match_file (Dir entries) directory
         (Some [".py"])
       = (MARKER ++ "a.py" ++ PyStr.nl ++ ca ++ PyStr.nl)%string
    /\ extension_skipped [".py"]
         (PurePath.child (PurePath.Path directory) "b.js") = true
    /\ (forall (match_file : PathSpec -> string -> bool) (spec : PathSpec),
          should_process_file match_file
            (PurePath.child (PurePath.Path directory) ".hidden.py")
            (PurePath.Path directory) spec = false).
Proof.
  intros directory ca rb rh entries Hd Hp.
  assert (E : sections GitWildMatch.match_file (Dir entries) directory
                (Some [".py"])
              = [(PurePath.mk EmptyString ["a.py"], ca)]).
  { rewrite sections_relative.
    exact (three_files_sections _ ca rb rh Hd entries Hp). }
  repeat split.
  - exact E.
  - rewrite concatenated_sections, E. cbn [flat_map render app fst snd].
    rewrite StrFacts.join_empty. cbn [fold_right PurePath.str PurePath.root
      PurePath.parts PyStr.join String.concat].
    now rewrite !StrFacts.append_assoc, StrFacts.append_nil_r.
  - unfold extension_skipped, PurePath.suffix.
    rewrite WalkFacts.name_child. reflexivity.
  - intros match_file spec. unfold should_process_file.
    rewrite WalkFacts.name_child. reflexivity.
Qed.

(** [one_section_for_a_py] on a directory named [proj]. *)
Lemma one_section_for_a_py_witness :
  PyStr.startswith "." (PurePath.name (PurePath.Path "proj")) = false
  /\ document GitWildMatch.match_file Examples.three_files "proj"
       (Some [".py"])
     = (MARKER ++ "a.py" ++ PyStr.nl ++ "print(1)" ++ PyStr.nl)%string.
Proof.
  split; [reflexivity|].
  apply (one_section_for_a_py "proj" "print(1)" (ReadOk "x") (ReadOk "h")
           [Examples.text "a.py" "print(1)"; Examples.text "b.js" "x";
            Examples.text ".hidden.py" "h"]
           eq_refl (Permutation_refl _)).
Defined.

(** ** [sorted] *)

Module SortFacts.

Lemma ascii_compare_refl (a : ascii) : Ascii.compare a a = Eq.
Proof. unfold Ascii.compare. apply BinNat.N.compare_refl. Qed.

Lemma ascii_compare_eq (a b : ascii) : Ascii.compare a b = Eq -> a = b.
Proof. apply Ascii.compare_eq_iff. Qed.

Lemma ascii_compare_lt_trans (a b c : ascii) :
  Ascii.compare a b = Lt -> Ascii.compare b c = Lt -> Ascii.compare a c = Lt.
Proof.
  unfold Ascii.compare. rewrite !BinNat.N.compare_lt_iff.
  apply BinNat.N.lt_trans.
Qed.

(** The order of [String.compare] is transitive. *)
Lemma compare_lt_trans (x y z : string) :
  String.compare x y = Lt -> String.compare y z = Lt ->
  String.compare x z = Lt.
Proof.
  revert y z. induction x as [|a x IH]; intros [|b y] [|c z]; simpl;
    try congruence.
  destruct (Ascii.compare a b) eqn:Eab; try discriminate;
    destruct (Ascii.compare b c) eqn:Ebc; try discriminate; intros H1 H2.
  - apply ascii_compare_eq in Eab, Ebc. subst.
    rewrite ascii_compare_refl. eauto.
  - apply ascii_compare_eq in Eab. subst. now rewrite Ebc.
  - apply ascii_compare_eq in Ebc. subst. now rewrite Eab.
  - now rewrite (ascii_compare_lt_trans _ _ _ Eab Ebc).
Qed.

Lemma leb_cases (x y : string) :
  String.leb x y = true <-> x = y \/ String.compare x y = Lt.
Proof.
  unfold String.leb. destruct (String.compare x y) eqn:E.
  - apply String.compare_eq_iff in E. tauto.
  - tauto.
  - split; [discriminate|]. intros [->|H]; [|discriminate].
    assert (String.compare y y = Eq) as K.
    { clear E. induction y as [|a y IH]; simpl; [reflexivity|].
      now rewrite ascii_compare_refl. }
    congruence.
Qed.

Lemma leb_trans (x y z : string) :
  String.leb x y = true -> String.leb y z = true -> String.leb x z = true.
Proof.
  rewrite !leb_cases. intros [->|H1] [->|H2]; auto.
  right. eapply compare_lt_trans; eassumption.
Qed.

Lemma insert_sorted_perm (x : string) (l : list string) :
  Permutation (insert_sorted x l) (x :: l).
Proof.
  induction l as [|y l IH]; simpl; [apply Permutation_refl|].
  destruct (String.leb x y); [apply Permutation_refl|].
  eapply perm_trans; [apply perm_skip, IH | apply perm_swap].
Qed.

Lemma sorted_perm (l : list string) : Permutation (sorted l) l.
Proof.
  induction l as [|x l IH]; simpl; [constructor|].
  eapply perm_trans; [apply insert_sorted_perm | now apply perm_skip].
Qed.

Lemma in_sorted (x : string) (l : list string) : In x (sorted l) <-> In x l.
Proof.
  split; apply Permutation_in;
    [apply sorted_perm | apply Permutation_sym, sorted_perm].
Qed.



Lemma insert_sorted_sorted (x : string) (l : list string) :
  StronglySorted le l -> StronglySorted le (insert_sorted x l).
Proof.
  induction 1 as [|y l Hs IH Hf]; simpl; [repeat constructor|].
  destruct (String.leb x y) eqn:E.
  - constructor; [now constructor|]. constructor; [exact E|].
    eapply Forall_impl; [|exact Hf]. intros z Hz. eapply leb_trans; eassumption.
  - constructor; [exact IH|].
    apply (Permutation_Forall (Permutation_sym (insert_sorted_perm x l))).
    constructor; [|exact Hf].
    destruct (String.leb_total x y) as [K|K]; [congruence | exact K].
Qed.

Lemma sorted_sorted (l : list string) : StronglySorted le (sorted l).
Proof.
  induction l as [|x l IH]; simpl; [constructor|].
  now apply insert_sorted_sorted.
Qed.

End SortFacts.

(** ** Which files get a section *)

Section Membership.
Import PyStr StrFacts PurePath WalkFacts SortFacts.

Variable match_file : PathSpec -> string -> bool.

Lemma in_file_section top dp spec allowed root_path file s :
  In s (file_section match_file top dp spec allowed root_path file) <->
  should_process_file match_file (child root_path file) dp spec = true
  /\ extension_skipped allowed (child root_path file) = false
  /\ open_read top (parts (relative_to (child root_path file) dp))
     = ReadOk (snd s)
  /\ fst s = relative_to (child root_path file) dp.
Proof.
  unfold file_section.
  destruct (should_process_file match_file _ dp spec);
    [|simpl; intuition discriminate].
  destruct (extension_skipped allowed _); [simpl; intuition discriminate|].
  cbn [andb negb].
  destruct (open_read top _) as [content|exc]; simpl.
  - split.
    + intros [<-|[]]. auto.
    + intros (_ & _ & E & F). left. destruct s as [p c]. simpl in *.
      congruence.
  - intuition discriminate.
Qed.

Lemma in_directory_sections top dp spec allowed walked s :
  In s (directory_sections match_file top dp spec allowed walked) <->
  should_process_file match_file (fst (fst walked)) dp spec = true
  /\ exists file,
       In file (snd walked)
       /\ In s (file_section match_file top dp spec allowed
                  (fst (fst walked)) file).
Proof.
  unfold directory_sections.
  destruct (should_process_file match_file _ dp spec).
  - rewrite in_flat_map. split.
    + intros (file & Hf & Hs). split; [reflexivity|].
      exists file. now rewrite <- in_sorted.
    + intros (_ & file & Hf & Hs). exists file. now rewrite in_sorted.
  - simpl. intuition discriminate.
Qed.

Lemma in_sections top directory allowed_extensions s :
  In s (sections match_file top directory allowed_extensions) <->
  exists walked,
    In walked (os_walk (Path directory) top)
    /\ In s (directory_sections match_file top (Path directory)
               (fst (load_gitignore top))
               (match allowed_extensions with
                | None => DEFAULT_EXTENSIONS
                | Some l => l
                end) walked).
Proof. unfold sections. apply in_flat_map. Qed.

(** Every section holds the text read at its path. *)
Lemma sections_read top directory allowed_extensions s :
  In s (sections match_file top directory allowed_extensions) ->
  open_read top (parts (fst s)) = ReadOk (snd s).
Proof.
  rewrite in_sections. intros (walked & _ & H).
  apply in_directory_sections in H. destruct H as (_ & file & _ & H).
  apply in_file_section in H. destruct H as (_ & _ & E & F).
  now rewrite F.
Qed.

Lemma in_gather_snd {A B} (l : list (list A * list B)) (b : B) :
  In b (snd (gather l)) <-> exists x, In x l /\ In b (snd x).
Proof.
  unfold gather. cbn [snd]. rewrite in_concat. split.
  - intros (bs & Hbs & Hb). apply in_map_iff in Hbs.
    destruct Hbs as (x & <- & Hx). eauto.
  - intros (x & Hx & Hb). exists (snd x). split; [now apply in_map|exact Hb].
Qed.

(** What is printed for the files holds the read errors. *)
Lemma error_logged top fs cwd directory output_file allowed_extensions
    root_path ds files file exc :
  In (root_path, ds, files) (os_walk (Path directory) top) ->
  In file files ->
  should_process_file match_file root_path (Path directory)
    (fst (load_gitignore top)) = true ->
  should_process_file match_file (child root_path file) (Path directory)
    (fst (load_gitignore top)) = true ->
  extension_skipped
    (match allowed_extensions with
     | None => DEFAULT_EXTENSIONS
     | Some l => l
     end) (child root_path file) = false ->
  open_read top (parts (relative_to (child root_path file) (Path directory)))
  = ReadErr exc ->
  In (ErrorProcessing (child root_path file) exc)
     (snd (concatenate_directory match_file top fs cwd directory output_file
             allowed_extensions)).
Proof.
  intros Hw Hf Hr Hp He Ho.
  unfold concatenate_directory.
  destruct (load_gitignore top) as [spec warnings]. cbn [fst] in *.
  set (allowed := match allowed_extensions with
                  | Some l => l | None => DEFAULT_EXTENSIONS end) in *.
  match goal with
  | |- context [gather ?l] =>
      assert (K : In (ErrorProcessing (child root_path file) exc)
                     (snd (gather l)));
      [|destruct (gather l) as [concatenated errors]]
  end.
  - apply in_gather_snd. eexists. split; [apply in_map, Hw|].
    unfold process_directory. rewrite Hr. cbn [negb].
    apply in_gather_snd. eexists. split.
    + apply in_map. apply in_sorted. exact Hf.
    + unfold process_file. rewrite Hp, He. cbn [negb]. rewrite Ho.
      now left.
  - cbn [snd] in K.
    assert (In (ErrorProcessing (child root_path file) exc)
               (warnings ++ errors))
      by (apply in_or_app; now right).
    destruct output_file as [f|]; [|assumption].
    destruct (truthy f); [|assumption].
    destruct (Store.open_write_str fs cwd f _); cbn [snd];
      rewrite app_assoc; apply in_or_app; now left.
Qed.

Lemma write_failure_logged top fs cwd directory f allowed_extensions :
  truthy f = true ->
  Store.open_write_str fs cwd f
    (document match_file top directory allowed_extensions) = None ->
  let result :=
    concatenate_directory match_file top fs cwd directory (Some f)
      allowed_extensions in
  snd (fst result) = fs /\ In ErrorWritingOutput (snd result).
Proof.
  intros Hf Hw. unfold document in Hw.
  unfold concatenate_directory in *.
  destruct (load_gitignore top) as [spec warnings].
  match goal with
  | |- context [gather ?l] => destruct (gather l) as [concatenated errors]
  end.
  cbn [fst] in Hw. cbv zeta. rewrite Hf, Hw. cbn [fst snd]. split;
    [reflexivity|].
  rewrite app_assoc. apply in_or_app. right. now left.
Qed.

End Membership.

(** C8: [concatenate_directory] returns the whole document, the text of
    all sections, whatever [output_file] is; when writing [output_file]
    fails the file system is left as it was and the failure is printed;
    and for a file of a walked directory that passes the filters, a
    successful read gives the file its section whatever happens to other
    files, while a failing read gives it no section and prints the
    error. *)
Theorem concatenate_returns_document :
  forall (match_file : PathSpec -> string -> bool) (top : node)
         (fs : Store.t) (cwd : Store.loc) (directory : string)
         (output_file : option string)
         (allowed_extensions : option (list string)),
    let result :=
      concatenate_directory match_file top fs cwd directory output_file
        allowed_extensions in
    let doc := document match_file top directory allowed_extensions in
    let secs := sections match_file top directory allowed_extensions in
    let allowed :=
      match allowed_extensions with
      | None => DEFAULT_EXTENSIONS
      | Some l => l
      end in
    let spec := fst (load_gitignore top) in
    let dp := PurePath.Path directory in
    fst (fst result) = doc
    /\ doc = PyStr.join EmptyString (flat_map render secs)
    /\ (forall f,
          output_file = Some f -> PyStr.truthy f = true ->
          Store.open_write_str fs cwd f doc = None ->
          snd (fst result) = fs /\ In ErrorWritingOutput (snd result))
    /\ (forall root_path ds files file,
          In (root_path, ds, files) (os_walk dp top) -> In file files ->
          should_process_file match_file root_path dp spec = true ->
          should_process_file match_file (PurePath.child root_path file)
            dp spec = true ->
          extension_skipped allowed (PurePath.child root_path file) = false ->
          let rel :=
            PurePath.relative_to (PurePath.child root_path file) dp in
          (forall content,
              open_read top (PurePath.parts rel) = ReadOk content ->
              In (rel, content) secs)
          /\ (forall exc,
                open_read top (PurePath.parts rel) = ReadErr exc ->
                ~ In rel (map fst secs)
                /\ In (ErrorProcessing (PurePath.child root_path file) exc)
                      (snd result))).
Proof.
  intros match_file top fs cwd directory output_file allowed_extensions
    result doc secs allowed spec dp.
  split; [apply returned_document|].
  split; [apply concatenated_sections|].
  split.
  - intros f -> Hf Hw. now apply write_failure_logged.
  - intros root_path ds files file Hw Hf Hr Hp He rel. split.
    + intros content Ho. apply in_sections.
      exists (root_path, ds, files). split; [exact Hw|].
      apply in_directory_sections. split; [exact Hr|].
      exists file. split; [exact Hf|].
      apply in_file_section. auto.
    + intros exc Ho. split.
      * intros Hin. apply in_map_iff in Hin. destruct Hin as (s & Es & Hs).
        apply sections_read in Hs. rewrite Es in Hs.
        fold rel in Hs. congruence.
      * now apply (error_logged match_file top fs cwd directory output_file
                     allowed_extensions root_path ds files file exc).
Qed.

(** [concatenate_returns_document] on a directory with an unreadable file
    and an output file in a directory that does not exist. *)
Lemma concatenate_returns_document_witness :
  let result :=
    concatenate_directory GitWildMatch.match_file Examples.unreadable_tree
      Examples.empty_fs ["home"] "proj" (Some "missing/doc.txt") None in
  fst (fst result)
  = (MARKER ++ "good.py" ++ PyStr.nl ++ "ok" ++ PyStr.nl)%string
  /\ In ErrorWritingOutput (snd result)
  /\ In (PurePath.mk EmptyString ["good.py"], "ok")
        (sections GitWildMatch.match_file Examples.unreadable_tree "proj" None)
  /\ In (ErrorProcessing (PurePath.mk EmptyString ["proj"; "bad.py"])
           "UnicodeDecodeError") (snd result).
Proof.
  intros result. subst result.
  destruct (concatenate_returns_document GitWildMatch.match_file
              Examples.unreadable_tree Examples.empty_fs ["home"] "proj"
              (Some "missing/doc.txt") None) as (E1 & E2 & Hw & Hf).
  split; [rewrite E1; vm_compute; reflexivity|].
  split; [apply (Hw "missing/doc.txt" eq_refl eq_refl); vm_compute;
          reflexivity|].
  assert (Hwalk : In (PurePath.Path "proj", @nil string, ["bad.py"; "good.py"])
                     (os_walk (PurePath.Path "proj") Examples.unreadable_tree))
    by (vm_compute; auto).
  assert (Hroot : should_process_file GitWildMatch.match_file
                    (PurePath.Path "proj") (PurePath.Path "proj")
                    (fst (load_gitignore Examples.unreadable_tree)) = true)
    by (vm_compute; reflexivity).
  split.
  - assert (Hin : In "good.py" ["bad.py"; "good.py"]) by (simpl; auto).
    assert (Hfile : should_process_file GitWildMatch.match_file
                      (PurePath.child (PurePath.Path "proj") "good.py")
                      (PurePath.Path "proj")
                      (fst (load_gitignore Examples.unreadable_tree)) = true)
      by (vm_compute; reflexivity).
    assert (Hext : extension_skipped DEFAULT_EXTENSIONS
                     (PurePath.child (PurePath.Path "proj") "good.py")
                   = false)
      by (vm_compute; reflexivity).
    destruct (Hf _ _ _ _ Hwalk Hin Hroot Hfile Hext) as [Hok _].
    assert (Hread : open_read Examples.unreadable_tree
                      (PurePath.parts
                         (PurePath.relative_to
                            (PurePath.child (PurePath.Path "proj") "good.py")
                            (PurePath.Path "proj"))) = ReadOk "ok")
      by (vm_compute; reflexivity).
    pose proof (Hok "ok" Hread) as R. vm_compute in R. vm_compute. exact R.
  - assert (Hin : In "bad.py" ["bad.py"; "good.py"]) by (simpl; auto).
    assert (Hfile : should_process_file GitWildMatch.match_file
                      (PurePath.child (PurePath.Path "proj") "bad.py")
                      (PurePath.Path "proj")
                      (fst (load_gitignore Examples.unreadable_tree)) = true)
      by (vm_compute; reflexivity).
    assert (Hext : extension_skipped DEFAULT_EXTENSIONS
                     (PurePath.child (PurePath.Path "proj") "bad.py")
                   = false)
      by (vm_compute; reflexivity).
    destruct (Hf _ _ _ _ Hwalk Hin Hroot Hfile Hext) as [_ Herr].
    assert (Hread : open_read Examples.unreadable_tree
                      (PurePath.parts
                         (PurePath.relative_to
                            (PurePath.child (PurePath.Path "proj") "bad.py")
                            (PurePath.Path "proj")))
                    = ReadErr "UnicodeDecodeError")
      by (vm_compute; reflexivity).
    destruct (Herr _ Hread) as [_ R]. vm_compute in R. vm_compute. exact R.
Defined.

(** ** The order of the sections *)

Section Order.
Import PyStr StrFacts PurePath WalkFacts SortFacts.

Variable match_file : PathSpec -> string -> bool.

Lemma rel_file_section_cases base_name top spec allowed rel file :
  rel_file_section match_file base_name top spec allowed rel file = []
  \/ exists content,
       open_read top (rel ++ [file]) = ReadOk content
       /\ rel_file_section match_file base_name top spec allowed rel file
          = [(mk EmptyString (rel ++ [file]), content)].
Proof.
  unfold rel_file_section.
  destruct (_ && _); [|now left].
  destruct (open_read top _) as [content|exc]; [|now left].
  right. now exists content.
Qed.

Lemma name_rel (rel : list string) (file : string) :
  name (mk EmptyString (rel ++ [file])) = file.
Proof. unfold name. simpl. apply last_last. Qed.

Lemma rel_files_at base_name top spec allowed rel (files : list string) p :
  In p (map fst
          (flat_map (rel_file_section match_file base_name top spec allowed
                       rel) files)) ->
  exists file, In file files /\ p = mk EmptyString (rel ++ [file]).
Proof.
  intros Hp. apply in_map_iff in Hp. destruct Hp as (s & <- & Hs).
  apply in_flat_map in Hs. destruct Hs as (file & Hf & Hs).
  exists file. split; [exact Hf|].
  destruct (rel_file_section_cases base_name top spec allowed rel file)
    as [E|(content & _ & E)]; rewrite E in Hs.
  - destruct Hs.
  - destruct Hs as [<-|[]]. reflexivity.
Qed.

Lemma rel_files_sorted base_name top spec allowed rel (files : list string) :
  StronglySorted le files ->
  StronglySorted by_name
    (map fst
       (flat_map (rel_file_section match_file base_name top spec allowed rel)
          files)).
Proof.
  induction 1 as [|file files Hs IH Hf]; [constructor|].
  cbn [flat_map]. rewrite map_app.
  destruct (rel_file_section_cases base_name top spec allowed rel file)
    as [E|(content & _ & E)]; rewrite E; cbn [map app fst]; [exact IH|].
  constructor; [exact IH|].
  apply Forall_forall. intros p Hp. apply rel_files_at in Hp.
  destruct Hp as (g & Hg & ->). unfold by_name. rewrite !name_rel.
  rewrite Forall_forall in Hf. now apply Hf.
Qed.

End Order.

(** C3, amended: the document is the text of its sections in their
    order, and the sections follow the walk.  Every walked directory,
    in the order in which [os.walk] yields them (a directory before its
    subdirectories, these in the order of the listing, which is not
    sorted), contributes one run of sections, all for files of that
    directory, and inside the run the file names ascend. *)
Theorem sections_follow_walk_order :
  forall (match_file : PathSpec -> string -> bool) (top : node)
         (directory : string) (allowed_extensions : option (list string)),
  exists blocks : list (list PurePath.t),
    document match_file top directory allowed_extensions
    = PyStr.join EmptyString
        (flat_map render
           (sections match_file top directory allowed_extensions))
    /\ map fst (sections match_file top directory allowed_extensions)
       = concat blocks
    /\ Forall2
         (fun walked block =>
            StronglySorted by_name block
            /\ Forall
                 (fun p =>
                    exists file,
                      In file (snd walked)
                      /\ p = PurePath.relative_to
                               (PurePath.child (fst (fst walked)) file)
                               (PurePath.Path directory))
                 block)
         (os_walk (PurePath.Path directory) top) blocks.
Proof.
  intros match_file top directory allowed_extensions.
  set (allowed := match allowed_extensions with
                  | None => DEFAULT_EXTENSIONS | Some l => l end).
  set (bn := PurePath.name (PurePath.Path directory)).
  set (spec := fst (load_gitignore top)).
  exists (map (fun w => map fst (rel_directory_sections match_file bn top
                                   spec allowed w))
              (walk [] top)).
  split; [apply concatenated_sections|].
  split.
  - rewrite sections_relative. unfold rel_sections.
    fold allowed bn spec. rewrite flat_map_concat_map, concat_map, map_map.
    reflexivity.
  - pose proof (os_walk_descend (PurePath.Path directory) top []) as E.
    rewrite WalkFacts.descend_nil in E. rewrite E. clear E.
    induction (walk [] top) as [|w ws IH]; [constructor|].
    cbn [map]. constructor; [|exact IH].
    unfold rel_directory_sections. cbn [fst snd].
    destruct (keep match_file bn spec (fst (fst w)));
      [|split; constructor].
    split.
    + apply rel_files_sorted, SortFacts.sorted_sorted.
    + apply Forall_forall. intros p Hp. apply rel_files_at in Hp.
      destruct Hp as (file & Hf & ->). exists file.
      split; [now apply SortFacts.in_sorted|].
      now rewrite WalkFacts.child_descend, WalkFacts.relative_to_descend.
Qed.

(** ** The ignore rules *)

Module MatchFacts.
Import PyStr StrFacts PurePath PathFacts GitWildMatch.








(** *** Paths and their components *)

Lemma join_cons (sep a : string) (l : list string) :
  l <> [] -> join sep (a :: l) = (a ++ sep ++ join sep l)%string.
Proof. destruct l; [congruence | reflexivity]. Qed.

Lemma split_join (rel : list string) :
  rel <> [] -> Forall (absent "/") rel -> split "/" (join "/" rel) = rel.
Proof.
  induction rel as [|a rel IH]; [congruence|]. intros _ H.
  inversion H as [|? ? Ha Hrel]; subst.
  destruct rel as [|b rel].
  - simpl. now apply split_slash_single.
  - rewrite join_cons by discriminate.
    rewrite split_slash_cons by assumption.
    f_equal. apply IH; [discriminate | assumption].
Qed.


Lemma str_relative (rel : list string) :
  rel <> [] -> str (mk EmptyString rel) = join "/" rel.
Proof. destruct rel; [congruence | reflexivity]. Qed.

Lemma plain_no_slash (rel : list string) :
  Forall plain_name rel -> Forall (absent "/") rel.
Proof. apply Forall_impl. intros a (_ & _ & _ & H). exact H. Qed.

(** *** The default patterns *)






End MatchFacts.

Section IgnoredFiles.
Import PyStr PurePath.

Variable match_file : PathSpec -> string -> bool.


End IgnoredFiles.


(** ** The round trip: the document is split into its chunks *)

Section SplitDocument.
Import PyStr StrFacts PurePath.

Lemma stops_document (l : list (PurePath.t * string)) :
  stops LF
    (fold_right (fun s acc => (section_text s ++ acc)%string) EmptyString l).
Proof. destruct l; simpl; [exact I | reflexivity]. Qed.

Lemma visible_marker_no_LF : absent LF "// File: ".
Proof. simpl. intuition discriminate. Qed.

Lemma clear_of_nl_end (r : string) : stops LF r -> clear_of MARKER nl r.
Proof.
  intros Hr. split; [|exact I].
  destruct r as [|c r]; [reflexivity|]. simpl in Hr. subst c. reflexivity.
Qed.

Lemma clear_of_chunk (s : PurePath.t * string) (r : string) :
  shaped s -> stops LF r -> clear_of MARKER (chunk_of s) r.
Proof.
  intros [Hp [Hc Hs]] Hr. unfold chunk_of.
  apply clear_of_app.
  { rewrite MARKER_eq. now apply clear_of_absent. }
  apply clear_of_app.
  { split; [|exact I].
    destruct (String.prefix MARKER (nl ++ (snd s ++ nl) ++ r)) eqn:E;
      [exfalso|exact E].
    rewrite MARKER_eq in E. unfold nl in E at 1.
    change (String LF EmptyString ++ (snd s ++ nl) ++ r)%string
      with (String LF ((snd s ++ nl) ++ r)) in E.
    rewrite prefix_cons in E. apply andb_true_iff in E. destruct E as [_ E].
    rewrite append_assoc in E.
    apply (prefix_before LF) in E;
      [|exact visible_marker_no_LF|reflexivity].
    unfold startswith in Hs. congruence. }
  apply clear_of_app.
  - rewrite MARKER_eq in *.
    apply clear_of_contains; [exact visible_marker_no_LF|reflexivity|exact Hc].
  - now apply clear_of_nl_end.
Qed.

(** Splitting the document at the marker gives an empty first piece and
    then the chunks of the sections. *)
Lemma split_document (l : list (PurePath.t * string)) :
  Forall shaped l ->
  split MARKER
    (fold_right (fun s acc => (section_text s ++ acc)%string) EmptyString l)
  = match l with
    | [] => [EmptyString]
    | _ :: _ => EmptyString :: map chunk_of l
    end.
Proof.
  induction 1 as [|s l Hs Hl IH]; [reflexivity|].
  cbn [fold_right]. unfold section_text at 1.
  set (rest := fold_right _ _ l) in *.
  replace (MARKER ++ str (fst s) ++ nl ++ snd s ++ nl)%string
    with (MARKER ++ chunk_of s)%string by reflexivity.
  rewrite append_assoc. unfold split in *. rewrite MARKER_eq in *.
  rewrite split_scan_sep by discriminate. cbn [option_map]. f_equal.
  rewrite split_scan_clear;
    [|discriminate
     |rewrite <- MARKER_eq; apply clear_of_chunk;
      [exact Hs | apply stops_document]].
  rewrite IH. destruct l; cbn [prepend map]; now rewrite append_nil_r.
Qed.

Lemma chunks_of_document (l : list (PurePath.t * string)) :
  Forall shaped l ->
  let files :=
    split MARKER
      (fold_right (fun s acc => (section_text s ++ acc)%string)
         EmptyString l) in
  (if strip (hd EmptyString files) =? EmptyString then tl files else files)
  = map chunk_of l.
Proof.
  intros H files. unfold files. rewrite (split_document l H).
  destruct l; reflexivity.
Qed.

End SplitDocument.

(** ** The round trip: the chunks are written *)

Module WriteFacts.
Import PyStr StrFacts PurePath PathFacts Store StoreFacts MatchFacts.

Lemma app_neq_longer {A} (l : list A) (x : A) (m : list A) : l <> l ++ x :: m.
Proof.
  intros E. apply (f_equal (@List.length A)) in E.
  rewrite length_app in E. simpl in E. lia.
Qed.

Lemma mkdir_from_ok (ps : list string) :
  forall (s : t) (l : loc),
    Forall (fun c => c <> "..") ps ->
    (forall pre suf r,
        pre <> [] -> ps = pre ++ suf -> get s (l ++ pre) <> Some (EFile r)) ->
    exists s',
      mkdir_from s l ps = (s', true)
      /\ (forall pre suf,
            pre <> [] -> ps = pre ++ suf -> get s' (l ++ pre) = Some EDir)
      /\ (forall q,
            get s' q = get s q
            \/ (get s q = None /\ get s' q = Some EDir
                /\ exists pre suf,
                     pre <> [] /\ ps = pre ++ suf /\ q = l ++ pre)).
Proof.
  induction ps as [|c ps IH]; intros s l Hdd Hfree.
  - exists s. split; [reflexivity|]. split.
    + intros pre suf Hne E. destruct pre; [congruence | discriminate].
    + intros q. now left.
  - inversion Hdd as [|? ? Hc Hps]; subst.
    assert (H1 : forall r, get s (l ++ [c]) <> Some (EFile r))
      by (intros r; apply (Hfree [c] ps r); [discriminate | reflexivity]).
    rewrite (mkdir_from_one s l c ps Hc H1).
    set (s1 := ensure_dir s (l ++ [c])).
    assert (Hs1 : get s1 (l ++ [c]) = Some EDir)
      by (apply get_ensure_dir; exact H1).
    destruct (IH s1 (l ++ [c]) Hps) as (s' & E & Hdirs & Hrel).
    { intros pre suf r Hne Eps.
      assert (K : (l ++ [c]) ++ pre <> l ++ [c]).
      { destruct pre as [|x pre]; [congruence|].
        intros K. symmetry in K. revert K. apply app_neq_longer. }
      unfold s1. rewrite (get_ensure_dir_other s _ _ K), <- app_assoc.
      apply (Hfree (c :: pre) suf r); [discriminate|].
      simpl. now rewrite Eps. }
    exists s'. split; [exact E|]. split.
    + intros pre suf Hne Eps. destruct pre as [|x pre]; [congruence|].
      simpl in Eps. injection Eps as Ex Eps. subst x.
      destruct pre as [|y pre].
      * destruct (Hrel (l ++ [c])) as [K|(K & _)]; congruence.
      * change (c :: y :: pre) with ([c] ++ y :: pre). rewrite app_assoc.
        apply (Hdirs (y :: pre) suf); [discriminate | exact Eps].
    + intros q. destruct (Hrel q) as [K|(K1 & K2 & pre & suf & Hne & Eps & Eq)].
      * destruct (list_eq_dec string_dec q (l ++ [c])) as [->|Hq].
        -- unfold s1, ensure_dir in K, Hs1.
           destruct (get s (l ++ [c])) as [e|] eqn:G.
           ++ left. congruence.
           ++ right. split; [reflexivity|]. split; [congruence|].
              exists [c], ps. repeat split. discriminate.
        -- left. unfold s1 in K. now rewrite (get_ensure_dir_other s _ _ Hq) in K.
      * right. assert (Hq : q <> l ++ [c]).
        { intros ->. congruence. }
        unfold s1 in K1. rewrite (get_ensure_dir_other s _ _ Hq) in K1.
        split; [exact K1|]. split; [exact K2|].
        exists (c :: pre), suf. split; [discriminate|]. split.
        -- simpl. now rewrite Eps.
        -- rewrite Eq, <- app_assoc. reflexivity.
Qed.

Lemma resolve_dirs_ok (ps : list string) :
  forall (s : t) (l : loc),
    Forall (fun c => c <> "..") ps ->
    (forall pre suf,
        pre <> [] -> ps = pre ++ suf -> get s (l ++ pre) = Some EDir) ->
    resolve_dirs s l ps = Some (l ++ ps).
Proof.
  induction ps as [|c ps IH]; intros s l Hdd Hdirs.
  - simpl. now rewrite app_nil_r.
  - inversion Hdd as [|? ? Hc Hps]; subst.
    cbn [resolve_dirs]. rewrite (step_name _ _ Hc).
    rewrite (Hdirs [c] ps) by (discriminate || reflexivity).
    rewrite (IH s (l ++ [c]) Hps).
    + now rewrite <- app_assoc.
    + intros pre suf Hne Eps. rewrite <- app_assoc.
      apply (Hdirs (c :: pre) suf); [discriminate|]. simpl. now rewrite Eps.
Qed.

(** *** The path of a chunk *)

Lemma absent_join (c : ascii) (rel : list string) :
  c <> "/"%char -> Forall (absent c) rel -> absent c (join "/" rel).
Proof.
  intros Hc. induction 1 as [|a rel Ha Hrel IH]; [exact I|].
  destruct rel as [|b rel]; [exact Ha|].
  rewrite join_cons by discriminate.
  apply absent_app. split; [exact Ha|].
  split; [congruence | exact IH].
Qed.

Lemma names_ok_plain (rel : list string) :
  Forall name_ok rel -> Forall plain_name rel.
Proof. apply Forall_impl. now intros a [H _]. Qed.

Lemma names_ok_no_LF (rel : list string) :
  Forall name_ok rel -> absent LF (join "/" rel).
Proof.
  intros H. apply absent_join; [discriminate|].
  revert H. apply Forall_impl. now intros a [_ H].
Qed.

Lemma names_no_dotdot (rel : list string) :
  Forall name_ok rel -> Forall (fun c => c <> "..") rel.
Proof. apply Forall_impl. now intros a [(_ & _ & H & _) _]. Qed.

Lemma filter_keep_plain (rel : list string) :
  Forall plain_name rel -> filter keep_part rel = rel.
Proof.
  induction 1 as [|a rel Ha Hrel IH]; [reflexivity|].
  simpl. now rewrite (keep_part_plain a Ha), IH.
Qed.

Lemma leading_root_join (rel : list string) :
  Forall plain_name rel -> leading_root (join "/" rel) = EmptyString.
Proof.
  destruct rel as [|a rel]; [reflexivity|]. intros H.
  inversion H as [|? ? Ha _]; subst.
  destruct Ha as (H0 & _ & _ & Hs).
  destruct a as [|c a]; [congruence|]. destruct Hs as [Hc _].
  assert (K : forall t, leading_root (String c t) = EmptyString).
  { intros t. destruct c as [[] [] [] [] [] [] [] []]; try reflexivity.
    now contradiction Hc. }
  destruct rel as [|b rel]; [apply K|].
  rewrite join_cons by discriminate. apply K.
Qed.

Lemma Path_join (rel : list string) :
  rel <> [] -> Forall plain_name rel ->
  Path (join "/" rel) = mk EmptyString rel.
Proof.
  intros Hne H. unfold Path.
  rewrite (leading_root_join rel H).
  rewrite (split_join rel Hne (plain_no_slash rel H)).
  now rewrite (filter_keep_plain rel H).
Qed.

Lemma truediv_join (out : string) (rel : list string) :
  rel <> [] -> Forall plain_name rel ->
  truediv (Path out) (join "/" rel)
  = mk (root (Path out)) (parts (Path out) ++ rel).
Proof.
  intros Hne H. unfold truediv. rewrite (Path_join rel Hne H). reflexivity.
Qed.

End WriteFacts.

Section WriteAll.
Import PyStr StrFacts PurePath PathFacts Store StoreFacts MatchFacts WriteFacts.

Variables (cwd : loc) (out : string).

Let start : loc := Store.start cwd (Path out).
Let outparts : list string := parts (Path out).

Hypothesis out_plain : Forall (fun c => c <> "..") outparts.

Lemma prefix_of_output (fs : t) (done : list (list string * string))
    (dir : list string) (file : string) (c : string) :
  writes_ok (done ++ [(dir ++ [file], c)]) ->
  written_inv start outparts fs done ->
  forall pre suf r,
    pre <> [] -> outparts ++ dir = pre ++ suf ->
    get fs (start ++ pre) <> Some (EFile r).
Proof.
  intros (W1 & W2 & W3) (J1 & J2 & J3 & J4) pre suf r Hne E.
  apply app_eq_app in E. destruct E as (l & [[E1 E2]|[E1 E2]]).
  - now apply (J4 pre l r).
  - subst pre. destruct l as [|x l].
    + rewrite app_nil_r. apply (J4 outparts [] r).
      * now rewrite app_nil_r in Hne.
      * now rewrite app_nil_r.
    + intros G.
      destruct (J1 (x :: l) r ltac:(discriminate) G) as (c' & Hin & _).
      assert (K : exists y more, dir ++ [file] = (x :: l) ++ y :: more).
      { rewrite E2. destruct suf as [|y suf].
        - exists file, []. now rewrite app_nil_r.
        - exists y, (suf ++ [file]). now rewrite <- app_assoc. }
      destruct K as (y & more & K).
      apply (W3 (x :: l) c' (dir ++ [file]) c y more).
      * apply in_or_app. now left.
      * apply in_or_app. right. now left.
      * exact K.
Qed.

Lemma write_one (fs : t) (done : list (list string * string))
    (rel : list string) (c : string) :
  writes_ok (done ++ [(rel, c)]) ->
  written_inv start outparts fs done ->
  exists fs2,
    (forall rest,
        write_chunks cwd out (chunk_at (rel, c) :: rest) fs
        = let '(fs3, log, res) := write_chunks cwd out rest fs2 in
          (fs3, Written (mk (root (Path out)) (outparts ++ rel)) :: log, res))
    /\ written_inv start outparts fs2 (done ++ [(rel, c)]).
Proof.
  intros Hok Hinv.
  pose proof Hok as (W1 & W2 & W3). pose proof Hinv as (J1 & J2 & J3 & J4).
  destruct (W1 rel c) as [Hne Hnames];
    [apply in_or_app; right; now left|].
  destruct (exists_last Hne) as (dir & file & ->).
  assert (Hdir : Forall name_ok dir /\ name_ok file).
  { apply Forall_app in Hnames. destruct Hnames as [Hd Hf].
    inversion Hf; subst. auto. }
  destruct Hdir as [Hdir Hfile].
  (* the directories *)
  destruct (mkdir_from_ok (outparts ++ dir) fs start) as (fs1 & Emk & Hdirs & Hrel).
  { apply Forall_app. split; [exact out_plain | now apply names_no_dotdot]. }
  { now apply (prefix_of_output fs done dir file c). }
  set (q := start ++ outparts ++ dir ++ [file]).
  assert (Hq : get fs1 q <> Some EDir).
  { intros G. destruct (Hrel q) as [K|(_ & _ & pre & suf & Hp & E1 & E2)].
    - rewrite K in G.
      destruct (J3 (dir ++ [file]) ltac:(now destruct dir) G)
        as (rel' & c' & x & more & Hin & E).
      apply (W3 (dir ++ [file]) c rel' c' x more).
      + apply in_or_app. right. now left.
      + apply in_or_app. now left.
      + exact E.
    - unfold q in E2. apply app_inv_head in E2.
      apply (f_equal (@List.length string)) in E1, E2.
      rewrite !length_app in E1, E2. simpl in E2. lia. }
  exists (set fs1 q (EFile (ReadOk (rstrip c)))). split.
  - intros rest. unfold chunk_at. cbn [fst snd].
    rewrite write_chunks_cons by (now apply names_ok_no_LF).
    rewrite truediv_join by (assumption || now apply names_ok_plain).
    cbv zeta. unfold mkdir_parents, parent. cbn [root parts].
    fold outparts.
    replace (removelast (outparts ++ dir ++ [file])) with (outparts ++ dir)
      by (rewrite app_assoc; now rewrite removelast_last).
    change (Store.start cwd {| root := root (Path out);
                               parts := outparts ++ dir |}) with start.
    rewrite Emk.
    unfold open_write. cbn [root parts].
    replace (rev (outparts ++ dir ++ [file]))
      with (file :: rev (outparts ++ dir))
      by (rewrite app_assoc; now rewrite rev_unit).
    rewrite rev_involutive.
    change (Store.start cwd {| root := root (Path out);
                               parts := outparts ++ dir ++ [file] |})
      with start.
    rewrite (resolve_dirs_ok (outparts ++ dir) fs1 start);
      [|apply Forall_app; split; [exact out_plain | now apply names_no_dotdot]
       |exact Hdirs].
    destruct Hfile as [(_ & _ & Hdd & _) _].
    apply String.eqb_neq in Hdd. rewrite Hdd.
    replace ((start ++ outparts ++ dir) ++ [file]) with q
      by (unfold q; now rewrite <- !app_assoc).
    rewrite rstrip_app_nl.
    destruct (get fs1 q) as [[r|]|] eqn:G; [reflexivity | congruence | reflexivity].
  - (* the invariant *)
    assert (Hqne : q <> []).
    { unfold q. destruct start, outparts, dir; discriminate. }
    assert (Hloc : forall rel0, start ++ outparts ++ rel0 = q ->
                                rel0 = dir ++ [file]).
    { intros rel0 E. unfold q in E. now apply app_inv_head, app_inv_head in E. }
    assert (Hold : forall l e, get fs1 l = Some (EFile e) ->
                               get fs l = Some (EFile e)).
    { intros l e G. destruct (Hrel l) as [K|(_ & K & _)]; congruence. }
    repeat split.
    + intros rel0 r Hr G.
      destruct (list_eq_dec (list_eq_dec string_dec)
                  [start ++ outparts ++ rel0] [q]) as [E|E].
      * injection E as E. rewrite E, (get_set_same fs1 q _ Hqne) in G.
        injection G as <-. exists c. split; [|reflexivity].
        apply in_or_app. right. left. now rewrite (Hloc rel0 E).
      * assert (E' : start ++ outparts ++ rel0 <> q) by congruence.
        rewrite (get_set_other fs1 q _ _ E') in G.
        destruct (J1 rel0 r Hr (Hold _ _ G)) as (c0 & Hin & ->).
        exists c0. split; [apply in_or_app; now left | reflexivity].
    + intros rel0 c0 Hin.
      destruct (list_eq_dec (list_eq_dec string_dec)
                  [start ++ outparts ++ rel0] [q]) as [E|E].
      * injection E as E. rewrite E, (get_set_same fs1 q _ Hqne).
        pose proof (Hloc rel0 E) as ->.
        rewrite (W2 (dir ++ [file]) c0 c Hin
                   ltac:(apply in_or_app; right; now left)).
        reflexivity.
      * assert (E' : start ++ outparts ++ rel0 <> q) by congruence.
        rewrite (get_set_other fs1 q _ _ E').
        apply in_app_or in Hin. destruct Hin as [Hin|[Hin|[]]].
        -- pose proof (J2 rel0 c0 Hin) as G.
           destruct (Hrel (start ++ outparts ++ rel0)) as [K|(K & _)];
             congruence.
        -- injection Hin as <- <-. now contradiction E'.
    + intros rel0 Hr G.
      assert (E' : start ++ outparts ++ rel0 <> q).
      { intros E. rewrite E, (get_set_same fs1 q _ Hqne) in G. discriminate. }
      rewrite (get_set_other fs1 q _ _ E') in G.
      destruct (Hrel (start ++ outparts ++ rel0))
        as [K|(_ & _ & pre & suf & Hp & E1 & E2)].
      * rewrite K in G.
        destruct (J3 rel0 Hr G) as (rel' & c' & x & more & Hin & E).
        exists rel', c', x, more. split; [apply in_or_app; now left | exact E].
      * apply app_inv_head in E2. subst pre.
        rewrite <- app_assoc in E1. apply app_inv_head in E1.
        exists (dir ++ [file]), c.
        destruct suf as [|y suf].
        -- exists file, []. split; [apply in_or_app; right; now left|].
           now rewrite E1, app_nil_r.
        -- exists y, (suf ++ [file]).
           split; [apply in_or_app; right; now left|].
           now rewrite E1, <- app_assoc.
    + intros pre suf r Hp E G.
      assert (E' : start ++ pre <> q).
      { unfold q. intros K. apply app_inv_head in K.
        rewrite E in K. rewrite <- app_assoc in K.
        rewrite <- (app_nil_r pre) in K at 1. apply app_inv_head in K.
        destruct suf, dir; discriminate. }
      rewrite (get_set_other fs1 q _ _ E') in G.
      apply (J4 pre suf r Hp E). now apply Hold.
Qed.

End WriteAll.

Section WriteEvery.
Import PyStr StrFacts PurePath PathFacts Store StoreFacts MatchFacts WriteFacts.

Variables (cwd : loc) (out : string).

Hypothesis out_plain : Forall (fun c => c <> "..") (parts (Path out)).

Lemma writes_ok_incl (ws ws' : list (list string * string)) :
  incl ws' ws -> writes_ok ws -> writes_ok ws'.
Proof.
  intros Hi (W1 & W2 & W3). split; [|split].
  - intros rel c H. apply (W1 rel c). now apply Hi.
  - intros rel c c' H1 H2. apply (W2 rel); now apply Hi.
  - intros rel c rel' c' x more H1 H2. apply (W3 rel c rel' c'); now apply Hi.
Qed.

(** The loop writes every chunk of a list of proper sections and
    returns. *)
Lemma write_all (ws : list (list string * string)) :
  forall (done : list (list string * string)) (fs : t),
    writes_ok (done ++ ws) ->
    written_inv (Store.start cwd (Path out)) (parts (Path out)) fs done ->
    exists fs' log,
      write_chunks cwd out (map chunk_at ws) fs = (fs', log, Returned)
      /\ written_inv (Store.start cwd (Path out)) (parts (Path out)) fs'
           (done ++ ws)
      /\ Forall is_written log.
Proof.
  induction ws as [|[rel c] ws IH]; intros done fs Hok Hinv.
  - exists fs, []. rewrite app_nil_r.
    split; [reflexivity|]. split; [exact Hinv | constructor].
  - assert (Hok1 : writes_ok (done ++ [(rel, c)])).
    { apply (writes_ok_incl (done ++ (rel, c) :: ws)); [|exact Hok].
      intros w Hw. apply in_app_or in Hw. apply in_or_app.
      destruct Hw as [Hw|[<-|[]]]; [now left | right; now left]. }
    destruct (write_one cwd out out_plain fs done rel c Hok1 Hinv)
      as (fs2 & Estep & Hinv2).
    destruct (IH (done ++ [(rel, c)]) fs2) as (fs' & log & E & Hinv' & Hlog).
    { now rewrite <- app_assoc. }
    { exact Hinv2. }
    exists fs', (Written (mk (root (Path out)) (parts (Path out) ++ rel)) :: log).
    cbn [map]. rewrite Estep, E. rewrite <- app_assoc in Hinv'.
    split; [reflexivity|].
    split; [exact Hinv' | constructor; [exact I | exact Hlog]].
Qed.

End WriteEvery.

(** ** The round trip: the files of the tree *)

Module TreeFacts.

Lemma find_entry_in (x : string) (entries : list (string * node)) (n : node) :
  find_entry x entries = Some n -> In (x, n) entries.
Proof.
  induction entries as [|[y c] entries IH]; simpl; [discriminate|].
  destruct (String.eqb_spec x y) as [->|Hxy].
  - intros [= ->]. now left.
  - intros H. right. now apply IH.
Qed.

Lemma lookup_app (n : node) (a b : list string) :
  lookup n (a ++ b)
  = match lookup n a with
    | Some m => lookup m b
    | None => None
    end.
Proof.
  revert n. induction a as [|x a IH]; intros n; [reflexivity|].
  simpl. destruct n as [r|entries]; [reflexivity|].
  destruct (find_entry x entries); [apply IH | reflexivity].
Qed.

Lemma open_read_file (top : node) (rel : list string) (c : string) :
  open_read top rel = ReadOk c <-> lookup top rel = Some (File (ReadOk c)).
Proof.
  unfold open_read. destruct (lookup top rel) as [[r|entries]|].
  - split; congruence.
  - split; discriminate.
  - split; discriminate.
Qed.

(** A text file is not a directory: no file lies below it. *)
Lemma nothing_below_file (top : node) (rel : list string) (c c' x : string)
    (more : list string) :
  open_read top rel = ReadOk c ->
  open_read top (rel ++ x :: more) = ReadOk c' -> False.
Proof.
  rewrite !open_read_file, lookup_app. intros ->. discriminate.
Qed.

(** Every file that [lookup] reaches is met by the walk. *)
Lemma lookup_walked (dir : list string) :
  forall (n : node) (base : list string) (file : string) (r : read_result),
    lookup n (dir ++ [file]) = Some (File r) ->
    exists ds files,
      In (base ++ dir, ds, files) (walk base n) /\ In file files.
Proof.
  induction dir as [|x dir IH]; intros n base file r H.
  - destruct n as [r0|entries]; [discriminate|]. simpl in H.
    destruct (find_entry file entries) as [c|] eqn:F; [|discriminate].
    injection H as ->. apply find_entry_in in F.
    exists (dirnames entries), (filenames entries). split.
    + rewrite app_nil_r. now left.
    + unfold filenames. apply in_map_iff. exists (file, File r).
      split; [reflexivity|]. apply filter_In. now split.
  - destruct n as [r0|entries]; [discriminate|]. simpl in H.
    destruct (find_entry x entries) as [c|] eqn:F; [|discriminate].
    apply find_entry_in in F.
    destruct (IH c (base ++ [x]) file r H) as (ds & files & Hw & Hf).
    exists ds, files. split; [|exact Hf].
    cbn [walk]. right. apply in_flat_map. exists (x, c).
    split; [exact F|]. cbn [fst snd].
    now rewrite <- app_assoc in Hw.
Qed.

Lemma find_entry_text_mode (x : string) (entries : list (string * node)) :
  find_entry x (map (fun e => (fst e, text_mode (snd e))) entries)
  = option_map text_mode (find_entry x entries).
Proof.
  induction entries as [|[y c] entries IH]; [reflexivity|].
  cbn [map find_entry fst snd]. destruct (x =? y); [reflexivity | exact IH].
Qed.

(** The view in text mode has the entries of the disk. *)
Lemma lookup_text_mode (rel : list string) :
  forall disk : node,
    lookup (text_mode disk) rel = option_map text_mode (lookup disk rel).
Proof.
  induction rel as [|x rel IH]; intros disk; [reflexivity|].
  destruct disk as [[raw|exc]|entries]; try reflexivity.
  cbn [text_mode lookup]. rewrite find_entry_text_mode.
  destruct (find_entry x entries) as [c|]; [apply IH | reflexivity].
Qed.

(** A text read in the view is the translation of the characters on
    disk. *)
Lemma text_mode_file (disk : node) (rel : list string) (c : string) :
  lookup (text_mode disk) rel = Some (File (ReadOk c)) <->
  exists raw,
    lookup disk rel = Some (File (ReadOk raw))
    /\ c = PyStr.universal_newlines raw.
Proof.
  rewrite lookup_text_mode. destruct (lookup disk rel) as [[[raw|exc]|es]|];
    cbn [option_map text_mode]; split.
  - intros [= <-]. now exists raw.
  - intros (raw' & [= <-] & ->). reflexivity.
  - discriminate.
  - intros (raw' & [=] & _).
  - discriminate.
  - intros (raw' & [=] & _).
  - discriminate.
  - intros (raw' & [=] & _).
Qed.

End TreeFacts.

Section RoundTrip.
Import PyStr StrFacts PurePath WalkFacts WriteFacts TreeFacts.

Variable match_file : PathSpec -> string -> bool.
Variables (top : node) (directory : string)
  (allowed_extensions : option (list string)).

Hypothesis ready :
  round_trip_ready match_file top directory allowed_extensions.

Lemma walked_relative (root_path : PurePath.t) (ds files : list string) :
  In (root_path, ds, files) (os_walk (Path directory) top) ->
  exists dir,
    root_path = descend (Path directory) dir
    /\ In (dir, ds, files) (walk [] top).
Proof.
  pose proof (os_walk_descend (Path directory) top []) as E.
  rewrite descend_nil in E. rewrite E. intros H.
  apply in_map_iff in H. destruct H as ([[dir ds'] files'] & Ew & Hw).
  cbn [fst snd] in Ew. injection Ew as <- <- <-. now exists dir.
Qed.

Lemma relative_walked (dir ds files : list string) :
  In (dir, ds, files) (walk [] top) ->
  In (descend (Path directory) dir, ds, files)
     (os_walk (Path directory) top).
Proof.
  pose proof (os_walk_descend (Path directory) top []) as E.
  rewrite descend_nil in E. rewrite E. intros H.
  apply in_map_iff. now exists (dir, ds, files).
Qed.

(** Under [round_trip_ready] every section is for a walked file with a
    proper path and a clean text. *)
Lemma section_form (s : PurePath.t * string) :
  In s (sections match_file top directory allowed_extensions) ->
  exists rel,
    fst s = mk EmptyString rel /\ rel <> [] /\ Forall name_ok rel
    /\ open_read top rel = ReadOk (snd s) /\ clean_text (snd s)
    /\ Forall name_kept rel.
Proof.
  intros Hs. pose proof (sections_read _ _ _ _ _ Hs) as Hread.
  apply in_sections in Hs. destruct Hs as ([[root_path ds] files] & Hw & Hs).
  apply in_directory_sections in Hs. cbn [fst snd] in Hs.
  destruct Hs as (_ & file & Hf & Hs).
  apply in_file_section in Hs. destruct Hs as (_ & _ & _ & Es).
  destruct (ready root_path ds files Hw) as (_ & Hfiles).
  destruct (Hfiles file Hf)
    as (_ & _ & Hnames & Hkept & content & Hc & Hclean).
  destruct (walked_relative root_path ds files Hw) as (dir & -> & _).
  rewrite child_descend, relative_to_descend in *. cbn [parts] in *.
  exists (dir ++ [file]). rewrite Es in Hread. cbn [parts] in Hread.
  split; [exact Es|]. split; [now destruct dir|]. split; [exact Hnames|].
  split; [exact Hread|]. split; [congruence | exact Hkept].
Qed.

Lemma sections_shaped :
  Forall shaped (sections match_file top directory allowed_extensions).
Proof.
  apply Forall_forall. intros s Hs.
  destruct (section_form s Hs) as (rel & E & Hne & Hn & _ & Hc & _).
  split; [|exact Hc].
  rewrite E, (MatchFacts.str_relative rel Hne). now apply names_ok_no_LF.
Qed.

Lemma sections_chunks :
  map chunk_of (sections match_file top directory allowed_extensions)
  = map chunk_at
      (map as_write (sections match_file top directory allowed_extensions)).
Proof.
  rewrite map_map. apply map_ext_in. intros s Hs.
  destruct (section_form s Hs) as (rel & E & Hne & _).
  unfold chunk_of, chunk_at, as_write. cbn [fst snd].
  now rewrite E, (MatchFacts.str_relative rel Hne).
Qed.

Lemma in_writes (rel : list string) (c : string) :
  In (rel, c)
     (map as_write (sections match_file top directory allowed_extensions)) ->
  rel <> [] /\ Forall name_ok rel /\ open_read top rel = ReadOk c.
Proof.
  intros H. apply in_map_iff in H. destruct H as (s & Es & Hs).
  destruct (section_form s Hs) as (rel' & E & Hne & Hn & Hr & _ & _).
  unfold as_write in Es. rewrite E in Es. cbn [parts] in Es.
  injection Es as <- <-. auto.
Qed.

Lemma sections_writes_ok :
  writes_ok
    (map as_write (sections match_file top directory allowed_extensions)).
Proof.
  split; [|split].
  - intros rel c H. destruct (in_writes rel c H) as (H1 & H2 & _). auto.
  - intros rel c c' H H'.
    destruct (in_writes rel c H) as (_ & _ & R).
    destruct (in_writes rel c' H') as (_ & _ & R'). congruence.
  - intros rel c rel' c' x more H H' E.
    destruct (in_writes rel c H) as (_ & _ & R).
    destruct (in_writes rel' c' H') as (_ & _ & R'). subst rel'.
    exact (nothing_below_file top rel c c' x more R R').
Qed.

(** Every text file of the tree has its section. *)
Lemma file_has_section (rel : list string) (content : string) :
  rel <> [] ->
  lookup top rel = Some (File (ReadOk content)) ->
  In (rel, content)
     (map as_write (sections match_file top directory allowed_extensions)).
Proof.
  intros Hne Hl.
  destruct (exists_last Hne) as (dir & file & ->).
  destruct (lookup_walked dir top [] file _ Hl) as (ds & files & Hw & Hf).
  cbn [app] in Hw. apply relative_walked in Hw.
  destruct (ready _ _ _ Hw) as (Hroot & Hfiles).
  destruct (Hfiles file Hf) as (Hk & He & _ & _ & c & Hc & _).
  rewrite child_descend, relative_to_descend in Hc. cbn [parts] in Hc.
  apply open_read_file in Hc. rewrite Hl in Hc. injection Hc as <-.
  apply in_map_iff. exists (mk EmptyString (dir ++ [file]), content).
  split; [reflexivity|].
  apply in_sections. eexists. split; [exact Hw|].
  apply in_directory_sections. cbn [fst snd]. split; [exact Hroot|].
  exists file. split; [exact Hf|].
  apply in_file_section. cbn [fst snd].
  rewrite child_descend, relative_to_descend in *. cbn [parts].
  repeat split; try assumption.
  now apply open_read_file.
Qed.

End RoundTrip.

(** ** The round trip: the document is read back as it was written *)

Section RoundTripDisk.
Import PyStr StrFacts PurePath WalkFacts WriteFacts TreeFacts NewlineFacts.

Variable match_file : PathSpec -> string -> bool.
Variables (disk : node) (directory : string)
  (allowed_extensions : option (list string)).

Hypothesis ready :
  round_trip_ready match_file (text_mode disk) directory allowed_extensions.

Lemma marker_no_CR : absent CR MARKER.
Proof. simpl. repeat split; discriminate. Qed.

Lemma section_no_CR (s : PurePath.t * string) :
  In s (sections match_file (text_mode disk) directory allowed_extensions) ->
  absent CR (section_text s).
Proof.
  intros Hs.
  destruct (section_form match_file (text_mode disk) directory
              allowed_extensions ready s Hs)
    as (rel & E & Hne & _ & R & _ & Hk).
  apply open_read_file, text_mode_file in R. destruct R as (raw & _ & Ec).
  unfold section_text. rewrite E, (MatchFacts.str_relative rel Hne), Ec.
  apply absent_app. split; [exact marker_no_CR|].
  apply absent_app. split.
  - apply absent_join; [discriminate|].
    apply Forall_forall. intros x Hx. rewrite Forall_forall in Hk.
    exact (proj1 (Hk x Hx)).
  - apply absent_app. split; [split; [discriminate | exact I]|].
    apply absent_app. split; [apply universal_newlines_no_CR|].
    split; [discriminate | exact I].
Qed.

(** The document of a tree with kept names holds no carriage return, so
    that reading it in text mode gives it back. *)
Lemma document_no_CR :
  absent CR
    (document match_file (text_mode disk) directory allowed_extensions).
Proof.
  rewrite concatenated_sections, join_render.
  pose proof section_no_CR as H.
  induction (sections match_file (text_mode disk) directory
               allowed_extensions) as [|s l IH]; [exact I|].
  cbn [fold_right]. apply absent_app. split.
  - apply H. now left.
  - apply IH. intros s' Hs'. apply H. now right.
Qed.

Lemma document_read_back (fs : Store.t) (cwd : Store.loc) (p : string) :
  Store.stored fs cwd p
  = ReadOk (document match_file (text_mode disk) directory
              allowed_extensions) ->
  Store.open_read fs cwd p
  = ReadOk (document match_file (text_mode disk) directory
              allowed_extensions).
Proof.
  intros H. unfold Store.open_read. rewrite H.
  now rewrite (universal_newlines_id _ document_no_CR).
Qed.

(** Splitting the document, held by a file, into a new directory writes
    its sections, and nothing else, below that directory. *)
Lemma split_stored_document (fs : Store.t) (cwd : Store.loc)
    (input_file output_dir : string) :
  fresh_output fs cwd output_dir ->
  Store.stored fs cwd input_file
  = ReadOk (document match_file (text_mode disk) directory
              allowed_extensions) ->
  exists fs' log,
    split_concatenated_file fs cwd input_file output_dir
    = (fs', log, Returned)
    /\ Forall is_written log
    /\ written_inv (Store.start cwd (Path output_dir))
         (parts (Path output_dir)) fs'
         (map as_write
            (sections match_file (text_mode disk) directory
               allowed_extensions)).
Proof.
  intros (Hdd & Hfree & Hnew) Hin. apply document_read_back in Hin.
  assert (Hinv0 : written_inv (Store.start cwd (Path output_dir))
                    (parts (Path output_dir)) fs []).
  { unfold output_loc in Hnew. split; [|split; [|split]].
    - intros rel r Hne G. rewrite app_assoc, (Hnew rel Hne) in G.
      discriminate.
    - intros rel c [].
    - intros rel Hne G. rewrite app_assoc, (Hnew rel Hne) in G.
      discriminate.
    - exact Hfree. }
  destruct (write_all cwd output_dir Hdd
              (map as_write
                 (sections match_file (text_mode disk) directory
                    allowed_extensions))
              [] fs
              (sections_writes_ok match_file (text_mode disk) directory
                 allowed_extensions ready) Hinv0)
    as (fs' & log & E & Hinv & Hlog).
  exists fs', log. split; [|split; [exact Hlog | exact Hinv]].
  unfold split_concatenated_file. rewrite Hin.
  rewrite concatenated_sections, join_render.
  rewrite (chunks_of_document _
             (sections_shaped match_file (text_mode disk) directory
                allowed_extensions ready)).
  rewrite (sections_chunks match_file (text_mode disk) directory
             allowed_extensions ready).
  exact E.
Qed.

(** The files written are the files of the disk, read in text mode and
    stripped on the right. *)
Lemma restored_files (fs' : Store.t) (cwd : Store.loc)
    (output_dir : string) :
  written_inv (Store.start cwd (Path output_dir))
    (parts (Path output_dir)) fs'
    (map as_write
       (sections match_file (text_mode disk) directory
          allowed_extensions)) ->
  (forall rel raw,
      rel <> [] ->
      lookup disk rel = Some (File (ReadOk raw)) ->
      Store.get fs' (output_loc cwd output_dir ++ rel)
      = Some (Store.EFile (ReadOk (rstrip (universal_newlines raw)))))
  /\ (forall rel r,
        rel <> [] ->
        Store.get fs' (output_loc cwd output_dir ++ rel)
        = Some (Store.EFile r) ->
        exists raw,
          lookup disk rel = Some (File (ReadOk raw))
          /\ r = ReadOk (rstrip (universal_newlines raw))).
Proof.
  intros (J1 & J2 & _ & _). split.
  - intros rel raw Hne Hl. unfold output_loc. rewrite <- app_assoc.
    apply J2.
    apply (file_has_section match_file (text_mode disk) directory
             allowed_extensions ready rel _ Hne).
    apply text_mode_file. now exists raw.
  - intros rel r Hne G. unfold output_loc in G. rewrite <- app_assoc in G.
    destruct (J1 rel r Hne G) as (c & Hc & ->).
    destruct (in_writes match_file (text_mode disk) directory
                allowed_extensions ready rel c Hc) as (_ & _ & R).
    apply open_read_file, text_mode_file in R.
    destruct R as (raw & Hl & ->). now exists raw.
Qed.

End RoundTripDisk.



(** A tree of two text files is ready for the round trip. *)
Lemma project_tree_ready :
  round_trip_ready GitWildMatch.match_file Examples.project_tree "proj" None.
Proof.
  intros root_path ds files H.
  assert (E : os_walk (PurePath.Path "proj") Examples.project_tree
              = [(PurePath.mk EmptyString ["proj"], ["pkg"], ["main.py"]);
                 (PurePath.mk EmptyString ["proj"; "pkg"], [], ["util.py"])])
    by (vm_compute; reflexivity).
  rewrite E in H. clear E.
  destruct H as [H|[H|[]]]; injection H as <- <- <-;
    (split; [vm_compute; reflexivity|]);
    intros file [<-|[]]; cbv zeta;
    (split; [vm_compute; reflexivity|]);
    (split; [vm_compute; reflexivity|]).
  - split; [|split].
    + change (Forall name_ok ["main.py"]).
      repeat constructor; simpl; intuition discriminate.
    + change (Forall name_kept ["main.py"]).
      repeat constructor; simpl; intuition discriminate.
    + exists ("import util" ++ PyStr.nl)%string.
      repeat split; vm_compute; reflexivity.
  - split; [|split].
    + change (Forall name_ok ["pkg"; "util.py"]).
      repeat constructor; simpl; intuition discriminate.
    + change (Forall name_kept ["pkg"; "util.py"]).
      repeat constructor; simpl; intuition discriminate.
    + exists "x = 1  ". repeat split; vm_compute; reflexivity.
Defined.

(** The view in text mode of [project_disk] is [project_tree]. *)
Lemma project_disk_read :
  text_mode Examples.project_disk = Examples.project_tree.
Proof. reflexivity. Defined.

(** [out] is new in a home directory that holds only the document. *)
Lemma holding_fresh (doc : string) :
  fresh_output (Examples.holding doc) ["home"] "out".
Proof.
  split; [|split].
  - change (Forall (fun c => c <> "..") ["out"]).
    repeat constructor. discriminate.
  - intros pre suf r Hne E.
    change (PurePath.parts (PurePath.Path "out")) with ["out"] in E.
    change (Store.start ["home"] (PurePath.Path "out")) with ["home"].
    destruct pre as [|x [|y pre]]; [congruence| |destruct pre; discriminate].
    injection E as <- _. discriminate.
  - intros rel Hne.
    change (output_loc ["home"] "out") with ["home"; "out"].
    destruct rel as [|x rel]; [congruence|].
    cbn [app]. unfold Examples.holding, Store.get, Store.set.
    destruct (list_eq_dec string_dec _ _) as [E|_]; [discriminate E|].
    destruct (list_eq_dec string_dec _ _) as [E|_]; [discriminate E|].
    reflexivity.
Defined.


(** * Further properties of the script *)

(** ** Stripping and splitting *)

Module StripFacts.
Import PyStr StrFacts.

Lemma rstrip_idempotent (s : string) : rstrip (rstrip s) = rstrip s.
Proof.
  induction s as [|c s IH]; [reflexivity|].
  cbn [rstrip]. destruct (rstrip s) as [|d r] eqn:E.
  - destruct (isspace c) eqn:Hc; [reflexivity|].
    cbn [rstrip]. now rewrite Hc.
  - cbn [rstrip]. cbn [rstrip] in IH. rewrite IH. reflexivity.
Qed.

Lemma rstrip_head (c : ascii) (s : string) :
  isspace c = false -> exists r, rstrip (String c s) = String c r.
Proof.
  intros Hc. cbn [rstrip]. destruct (rstrip s) as [|d r].
  - rewrite Hc. now exists EmptyString.
  - now exists (String d r).
Qed.

Lemma lstrip_cases (s : string) :
  lstrip s = EmptyString
  \/ exists c t, lstrip s = String c t /\ isspace c = false.
Proof.
  induction s as [|c s IH]; [now left|].
  cbn [lstrip]. destruct (isspace c) eqn:Hc; [exact IH|].
  right. now exists c, s.
Qed.

Lemma lstrip_every (s : string) :
  lstrip s = EmptyString <-> every isspace s = true.
Proof.
  induction s as [|c s IH]; [simpl; tauto|].
  cbn [lstrip every]. destruct (isspace c); [exact IH|].
  simpl. split; discriminate.
Qed.

(** A text is blank when [strip] leaves nothing of it. *)
Lemma strip_blank (s : string) :
  strip s = EmptyString <-> every isspace s = true.
Proof.
  unfold strip. rewrite <- lstrip_every.
  destruct (lstrip_cases s) as [E|(c & t & E & Hc)]; rewrite E.
  - simpl. tauto.
  - destruct (rstrip_head c t Hc) as (r & Er). rewrite Er.
    split; discriminate.
Qed.

Lemma strip_idempotent (s : string) : strip (strip s) = strip s.
Proof.
  unfold strip.
  destruct (lstrip_cases s) as [E|(c & t & E & Hc)]; rewrite E;
    [reflexivity|].
  destruct (rstrip_head c t Hc) as (r & Er).
  assert (L : lstrip (rstrip (String c t)) = rstrip (String c t)).
  { rewrite Er. cbn [lstrip]. now rewrite Hc. }
  rewrite L. apply rstrip_idempotent.
Qed.

Lemma blank_no_marker (s : string) :
  every isspace s = true -> contains MARKER s = false.
Proof.
  induction s as [|c s IH]; [reflexivity|].
  cbn [every]. intros H. apply andb_true_iff in H. destruct H as [Hc Hs].
  cbn [contains]. rewrite (IH Hs), orb_false_r.
  rewrite MARKER_eq, prefix_cons.
  destruct s as [|d s]; [now rewrite andb_false_r|].
  rewrite prefix_cons.
  cbn [every] in Hs. apply andb_true_iff in Hs. destruct Hs as [Hd _].
  destruct (Ascii.eqb_spec "/"%char d) as [<-|_];
    [discriminate Hd | now rewrite andb_false_r].
Qed.

(** The first line of a text that holds a line feed. *)
Lemma first_line (s : string) :
  contains nl s = true ->
  exists p rest, s = (p ++ nl ++ rest)%string /\ absent LF p.
Proof.
  induction s as [|c s IH]; [discriminate|].
  destruct (Ascii.eqb_spec c LF) as [->|Hc].
  - intros _. exists EmptyString, s. split; [reflexivity | exact I].
  - intros H.
    assert (Hs : contains nl s = true).
    { destruct (contains nl s) eqn:E; [reflexivity|].
      apply contains_absent in E.
      assert (K : contains nl (String c s) = false)
        by (apply contains_absent; split; assumption).
      congruence. }
    destruct (IH Hs) as (p & rest & -> & Hp).
    exists (String c p), rest. split; [reflexivity | split; assumption].
Qed.

Lemma split_max_two (s : string) :
  contains nl s = true ->
  exists p rest, split_max nl 1 s = [p; rest].
Proof.
  intros H. destruct (first_line s H) as (p & rest & -> & Hp).
  exists p, rest. now apply split_max_first_line.
Qed.

(** *** [suffix] *)

Lemma from_last_dot_none (s : string) :
  absent "." s -> from_last_dot s = None.
Proof.
  induction s as [|c s IH]; [reflexivity|]. intros [Hc Hs].
  cbn [from_last_dot]. rewrite (IH Hs).
  apply Ascii.eqb_neq in Hc. now rewrite Hc.
Qed.

Lemma from_last_dot_ext (stem ext : string) :
  absent "." ext ->
  from_last_dot (stem ++ "." ++ ext) = Some ("." ++ ext)%string.
Proof.
  intros He. induction stem as [|c stem IH].
  - simpl. now rewrite (from_last_dot_none ext He).
  - change (String c stem ++ "." ++ ext)%string
      with (String c (stem ++ "." ++ ext)).
    cbn [from_last_dot]. now rewrite IH.
Qed.

End StripFacts.

(** ** The files that reach the document *)

Module SuffixFacts.
Import PyStr StrFacts StripFacts PurePath.

Lemma from_last_dot_some (s r : string) :
  from_last_dot s = Some r ->
  exists stem e,
    s = (stem ++ "." ++ e)%string /\ r = ("." ++ e)%string /\ absent "." e.
Proof.
  revert r. induction s as [|c s IH]; [discriminate|]. intros r.
  cbn [from_last_dot]. destruct (from_last_dot s) as [r'|] eqn:E.
  - intros [= <-]. destruct (IH r' eq_refl) as (stem & e & -> & -> & He).
    exists (String c stem), e. repeat split; assumption.
  - destruct (Ascii.eqb_spec c "."%char) as [->|_]; [|discriminate].
    intros [= <-]. exists EmptyString, s. repeat split.
    clear IH. induction s as [|d s IHs]; [exact I|].
    cbn [from_last_dot] in E. destruct (from_last_dot s); [discriminate|].
    destruct (Ascii.eqb_spec d "."%char) as [->|Hd]; [discriminate|].
    split; [exact Hd | now apply IHs].
Qed.

Lemma length_append (a b : string) :
  String.length (a ++ b) = String.length a + String.length b.
Proof. induction a as [|c a IH]; simpl; [reflexivity | now rewrite IH]. Qed.

(** [p.suffix] is empty, or a dot and a non-empty extension without a dot
    that follows a non-empty stem. *)
Lemma suffix_cases (p : PurePath.t) :
  suffix p = EmptyString
  \/ exists stem e,
       stem <> EmptyString /\ e <> EmptyString /\ absent "." e
       /\ name p = (stem ++ "." ++ e)%string
       /\ suffix p = ("." ++ e)%string.
Proof.
  unfold suffix. destruct (from_last_dot (name p)) as [r|] eqn:E;
    [|now left].
  destruct (from_last_dot_some _ _ E) as (stem & e & Hn & -> & He).
  destruct (Nat.ltb_spec 1 (String.length ("." ++ e))) as [H1|H1];
    [|now left].
  destruct (Nat.ltb_spec (String.length ("." ++ e))
              (String.length (name p))) as [H2|H2]; [|now left].
  right. exists stem, e. cbn [andb]. repeat split; try assumption.
  - intros ->. rewrite Hn in H2. simpl in H2. lia.
  - intros ->. simpl in H1. lia.
Qed.

Lemma suffix_of_name (stem e : string) (dir : list string) :
  stem <> EmptyString -> e <> EmptyString -> absent "." e ->
  suffix (mk EmptyString (dir ++ [(stem ++ "." ++ e)%string]))
  = ("." ++ e)%string.
Proof.
  intros Hs He Ha. unfold suffix, name. cbn [parts].
  rewrite last_last, (from_last_dot_ext stem e Ha).
  assert (L1 : (1 <? String.length ("." ++ e))%nat = true).
  { destruct e as [|d e]; [congruence | reflexivity]. }
  assert (L2 : (String.length ("." ++ e)
                <? String.length (stem ++ "." ++ e))%nat = true).
  { rewrite (length_append stem). apply Nat.ltb_lt.
    destruct stem as [|c stem]; [congruence | simpl; lia]. }
  now rewrite L1, L2.
Qed.

Lemma mem_In (x : string) (l : list string) : mem x l = true <-> In x l.
Proof.
  unfold mem. rewrite existsb_exists. split.
  - intros (y & Hy & E). apply String.eqb_eq in E. now subst.
  - intros H. exists x. split; [exact H | apply String.eqb_refl].
Qed.

End SuffixFacts.

Section Filters.
Import PyStr StrFacts StripFacts PurePath WalkFacts SortFacts TreeFacts
  SuffixFacts.

Variable match_file : PathSpec -> string -> bool.

(** A section comes from a file [dir ++ [file]] of a walked directory
    [dir], both kept by [should_process_file], with an extension that is
    not skipped. *)
Lemma section_origin top directory allowed_extensions s :
  In s (sections match_file top directory allowed_extensions) ->
  exists dir file,
    s = (mk EmptyString (dir ++ [file]), snd s)
    /\ open_read top (dir ++ [file]) = ReadOk (snd s)
    /\ keep match_file (name (Path directory)) (fst (load_gitignore top)) dir
       = true
    /\ keep match_file (name (Path directory)) (fst (load_gitignore top))
         (dir ++ [file]) = true
    /\ extension_skipped
         (match allowed_extensions with
          | None => DEFAULT_EXTENSIONS
          | Some l => l
          end) (mk EmptyString [file]) = false.
Proof.
  rewrite sections_relative. unfold rel_sections. intros H.
  apply in_flat_map in H. destruct H as (w & _ & H).
  unfold rel_directory_sections in H.
  destruct (keep match_file _ _ (fst (fst w))) eqn:Kd; [|destruct H].
  apply in_flat_map in H. destruct H as (file & _ & H).
  unfold rel_file_section in H.
  destruct (keep match_file _ _ (fst (fst w) ++ [file])) eqn:Kf;
    [|destruct H].
  destruct (extension_skipped _ (mk EmptyString [file])) eqn:Ke;
    [destruct H|].
  cbn [andb negb] in H.
  destruct (open_read top (fst (fst w) ++ [file])) as [content|exc] eqn:R;
    [|destruct H].
  destruct H as [<-|[]]. exists (fst (fst w)), file. cbn [snd]. auto.
Qed.

End Filters.

(** No file reaches the document unless it passes every test of the two
    loops: a section is the text of a file of the tree, neither the file's
    name nor the name of its directory starts with a dot (for the top
    directory the name is the one of [directory]), the ignore rules match
    neither the file's path nor the directory's, and the file's suffix is
    in the extension list unless that list is empty. *)
Theorem sections_pass_filters :
  forall (match_file : PathSpec -> string -> bool) (top : node)
         (directory : string) (allowed_extensions : option (list string))
         (s : PurePath.t * string),
    In s (sections match_file top directory allowed_extensions) ->
    let spec := fst (load_gitignore top) in
    let allowed :=
      match allowed_extensions with
      | None => DEFAULT_EXTENSIONS
      | Some l => l
      end in
    exists dir file,
      fst s = PurePath.mk EmptyString (dir ++ [file])
      /\ lookup top (dir ++ [file]) = Some (File (ReadOk (snd s)))
      /\ PyStr.startswith "." file = false
      /\ PyStr.startswith "."
           (last dir (PurePath.name (PurePath.Path directory))) = false
      /\ match_file spec (PurePath.str (PurePath.mk EmptyString dir)) = false
      /\ match_file spec
           (PurePath.str (PurePath.mk EmptyString (dir ++ [file]))) = false
      /\ (allowed = []
          \/ In (PurePath.suffix (PurePath.mk EmptyString [file])) allowed).
Proof.
  intros match_file top directory allowed_extensions s H spec allowed.
  destruct (section_origin match_file top directory allowed_extensions s H)
    as (dir & file & Es & R & Kd & Kf & Ke).
  exists dir, file. fold spec in Kd, Kf. fold allowed in Ke.
  unfold keep in Kd, Kf. rewrite last_last in Kf.
  apply negb_true_iff, orb_false_iff in Kd, Kf.
  destruct Kd as [Kd1 Kd2], Kf as [Kf1 Kf2].
  split; [now rewrite Es|].
  split; [now apply TreeFacts.open_read_file|].
  repeat (split; [assumption|]).
  unfold extension_skipped in Ke. destruct allowed as [|a l]; [now left|].
  right. cbn [PyStr.nonempty andb] in Ke.
  apply negb_false_iff in Ke. now apply SuffixFacts.mem_In.
Qed.

Lemma sections_pass_filters_witness :
  exists dir file,
    fst (PurePath.mk EmptyString ["pkg"; "util.py"], "x = 1  ")
    = PurePath.mk EmptyString (dir ++ [file])
    /\ lookup Examples.project_tree (dir ++ [file])
       = Some (File (ReadOk
                       (snd (PurePath.mk EmptyString ["pkg"; "util.py"],
                             "x = 1  "))))
    /\ PyStr.startswith "." file = false
    /\ PyStr.startswith "."
         (last dir (PurePath.name (PurePath.Path "proj"))) = false
    /\ GitWildMatch.match_file (fst (load_gitignore Examples.project_tree))
         (PurePath.str (PurePath.mk EmptyString dir)) = false
    /\ GitWildMatch.match_file (fst (load_gitignore Examples.project_tree))
         (PurePath.str (PurePath.mk EmptyString (dir ++ [file]))) = false
    /\ (DEFAULT_EXTENSIONS = []
        \/ In (PurePath.suffix (PurePath.mk EmptyString [file]))
              DEFAULT_EXTENSIONS).
Proof.
  assert (H : In (PurePath.mk EmptyString ["pkg"; "util.py"], "x = 1  ")
                 (sections GitWildMatch.match_file Examples.project_tree
                    "proj" None))
    by (vm_compute; auto).
  exact (sections_pass_filters GitWildMatch.match_file Examples.project_tree
           "proj" None _ H).
Defined.

(** With a list of extensions that is not empty, the name of every file
    in the document carries a suffix of the list; a suffix is empty or a
    dot followed by an extension without a dot, after a stem that is not
    empty. *)
Theorem sections_have_allowed_suffix :
  forall (match_file : PathSpec -> string -> bool) (top : node)
         (directory : string) (allowed_extensions : option (list string))
         (s : PurePath.t * string),
    let allowed :=
      match allowed_extensions with
      | None => DEFAULT_EXTENSIONS
      | Some l => l
      end in
    In s (sections match_file top directory allowed_extensions) ->
    allowed <> [] ->
    In (PurePath.suffix (fst s)) allowed
    /\ (PurePath.suffix (fst s) = EmptyString
        \/ exists stem e,
             stem <> EmptyString /\ e <> EmptyString
             /\ PyStr.absent "." e
             /\ PurePath.name (fst s) = (stem ++ "." ++ e)%string
             /\ PurePath.suffix (fst s) = ("." ++ e)%string).
Proof.
  intros match_file top directory allowed_extensions s allowed H Hne.
  split; [|apply SuffixFacts.suffix_cases].
  destruct (section_origin match_file top directory allowed_extensions s H)
    as (dir & file & Es & _ & _ & _ & Ke).
  fold allowed in Ke. rewrite Es. cbn [fst].
  change (PurePath.mk EmptyString (dir ++ [file]))
    with (PurePath.child (PurePath.mk EmptyString dir) file).
  rewrite (WalkFacts.suffix_child _ (PurePath.mk EmptyString []) file).
  unfold extension_skipped in Ke.
  destruct allowed as [|a l]; [congruence|].
  cbn [PyStr.nonempty andb] in Ke. apply negb_false_iff in Ke.
  now apply SuffixFacts.mem_In.
Qed.

Lemma sections_have_allowed_suffix_witness :
  In (PurePath.suffix (fst (PurePath.mk EmptyString ["pkg"; "util.py"],
                            "x = 1  ")))
     DEFAULT_EXTENSIONS
  /\ (PurePath.suffix (fst (PurePath.mk EmptyString ["pkg"; "util.py"],
                            "x = 1  ")) = EmptyString
      \/ exists stem e,
           stem <> EmptyString /\ e <> EmptyString
           /\ PyStr.absent "." e
           /\ PurePath.name (fst (PurePath.mk EmptyString ["pkg"; "util.py"],
                                  "x = 1  "))
              = (stem ++ "." ++ e)%string
           /\ PurePath.suffix (fst (PurePath.mk EmptyString
                                      ["pkg"; "util.py"], "x = 1  "))
              = ("." ++ e)%string).
Proof.
  assert (H : In (PurePath.mk EmptyString ["pkg"; "util.py"], "x = 1  ")
                 (sections GitWildMatch.match_file Examples.project_tree
                    "proj" None))
    by (vm_compute; auto).
  assert (N : DEFAULT_EXTENSIONS <> []) by discriminate.
  exact (sections_have_allowed_suffix GitWildMatch.match_file
           Examples.project_tree "proj" None _ H N).
Defined.

(** Extensions given without their dot select nothing: when no entry of a
    non-empty list is empty or starts with a dot, the document is empty
    whatever the directory holds. *)
Theorem extensions_without_dot_select_nothing :
  forall (match_file : PathSpec -> string -> bool) (top : node)
         (fs : Store.t) (cwd : Store.loc) (directory : string)
         (output_file : option string) (l : list string),
    l <> [] ->
    (forall x, In x l -> x <> EmptyString /\ PyStr.startswith "." x = false) ->
    sections match_file top directory (Some l) = []
    /\ fst (fst (concatenate_directory match_file top fs cwd directory
                   output_file (Some l))) = EmptyString.
Proof.
  intros match_file top fs cwd directory output_file l Hne Hl.
  assert (E : sections match_file top directory (Some l) = []).
  { destruct (sections match_file top directory (Some l)) as [|s rest] eqn:E;
      [reflexivity|exfalso].
    assert (H : In s (sections match_file top directory (Some l)))
      by (rewrite E; now left).
    destruct (section_origin match_file top directory (Some l) s H)
      as (dir & file & _ & _ & _ & _ & Ke).
    unfold extension_skipped in Ke. destruct l as [|a l']; [congruence|].
    cbn [PyStr.nonempty andb] in Ke. apply negb_false_iff in Ke.
    apply SuffixFacts.mem_In in Ke. destruct (Hl _ Ke) as [H1 H2].
    destruct (SuffixFacts.suffix_cases (PurePath.mk EmptyString [file]))
      as [Z|(stem & e & _ & _ & _ & _ & Z)]; rewrite Z in *.
    - congruence.
    - unfold PyStr.startswith in H2. destruct e; discriminate H2. }
  split; [exact E|].
  rewrite returned_document, concatenated_sections, E. reflexivity.
Qed.

Lemma extensions_without_dot_select_nothing_witness :
  sections GitWildMatch.match_file Examples.project_tree "proj"
    (Some ["py"; "js"]) = []
  /\ fst (fst (concatenate_directory GitWildMatch.match_file
                 Examples.project_tree Examples.empty_fs ["home"] "proj"
                 (Some "all.txt") (Some ["py"; "js"]))) = EmptyString.
Proof.
  apply (extensions_without_dot_select_nothing GitWildMatch.match_file
           Examples.project_tree Examples.empty_fs ["home"] "proj"
           (Some "all.txt") ["py"; "js"]).
  - discriminate.
  - intros x [<-|[<-|[]]]; split; (discriminate || reflexivity).
Defined.

(** ** The patterns that are loaded *)

(** The patterns handed to [PathSpec.from_lines] are never empty: they
    are the default patterns, or the lines of the [.gitignore] file that
    do not start with [#], stripped.  No pattern is empty and none has a
    blank at either end. *)
Theorem loaded_patterns_are_stripped_lines :
  forall top : node,
    let spec := fst (load_gitignore top) in
    spec <> []
    /\ (spec = DEFAULT_PATTERNS
        \/ exists text,
             lookup top [".gitignore"] = Some (File (ReadOk text))
             /\ Forall
                  (fun p =>
                     exists line,
                       In line (PyStr.lines text)
                       /\ p = PyStr.strip line
                       /\ PyStr.startswith "#" line = false)
                  spec)
    /\ Forall (fun p => p <> EmptyString /\ PyStr.strip p = p) spec.
Proof.
  intros top spec.
  assert (D : Forall (fun p => p <> EmptyString /\ PyStr.strip p = p)
                DEFAULT_PATTERNS).
  { repeat constructor; discriminate. }
  assert (N : DEFAULT_PATTERNS <> []) by discriminate.
  subst spec. unfold load_gitignore, gitignore_patterns.
  destruct (lookup top [".gitignore"]) as [n|] eqn:L; cbn [fst PyStr.nonempty];
    [|auto].
  destruct (open_read top [".gitignore"]) as [text|exc] eqn:R;
    cbn [fst PyStr.nonempty]; [|auto].
  destruct (map PyStr.strip (usable_lines text)) as [|p ps] eqn:E;
    cbn [fst PyStr.nonempty]; [auto|].
  assert (U : forall q,
             In q (p :: ps) ->
             exists line,
               In line (PyStr.lines text) /\ q = PyStr.strip line
               /\ PyStr.startswith "#" line = false
               /\ PyStr.truthy (PyStr.strip line) = true).
  { rewrite <- E. intros q Hq. apply in_map_iff in Hq.
    destruct Hq as (line & <- & Hl).
    unfold usable_lines in Hl. apply filter_In in Hl.
    destruct Hl as [Hl Hk]. apply andb_true_iff in Hk.
    destruct Hk as [Hk1 Hk2]. apply negb_true_iff in Hk2.
    exists line. auto. }
  split; [discriminate|split].
  - right. exists text. split;
      [apply TreeFacts.open_read_file in R; congruence|].
    apply Forall_forall. intros q Hq.
    destruct (U q Hq) as (line & H1 & H2 & H3 & _). eauto.
  - apply Forall_forall. intros q Hq.
    destruct (U q Hq) as (line & _ & -> & _ & Ht).
    split; [|apply StripFacts.strip_idempotent].
    intros Z. rewrite Z in Ht. discriminate.
Qed.

(** ** What writing the document does to the file system *)

Module EffectFacts.
Import Store StoreFacts.

(** A successful [open(p, 'w')] followed by [write] changes one location,
    which was not a directory. *)
Lemma open_write_effect (s s' : t) (cwd : loc) (p : PurePath.t)
    (text : string) :
  open_write s cwd p text = Some s' ->
  exists l,
    l <> [] /\ get s l <> Some EDir /\ s' = set s l (EFile (ReadOk text)).
Proof.
  unfold open_write. destruct (rev (PurePath.parts p)) as [|name rdirs];
    [discriminate|].
  destruct (resolve_dirs s (start cwd p) (rev rdirs)) as [l|];
    [|discriminate].
  destruct (name =? ".."); [discriminate|].
  destruct (get s (l ++ [name])) as [[r|]|] eqn:G; try discriminate;
    intros [= <-]; exists (l ++ [name]);
    (split; [now destruct l|]); (split; [congruence|reflexivity]).
Qed.

Lemma open_write_str_effect (s s' : t) (cwd : loc) (p text : string) :
  open_write_str s cwd p text = Some s' ->
  exists l,
    l <> [] /\ get s l <> Some EDir /\ s' = set s l (EFile (ReadOk text)).
Proof.
  unfold open_write_str. destruct (names_directory p); [discriminate|].
  apply open_write_effect.
Qed.

Lemma get_set (s : t) (l q : loc) (e : entry) :
  l <> [] ->
  get (set s l e) q = if list_eq_dec string_dec q l then Some e else get s q.
Proof.
  intros Hl. destruct (list_eq_dec string_dec q l) as [->|Hq].
  - now apply get_set_same.
  - now apply get_set_other.
Qed.

End EffectFacts.

Section Messages.
Import PyStr PurePath.

Variable match_file : PathSpec -> string -> bool.

Lemma load_gitignore_messages (top : node) (e : event) :
  In e (snd (load_gitignore top)) -> exists exc, e = WarningGitignore exc.
Proof.
  unfold load_gitignore, gitignore_patterns.
  destruct (lookup top [".gitignore"]); [|intros []].
  destruct (open_read top [".gitignore"]) as [text|exc]; [intros []|].
  intros [<-|[]]. now exists exc.
Qed.

Lemma process_file_messages top dp spec allowed root_path file e :
  In e (snd (process_file match_file top dp spec allowed root_path file)) ->
  exists p exc, e = ErrorProcessing p exc.
Proof.
  unfold process_file.
  destruct (negb (should_process_file match_file _ dp spec)); [intros []|].
  destruct (extension_skipped allowed _); [intros []|].
  destruct (open_read top _) as [content|exc]; [intros []|].
  intros [<-|[]]. eauto.
Qed.

Lemma process_directory_messages top dp spec allowed walked e :
  In e (snd (process_directory match_file top dp spec allowed walked)) ->
  exists p exc, e = ErrorProcessing p exc.
Proof.
  destruct walked as [[root_path ds] files]. unfold process_directory.
  destruct (negb (should_process_file match_file _ dp spec)); [intros []|].
  intros H. apply in_gather_snd in H. destruct H as (x & Hx & He).
  apply in_map_iff in Hx. destruct Hx as (file & <- & _).
  now apply process_file_messages in He.
Qed.

Lemma walk_messages top dp spec allowed walk e :
  In e (snd (gather (map (process_directory match_file top dp spec allowed)
                       walk))) ->
  exists p exc, e = ErrorProcessing p exc.
Proof.
  intros H. apply in_gather_snd in H. destruct H as (x & Hx & He).
  apply in_map_iff in Hx. destruct Hx as (w & <- & _).
  now apply process_directory_messages in He.
Qed.

(** The two ways [concatenate_directory] ends: the document was written
    and [Output written] is the last message, or the file system is as it
    was and that message is not printed. *)
Lemma concatenate_cases top fs cwd directory output_file
    allowed_extensions :
  let result :=
    concatenate_directory match_file top fs cwd directory output_file
      allowed_extensions in
  (exists f log0,
      output_file = Some f
      /\ Store.open_write_str fs cwd f (fst (fst result))
         = Some (snd (fst result))
      /\ snd result = log0 ++ [OutputWritten f]
      /\ forall f', ~ In (OutputWritten f') log0)
  \/ (snd (fst result) = fs
      /\ forall f', ~ In (OutputWritten f') (snd result)).
Proof.
  cbv zeta. unfold concatenate_directory.
  pose proof (load_gitignore_messages top) as Hw.
  destruct (load_gitignore top) as [spec warnings]. cbn [snd] in Hw.
  match goal with
  | |- context [gather ?l] =>
      assert (He : forall e, In e (snd (gather l)) ->
                             exists p exc, e = ErrorProcessing p exc)
        by (intros e; apply walk_messages);
      destruct (gather l) as [concatenated errors]
  end.
  cbn [snd] in He.
  assert (Hq : forall f, ~ In (OutputWritten f) (warnings ++ errors)).
  { intros f H. apply in_app_or in H. destruct H as [H|H].
    - destruct (Hw _ H) as (exc & Z). discriminate Z.
    - destruct (He _ H) as (p & exc & Z). discriminate Z. }
  destruct output_file as [f|]; cbn [fst snd]; [|now right].
  destruct (truthy f); cbn [fst snd]; [|now right].
  destruct (Store.open_write_str fs cwd f _) as [fs'|] eqn:W;
    cbn [fst snd].
  - left. exists f, (warnings ++ errors).
    split; [reflexivity|]. split; [exact W|].
    split; [now rewrite app_assoc | exact Hq].
  - right. split; [reflexivity|]. intros f' H.
    rewrite app_assoc in H. apply in_app_or in H. destruct H as [H|H].
    + now apply Hq in H.
    + destruct H as [Z|[]]. discriminate Z.
Qed.

End Messages.

(** [Output written to ...] is printed only when the file named by
    [output_file] holds the returned text; read in text mode it then
    gives that text with its carriage returns translated.  Whether or not
    the write succeeds, at most one location changes, which was not a
    directory and holds a file afterwards, and the directories are the
    same before and after.  When no output file is given nothing
    changes. *)
Theorem output_written_only_on_success :
  forall (match_file : PathSpec -> string -> bool) (top : node)
         (fs : Store.t) (cwd : Store.loc) (directory : string)
         (output_file : option string)
         (allowed_extensions : option (list string)),
    let result :=
      concatenate_directory match_file top fs cwd directory output_file
        allowed_extensions in
    let doc := fst (fst result) in
    let fs' := snd (fst result) in
    let log := snd result in
    (forall f,
        In (OutputWritten f) log ->
        output_file = Some f
        /\ Store.stored fs' cwd f = ReadOk doc
        /\ Store.open_read fs' cwd f
           = ReadOk (PyStr.universal_newlines doc))
    /\ (exists l, forall q, q <> l -> Store.get fs' q = Store.get fs q)
    /\ (forall q,
          Store.get fs' q = Store.get fs q
          \/ (Store.get fs q <> Some Store.EDir
              /\ exists r, Store.get fs' q = Some (Store.EFile r)))
    /\ (forall q,
          Store.get fs' q = Some Store.EDir <->
          Store.get fs q = Some Store.EDir)
    /\ (output_file = None \/ output_file = Some EmptyString -> fs' = fs).
Proof.
  intros match_file top fs cwd directory output_file allowed_extensions.
  cbv zeta.
  pose proof (concatenate_cases match_file top fs cwd directory output_file
                allowed_extensions) as C.
  cbv zeta in C.
  assert (N : output_file = None \/ output_file = Some EmptyString ->
              snd (fst (concatenate_directory match_file top fs cwd
                          directory output_file allowed_extensions)) = fs).
  { unfold concatenate_directory.
    destruct (load_gitignore top) as [spec warnings].
    match goal with
    | |- context [gather ?l] => destruct (gather l) as [concatenated errors]
    end.
    intros [-> | ->]; reflexivity. }
  destruct C as [(f & log0 & Ho & W & El & Hn)|(Ef & Hn)].
  - destruct (EffectFacts.open_write_str_effect _ _ _ _ _ W)
      as (l & Hl & Hd & E).
    split; [|split; [|split; [|split]]].
    + intros f' H. rewrite El in H. apply in_app_or in H.
      destruct H as [H|[H|[]]]; [now apply Hn in H|].
      injection H as <-. split; [exact Ho|]. split.
      * now apply (StoreFacts.written_document_stored fs _ cwd f).
      * now apply (StoreFacts.written_document_read_back fs _ cwd f).
    + exists l. intros q Hq. rewrite E.
      now apply StoreFacts.get_set_other.
    + intros q. rewrite E, (EffectFacts.get_set fs l q _ Hl).
      destruct (list_eq_dec string_dec q l) as [->|_]; [|now left].
      right. split; [exact Hd|]. eauto.
    + intros q. rewrite E, (EffectFacts.get_set fs l q _ Hl).
      destruct (list_eq_dec string_dec q l) as [->|_]; [|tauto].
      split; [discriminate | intros H; now contradiction Hd].
    + exact N.
  - split; [|split; [|split; [|split]]].
    + intros f H. now apply Hn in H.
    + exists []. intros q _. now rewrite Ef.
    + intros q. left. now rewrite Ef.
    + intros q. now rewrite Ef.
    + exact N.
Qed.

(** ** What the write loop does to the file system *)

Module GrowFacts.
Import PyStr StrFacts StripFacts Store StoreFacts EffectFacts.

Lemma only_adds_refl (s : t) : only_adds s s.
Proof. intros q. now left. Qed.

Lemma only_adds_trans (a b c : t) :
  only_adds a b -> only_adds b c -> only_adds a c.
Proof.
  intros Hab Hbc q.
  destruct (Hab q) as [E|[(E1 & E2)|(E1 & text & E2 & E3)]];
    destruct (Hbc q) as [F|[(F1 & F2)|(F1 & text' & F2 & F3)]].
  - left. congruence.
  - right. left. split; congruence.
  - right. right. split; [congruence|]. exists text'. auto.
  - right. left. split; congruence.
  - congruence.
  - congruence.
  - right. right. split; [assumption|]. exists text. split; congruence.
  - congruence.
  - right. right. split; [assumption|]. exists text'. auto.
Qed.

(** [mkdir] only turns locations that hold nothing into directories,
    also when it raises on the way. *)
Lemma mkdir_from_effect (ps : list string) :
  forall (s : t) (l : loc) (s' : t) (b : bool),
    mkdir_from s l ps = (s', b) ->
    forall q,
      get s' q = get s q \/ (get s q = None /\ get s' q = Some EDir).
Proof.
  induction ps as [|c ps IH]; intros s l s' b H q.
  - injection H as <- _. now left.
  - cbn [mkdir_from] in H.
    destruct (get s (step l c)) as [[r|]|] eqn:G.
    + injection H as <- _. now left.
    + exact (IH _ _ _ _ H q).
    + assert (Hl : step l c <> []) by (intros Z; now rewrite Z in G).
      destruct (IH _ _ _ _ H q) as [E|[E1 E2]];
        rewrite (get_set s (step l c) q EDir Hl) in *;
        destruct (list_eq_dec string_dec q (step l c)) as [->|Hq].
      * right. split; assumption.
      * now left.
      * discriminate.
      * right. split; assumption.
Qed.

Lemma only_adds_mkdir (s s' : t) (l : loc) (ps : list string) (b : bool) :
  mkdir_from s l ps = (s', b) -> only_adds s s'.
Proof.
  intros H q. destruct (mkdir_from_effect ps s l s' b H q) as [E|E];
    [now left | right; now left].
Qed.

Lemma only_adds_write (s s' : t) (cwd : loc) (p : PurePath.t) (c : string) :
  open_write s cwd p (rstrip c) = Some s' -> only_adds s s'.
Proof.
  intros H. destruct (open_write_effect _ _ _ _ _ H) as (l & Hl & Hd & ->).
  intros q. rewrite (get_set s l q _ Hl).
  destruct (list_eq_dec string_dec q l) as [->|Hq]; [|now left].
  right. right. split; [assumption|]. exists (rstrip c).
  split; [reflexivity | apply rstrip_idempotent].
Qed.

Lemma write_chunks_only_adds (cwd : loc) (out : string)
    (files : list string) :
  forall fs, only_adds fs (fst (fst (write_chunks cwd out files fs))).
Proof.
  induction files as [|f files IH]; intros fs; [apply only_adds_refl|].
  cbn [write_chunks].
  destruct (split_max nl 1 f) as [|a [|b [|? ?]]]; try apply IH.
  destruct (mkdir_parents fs cwd _) as [fs1 [|]] eqn:M;
    unfold mkdir_parents in M; apply only_adds_mkdir in M;
    [|exact M].
  destruct (open_write fs1 cwd _ _) as [fs2|] eqn:W.
  - apply only_adds_write in W. specialize (IH fs2).
    destruct (write_chunks cwd out files fs2) as [[fs3 log] res].
    cbn [fst] in *. eapply only_adds_trans; [exact M|].
    eapply only_adds_trans; [exact W | exact IH].
  - specialize (IH fs1).
    destruct (write_chunks cwd out files fs1) as [[fs3 log] res].
    cbn [fst] in *. eapply only_adds_trans; [exact M | exact IH].
Qed.


End GrowFacts.

(** Splitting never removes anything and never replaces a directory: at
    every location the file system afterwards holds what it held, or a
    new directory where there was nothing, or a written text, free of
    trailing blanks, where there was no directory.  This holds as well
    when [mkdir] raises in the middle of the loop. *)
Theorem split_only_adds :
  forall (fs : Store.t) (cwd : Store.loc) (input_file output_dir : string),
    only_adds fs
      (fst (fst (split_concatenated_file fs cwd input_file output_dir))).
Proof.
  intros fs cwd input_file output_dir. unfold split_concatenated_file.
  destruct (Store.open_read fs cwd input_file) as [content|exc].
  - apply GrowFacts.write_chunks_only_adds.
  - apply GrowFacts.only_adds_refl.
Qed.

(** ** One round of the loop for a plain path *)

Section PlainChunk.
Import PyStr StrFacts StripFacts PurePath PathFacts Store StoreFacts
  WriteFacts EffectFacts.

Variables (cwd : loc) (out : string).
Hypothesis out_plain : plain_name out.

Lemma out_not_up : out <> "..".
Proof. now destruct out_plain as (_ & _ & H & _). Qed.

(** The path a chunk is written to when its line names a relative
    path. *)
Lemma target_relative (p : string) :
  root (Path p) = EmptyString ->
  truediv (Path out) p = mk EmptyString (out :: parts (Path p)).
Proof.
  intros Hr. unfold truediv, joinpath. rewrite Hr.
  now rewrite (Path_plain out out_plain).
Qed.






(** [mkdir] on the parent of a relative target raises when [out] is a
    file. *)
Lemma mkdir_parent_blocked (p : string) (fs : t) (r : read_result) :
  root (Path p) = EmptyString ->
  parts (Path p) <> [] ->
  get fs (cwd ++ [out]) = Some (EFile r) ->
  mkdir_parents fs cwd (parent (truediv (Path out) p)) = (fs, false).
Proof.
  intros Hroot Hparts Hfile. rewrite (target_relative p Hroot).
  unfold parent, mkdir_parents, start. cbn [root parts truthy].
  destruct (parts (Path p)) as [|a ps]; [congruence|].
  assert (E : removelast (out :: a :: ps) = out :: removelast (a :: ps))
    by reflexivity.
  rewrite E. cbn [mkdir_from].
  now rewrite (step_name _ _ out_not_up), Hfile.
Qed.

End PlainChunk.

(** [mkdir] stands outside the [try]: when the output directory is an
    existing file, the first chunk that names a relative path makes the
    function raise.  Nothing is written or printed for it, and the chunks
    after it are not looked at. *)
Theorem mkdir_error_leaves_loop :
  forall (cwd : Store.loc) (out p content : string) (rest : list string)
         (fs : Store.t) (r : read_result),
    PurePath.plain_name out ->
    PyStr.absent PyStr.LF p ->
    PurePath.root (PurePath.Path p) = EmptyString ->
    PurePath.parts (PurePath.Path p) <> [] ->
    Store.get fs (cwd ++ [out]) = Some (Store.EFile r) ->
    write_chunks cwd out ((p ++ PyStr.nl ++ content)%string :: rest) fs
    = (fs, [], Raised "OSError").
Proof.
  intros cwd out p content rest fs r Hout Hp Hroot Hparts Hfile.
  rewrite (write_chunks_cons cwd out p content rest fs Hp). cbv zeta.
  now rewrite (mkdir_parent_blocked cwd out Hout p fs r Hroot Hparts Hfile).
Qed.

Lemma mkdir_error_leaves_loop_witness :
  write_chunks ["home"] "all.txt"
    (("pkg/util.py" ++ PyStr.nl ++ "x = 1")%string
       :: [("main.py" ++ PyStr.nl ++ "import util")%string])
    (Examples.holding "doc")
  = (Examples.holding "doc", [], Raised "OSError").
Proof.
  apply (mkdir_error_leaves_loop ["home"] "all.txt" "pkg/util.py" "x = 1"
           [("main.py" ++ PyStr.nl ++ "import util")%string]
           (Examples.holding "doc") (ReadOk "doc")).
  - repeat split; (discriminate || (intros [=]) || idtac).
  - simpl. repeat split; discriminate.
  - reflexivity.
  - vm_compute. discriminate.
  - reflexivity.
Defined.





(** ** The messages of the loop *)

Section LoopMessages.
Import PyStr StrFacts StripFacts.

Lemma unpacked_cons (f : string) (files : list string) :
  unpacked (f :: files)
  = if contains nl f then f :: unpacked files else unpacked files.
Proof. reflexivity. Qed.

Lemma split_max_cases (f : string) :
  (contains nl f = true /\ exists p rest, split_max nl 1 f = [p; rest])
  \/ (contains nl f = false /\ split_max nl 1 f = [f]).
Proof.
  destruct (contains nl f) eqn:E.
  - left. split; [reflexivity | now apply split_max_two].
  - right. split; [reflexivity|].
    apply split_max_no_newline. now apply contains_absent.
Qed.

End LoopMessages.

(** The loop prints one line for every chunk it handles, [Written] or
    [Error writing], and none for a chunk without a line feed: when it
    returns there are as many lines as chunks with a line feed, and
    fewer or as many when [mkdir] raised. *)
Theorem one_message_per_unpacked_chunk :
  forall (cwd : Store.loc) (out : string) (files : list string)
         (fs : Store.t),
    let result := write_chunks cwd out files fs in
    Forall is_write_message (snd (fst result))
    /\ length (snd (fst result)) <= length (unpacked files)
    /\ (snd result = Returned ->
        length (snd (fst result)) = length (unpacked files)).
Proof.
  intros cwd out files. induction files as [|f files IH]; intros fs.
  - cbn. auto.
  - cbv zeta in *. rewrite unpacked_cons. cbn [write_chunks].
    destruct (split_max_cases f) as [(C & p & rest & E)|(C & E)];
      rewrite C, E; [|apply IH].
    destruct (Store.mkdir_parents fs cwd _) as [fs1 [|]].
    + destruct (Store.open_write fs1 cwd _ _) as [fs2|];
        [specialize (IH fs2) | specialize (IH fs1)];
        destruct (write_chunks cwd out files _) as [[fs3 log] res];
        cbn [fst snd length] in *; destruct IH as (I1 & I2 & I3);
        (split; [constructor; [exact I|exact I1]|]);
        (split; [lia|]); intros R; now rewrite (I3 R).
    + cbn [fst snd length]. split; [constructor|].
      split; [lia | discriminate].
Qed.

(** ** Documents without a marker *)

Section Unmarked.
Import PyStr StrFacts StripFacts.


(** A text without the marker is one chunk. *)
Lemma split_unmarked (content : string) :
  contains MARKER content = false -> split MARKER content = [content].
Proof.
  intros H. rewrite MARKER_eq in *.
  apply split_single; [exact H | apply visible_marker_no_LF].
Qed.


End Unmarked.

(** A document that is empty or all blanks has no section: nothing is
    created, written or printed. *)
Theorem blank_document_writes_nothing :
  forall (fs : Store.t) (cwd : Store.loc) (input_file output_dir : string)
         (content : string),
    Store.open_read fs cwd input_file = ReadOk content ->
    PyStr.every PyStr.isspace content = true ->
    split_concatenated_file fs cwd input_file output_dir
    = (fs, [], Returned).
Proof.
  intros fs cwd input_file output_dir content Hr Hb.
  unfold split_concatenated_file. rewrite Hr.
  rewrite (split_unmarked content (StripFacts.blank_no_marker content Hb)).
  cbn [hd tl]. apply StripFacts.strip_blank in Hb. rewrite Hb.
  reflexivity.
Qed.

Lemma blank_document_writes_nothing_witness :
  split_concatenated_file
    (Examples.holding (" " ++ PyStr.nl ++ PyStr.nl)%string) ["home"]
    "all.txt" "out"
  = (Examples.holding (" " ++ PyStr.nl ++ PyStr.nl)%string, [], Returned).
Proof.
  apply (blank_document_writes_nothing
           (Examples.holding (" " ++ PyStr.nl ++ PyStr.nl)%string) ["home"]
           "all.txt" "out" (" " ++ PyStr.nl ++ PyStr.nl)%string).
  - reflexivity.
  - reflexivity.
Defined.



(** ** The entry point *)

(** The two modes of the program compose: when a concat run on a
    directory has printed [Output written], a split run on the file it
    wrote, into a new directory, returns with only [Written] messages, and
    the files below that directory are then the files of the directory
    that was concatenated, each with its text as text mode reads it,
    stripped on the right, under the round-trip conditions on the
    directory. *)
Theorem main_round_trip :
  forall (match_file : PathSpec -> string -> bool) (disk : node)
         (directory : string) (exts : option (list string))
         (fs : Store.t) (cwd : Store.loc) (doc_file out : string)
         (fs1 : Store.t) (log1 : list event) (res1 : outcome),
    round_trip_ready match_file (text_mode disk) directory exts ->
    main match_file (mk_arguments ModeConcat directory doc_file exts)
      (text_mode disk) fs cwd = (fs1, log1, res1) ->
    In (OutputWritten doc_file) log1 ->
    fresh_output fs1 cwd out ->
    forall (top' : node) (exts' : option (list string)),
    exists fs2 log2,
      main match_file (mk_arguments ModeSplit doc_file out exts')
        top' fs1 cwd = (fs2, log2, Returned)
      /\ Forall is_written log2
      /\ (forall rel raw,
            rel <> [] ->
            lookup disk rel = Some (File (ReadOk raw)) ->
            Store.get fs2 (output_loc cwd out ++ rel)
            = Some (Store.EFile
                      (ReadOk (PyStr.rstrip (PyStr.universal_newlines raw)))))
      /\ (forall rel r,
            rel <> [] ->
            Store.get fs2 (output_loc cwd out ++ rel)
            = Some (Store.EFile r) ->
            exists raw,
              lookup disk rel = Some (File (ReadOk raw))
              /\ r = ReadOk (PyStr.rstrip (PyStr.universal_newlines raw))).
Proof.
  intros match_file disk directory exts fs cwd doc_file out fs1 log1 res1
    Hready Hmain Hlog Hfresh top' exts'.
  unfold main in Hmain. cbn [mode input output extensions] in Hmain.
  pose proof (concatenate_cases match_file (text_mode disk) fs cwd directory
                (Some doc_file) exts) as C.
  pose proof (returned_document match_file (text_mode disk) fs cwd directory
                (Some doc_file) exts) as D.
  cbv zeta in C.
  destruct (concatenate_directory match_file (text_mode disk) fs cwd
              directory (Some doc_file) exts) as [[doc fs1'] log1'].
  cbn [fst snd] in C, D. injection Hmain as <- <- _.
  destruct C as [(f & log0 & [= <-] & W & El & Hn)|(_ & Hn)];
    [|now apply Hn in Hlog].
  apply StoreFacts.written_document_stored in W. rewrite D in W.
  destruct (split_stored_document match_file disk directory exts Hready
              fs1' cwd doc_file out Hfresh W)
    as (fs2 & log2 & E & Hw & Hinv).
  exists fs2, log2. unfold main. cbn [mode input output].
  split; [exact E|]. split; [exact Hw|].
  exact (restored_files match_file disk directory exts Hready fs2 cwd out
           Hinv).
Qed.

Lemma main_round_trip_witness :
  exists fs1 log1 fs2 log2,
    main GitWildMatch.match_file
      (mk_arguments ModeConcat "proj" "all.txt" None)
      (text_mode Examples.project_disk) Examples.home_fs ["home"]
    = (fs1, log1, Returned)
    /\ main GitWildMatch.match_file
         (mk_arguments ModeSplit "all.txt" "out" None)
         Examples.project_tree fs1 ["home"]
       = (fs2, log2, Returned)
    /\ Store.get fs2 ["home"; "out"; "main.py"]
       = Some (Store.EFile (ReadOk "import util"))
    /\ Store.get fs2 ["home"; "out"; "pkg"; "util.py"]
       = Some (Store.EFile (ReadOk "x = 1")).
Proof.
  set (doc := document GitWildMatch.match_file
                (text_mode Examples.project_disk) "proj" None).
  assert (M : main GitWildMatch.match_file
                (mk_arguments ModeConcat "proj" "all.txt" None)
                (text_mode Examples.project_disk) Examples.home_fs ["home"]
              = (Examples.holding doc,
                 [OutputWritten "all.txt"], Returned))
    by (vm_compute; reflexivity).
  assert (R : round_trip_ready GitWildMatch.match_file
                (text_mode Examples.project_disk) "proj" None)
    by (rewrite project_disk_read; exact project_tree_ready).
  destruct (main_round_trip GitWildMatch.match_file Examples.project_disk
              "proj" None Examples.home_fs ["home"] "all.txt" "out"
              (Examples.holding doc) [OutputWritten "all.txt"] Returned
              R M (or_introl eq_refl) (holding_fresh doc)
              Examples.project_tree None)
    as (fs2 & log2 & E & _ & Hf & _).
  exists (Examples.holding doc), [OutputWritten "all.txt"], fs2, log2.
  split; [exact M|]. split; [exact E|]. split.
  - apply (Hf ["main.py"] ("import util" ++ PyStr.cr ++ PyStr.nl)%string);
      [discriminate | reflexivity].
  - apply (Hf ["pkg"; "util.py"] "x = 1  "); [discriminate | reflexivity].
Defined.

(** Neither mode removes anything: a location that holds a directory
    holds it after the run, and a location that holds something holds
    something after the run. *)
Theorem main_never_removes :
  forall (match_file : PathSpec -> string -> bool) (args : arguments)
         (top : node) (fs : Store.t) (cwd : Store.loc) (q : Store.loc),
    let fs' := fst (fst (main match_file args top fs cwd)) in
    (Store.get fs q = Some Store.EDir -> Store.get fs' q = Some Store.EDir)
    /\ (Store.get fs q <> None -> Store.get fs' q <> None).
Proof.
  intros match_file args top fs cwd q. cbv zeta. unfold main.
  destruct (mode args).
  - pose proof (concatenate_cases match_file top fs cwd (input args)
                  (Some (output args)) (extensions args)) as C.
    cbv zeta in C.
    destruct (concatenate_directory match_file top fs cwd (input args)
                (Some (output args)) (extensions args))
      as [[doc fs1] log1].
    cbn [fst snd] in *.
    destruct C as [(f & log0 & _ & W & _)|(-> & _)]; [|tauto].
    destruct (EffectFacts.open_write_str_effect _ _ _ _ _ W)
      as (l & Hl & Hd & ->).
    rewrite (EffectFacts.get_set fs l q _ Hl).
    destruct (list_eq_dec string_dec q l) as [->|_]; [|tauto].
    split; [intros H; now contradiction Hd | discriminate].
  - unfold split_concatenated_file.
    destruct (Store.open_read fs cwd (input args)) as [content|exc];
      [|cbn [fst]; tauto].
    pose proof (GrowFacts.write_chunks_only_adds cwd (output args)
                  (let files := PyStr.split MARKER content in
                   if PyStr.strip (hd EmptyString files) =? EmptyString
                   then tl files else files) fs q) as G.
    cbv zeta in *.
    destruct G as [E|[(E1 & E2)|(E1 & text & E2 & _)]].
    + rewrite E. tauto.
    + rewrite E1, E2. split; [discriminate | congruence].
    + rewrite E2. split; [intros H; now contradiction E1 | discriminate].
Qed.

(** ** No file twice *)

Module DistinctFacts.

Lemma NoDup_map_injective {A B} (f : A -> B) (l : list A) :
  (forall x y, f x = f y -> x = y) -> NoDup l -> NoDup (map f l).
Proof.
  intros Hf. induction 1 as [|x l Hx Hl IH]; [constructor|].
  cbn [map]. constructor; [|exact IH].
  intros H. apply in_map_iff in H. destruct H as (y & E & Hy).
  apply Hf in E. now subst y.
Qed.

Lemma NoDup_names_filter {A} (f : string * A -> bool)
    (l : list (string * A)) :
  NoDup (map fst l) -> NoDup (map fst (filter f l)).
Proof.
  induction l as [|e l IH]; [constructor|]. cbn [map filter].
  intros H. inversion H as [|? ? Hx Hl]; subst.
  destruct (f e); [|now apply IH]. cbn [map]. constructor; [|now apply IH].
  intros K. apply Hx. apply in_map_iff in K.
  destruct K as (e' & E & He'). apply filter_In in He'.
  rewrite <- E. apply in_map. tauto.
Qed.

(** When every element gives no section or one section for its own
    path, distinct paths give distinct sections. *)
Lemma NoDup_single_sections {A} (g : A -> list (PurePath.t * string))
    (p : A -> PurePath.t) (l : list A) :
  (forall x, g x = [] \/ exists c, g x = [(p x, c)]) ->
  NoDup (map p l) ->
  NoDup (map fst (flat_map g l)).
Proof.
  intros Hg. induction l as [|x l IH]; [constructor|].
  cbn [map flat_map]. intros H. inversion H as [|? ? Hx Hl]; subst.
  destruct (Hg x) as [E|(c & E)]; rewrite E; cbn [app map fst];
    [now apply IH|].
  constructor; [|now apply IH].
  intros K. apply Hx. apply in_map_iff in K. destruct K as (s & Es & Hs).
  apply in_flat_map in Hs. destruct Hs as (y & Hy & Hs).
  destruct (Hg y) as [F|(c' & F)]; rewrite F in Hs; [destruct Hs|].
  destruct Hs as [<-|[]]. cbn [fst] in Es. rewrite <- Es.
  now apply in_map.
Qed.

End DistinctFacts.

Section Distinct.
Import PyStr PurePath WalkFacts SortFacts DistinctFacts.

Variable match_file : PathSpec -> string -> bool.
Variables (base_name : string) (top : node) (spec : PathSpec)
  (allowed : list string).

(** The paths of the sections found by the walk of [n], a node at
    [base]. *)
Let found (base : list string) (n : node) : list PurePath.t :=
  map fst
    (flat_map (rel_directory_sections match_file base_name top spec allowed)
       (walk base n)).

Lemma found_dir (base : list string) (entries : list (string * node)) :
  found base (Dir entries)
  = map fst
      (rel_directory_sections match_file base_name top spec allowed
         (base, dirnames entries, filenames entries))
    ++ flat_map (fun e => found (base ++ [fst e]) (snd e)) entries.
Proof.
  unfold found. cbn [walk flat_map]. rewrite map_app. f_equal.
  rewrite flat_map_flat_map.
  induction entries as [|e entries IH]; [reflexivity|].
  cbn [flat_map]. now rewrite map_app, IH.
Qed.

Lemma block_at (base : list string) (ds files : list string) p :
  In p (map fst
          (rel_directory_sections match_file base_name top spec allowed
             (base, ds, files))) ->
  exists file, In file files /\ p = mk EmptyString (base ++ [file]).
Proof.
  unfold rel_directory_sections. cbn [fst snd].
  destruct (keep match_file base_name spec base); [|intros []].
  intros H. apply rel_files_at in H. destruct H as (file & Hf & ->).
  exists file. split; [now apply in_sorted | reflexivity].
Qed.

Lemma block_distinct (base : list string) (ds files : list string) :
  NoDup files ->
  NoDup (map fst
           (rel_directory_sections match_file base_name top spec allowed
              (base, ds, files))).
Proof.
  intros H. unfold rel_directory_sections. cbn [fst snd].
  destruct (keep match_file base_name spec base); [|constructor].
  apply (NoDup_single_sections _ (fun f => mk EmptyString (base ++ [f]))).
  - intros file.
    destruct (rel_file_section_cases match_file base_name top spec allowed
                base file) as [E|(content & _ & E)]; eauto.
  - apply NoDup_map_injective.
    + intros x y [= E]. apply app_inv_head in E. congruence.
    + apply (Permutation_NoDup (Permutation_sym (sorted_perm files)) H).
Qed.

(** A section found below [base] has a path that goes on from [base]. *)
Lemma found_below (n : node) :
  forall base p,
    In p (found base n) ->
    exists rel, rel <> [] /\ p = mk EmptyString (base ++ rel).
Proof.
  induction n as [r|entries IH] using node_rect'; intros base p;
    [intros []|].
  rewrite found_dir. intros H. apply in_app_or in H. destruct H as [H|H].
  - apply block_at in H. destruct H as (file & _ & ->).
    exists [file]. split; [discriminate | reflexivity].
  - apply in_flat_map in H. destruct H as (e & He & H).
    rewrite Forall_forall in IH.
    destruct (IH e He _ _ H) as (rel & Hne & ->).
    exists (fst e :: rel). split; [discriminate|].
    now rewrite <- app_assoc.
Qed.

Lemma found_distinct (n : node) :
  unique_names n -> forall base, NoDup (found base n).
Proof.
  induction n as [r|entries IH] using node_rect'; intros U base;
    [constructor|].
  inversion U as [|? Hn Hu]; subst. rewrite found_dir.
  apply NoDup_app.
  - apply block_distinct. unfold filenames. now apply NoDup_names_filter.
  - clear U. induction entries as [|e entries IHe]; [constructor|].
    inversion IH as [|? ? Ie Ies]; subst.
    inversion Hu as [|? ? Ue Ues]; subst.
    inversion Hn as [|? ? Ne Nes]; subst.
    cbn [flat_map]. apply NoDup_app.
    + now apply Ie.
    + now apply IHe.
    + intros p Hp Hq. apply found_below in Hp.
      destruct Hp as (rel & _ & ->).
      apply in_flat_map in Hq. destruct Hq as (e' & He' & Hq).
      apply found_below in Hq. destruct Hq as (rel' & _ & [= E]).
      rewrite <- !app_assoc in E. apply app_inv_head in E.
      injection E as E _. apply Ne. rewrite E. now apply in_map.
  - intros p Hp Hq. apply block_at in Hp. destruct Hp as (file & _ & ->).
    apply in_flat_map in Hq. destruct Hq as (e & _ & Hq).
    apply found_below in Hq. destruct Hq as (rel & Hne & [= E]).
    rewrite <- app_assoc in E. apply app_inv_head in E.
    destruct rel; [congruence | discriminate E].
Qed.

End Distinct.

(** No file is concatenated twice: when no directory of the tree lists a
    name twice, the paths of the sections are pairwise different. *)
Theorem sections_are_distinct :
  forall (match_file : PathSpec -> string -> bool) (top : node)
         (directory : string) (allowed_extensions : option (list string)),
    unique_names top ->
    NoDup (map fst (sections match_file top directory allowed_extensions)).
Proof.
  intros match_file top directory allowed_extensions U.
  rewrite sections_relative. unfold rel_sections.
  now apply found_distinct.
Qed.

Lemma sections_are_distinct_witness :
  NoDup (map fst (sections GitWildMatch.match_file Examples.project_tree
                    "proj" None)).
Proof.
  apply sections_are_distinct.
  repeat (constructor; simpl; try (intros H; intuition discriminate)).
Defined.

(** ** Edges of the two functions *)

(** A chunk with an empty path line is written to the output directory's
    own path: where no directory is there yet, [out] becomes a file.  The
    next chunk with a relative path then makes [mkdir] raise, so that a
    document alone can end the run with an exception. *)
Theorem empty_path_line_writes_output_path :
  forall (cwd : Store.loc) (out c : string) (rest : list string)
         (fs : Store.t),
    PurePath.plain_name out ->
    Store.get fs (cwd ++ [out]) <> Some Store.EDir ->
    let fs1 :=
      Store.set fs (cwd ++ [out]) (Store.EFile (ReadOk (PyStr.rstrip c))) in
    write_chunks cwd out ((PyStr.nl ++ c)%string :: rest) fs
    = (let '(fs', log, res) := write_chunks cwd out rest fs1 in
       (fs', Written (PurePath.mk EmptyString [out]) :: log, res))
    /\ (forall p content rest',
          PyStr.absent PyStr.LF p ->
          PurePath.root (PurePath.Path p) = EmptyString ->
          PurePath.parts (PurePath.Path p) <> [] ->
          write_chunks cwd out
            ((PyStr.nl ++ c)%string
               :: (p ++ PyStr.nl ++ content)%string :: rest') fs
          = (fs1, [Written (PurePath.mk EmptyString [out])],
             Raised "OSError")).
Proof.
  intros cwd out c rest fs Hout Hd fs1.
  assert (Hup : out <> "..") by now apply out_not_up.
  assert (E : forall files,
             write_chunks cwd out ((PyStr.nl ++ c)%string :: files) fs
             = (let '(fs', log, res) := write_chunks cwd out files fs1 in
                (fs', Written (PurePath.mk EmptyString [out]) :: log, res))).
  { intros files.
    change (PyStr.nl ++ c)%string
      with (EmptyString ++ PyStr.nl ++ c)%string.
    rewrite (write_chunks_cons cwd out EmptyString c files fs I).
    cbv zeta. unfold PurePath.truediv, PurePath.joinpath.
    rewrite (PathFacts.Path_plain out Hout).
    change (PurePath.Path EmptyString) with (PurePath.mk EmptyString []).
    cbn [PurePath.root PurePath.parts PyStr.truthy app].
    unfold PurePath.parent, Store.mkdir_parents, Store.open_write,
      Store.start.
    cbn [PurePath.root PurePath.parts PyStr.truthy removelast
         Store.mkdir_from rev app Store.resolve_dirs].
    apply String.eqb_neq in Hup. rewrite Hup.
    destruct (Store.get fs (cwd ++ [out])) as [[r|]|]; try reflexivity.
    congruence. }
  split; [apply E|].
  intros p content rest' Hp Hroot Hparts. rewrite E.
  rewrite (write_chunks_cons cwd out p content rest' fs1 Hp). cbv zeta.
  assert (G : Store.get fs1 (cwd ++ [out])
              = Some (Store.EFile (ReadOk (PyStr.rstrip c)))).
  { apply StoreFacts.get_set_same. now destruct cwd. }
  now rewrite (mkdir_parent_blocked cwd out Hout p fs1 _ Hroot Hparts G).
Qed.

Lemma empty_path_line_writes_output_path_witness :
  write_chunks ["home"] "out"
    [(PyStr.nl ++ "lost")%string; ("a.py" ++ PyStr.nl ++ "x = 1")%string]
    Examples.home_fs
  = (Store.set Examples.home_fs (["home"] ++ ["out"])
       (Store.EFile (ReadOk (PyStr.rstrip "lost"))),
     [Written (PurePath.mk EmptyString ["out"])], Raised "OSError").
Proof.
  assert (P : PurePath.plain_name "out") by (repeat split; discriminate).
  assert (G : Store.get Examples.home_fs (["home"] ++ ["out"])
              <> Some Store.EDir) by discriminate.
  destruct (empty_path_line_writes_output_path ["home"] "out" "lost"
              [("a.py" ++ PyStr.nl ++ "x = 1")%string] Examples.home_fs P G)
    as [_ H].
  apply (H "a.py" "x = 1" []).
  - repeat split; discriminate.
  - reflexivity.
  - discriminate.
Defined.

Section DirectoryName.
Import PyStr PurePath WalkFacts.

Variable match_file : PathSpec -> string -> bool.

Lemma last_default {A} (l : list A) (d1 d2 : A) :
  l <> [] -> last l d1 = last l d2.
Proof.
  induction l as [|x l IH]; [congruence|]. intros _.
  destruct l as [|y l]; [reflexivity|].
  change (last (y :: l) d1 = last (y :: l) d2). now apply IH.
Qed.

(** Of the name of the directory only its being hidden matters, and
    only for the directory itself. *)
Lemma keep_base (b1 b2 : string) (spec : PathSpec) (rel : list string) :
  startswith "." b1 = startswith "." b2 ->
  keep match_file b1 spec rel = keep match_file b2 spec rel.
Proof.
  intros H. unfold keep. destruct rel as [|x rel].
  - cbn [last]. now rewrite H.
  - now rewrite (last_default (x :: rel) b1 b2).
Qed.

Lemma rel_sections_base (b1 b2 : string) (top : node)
    (allowed : list string) :
  startswith "." b1 = startswith "." b2 ->
  rel_sections match_file b1 top allowed
  = rel_sections match_file b2 top allowed.
Proof.
  intros H. unfold rel_sections. apply flat_map_ext. intros w.
  unfold rel_directory_sections. rewrite (keep_base b1 b2 _ _ H).
  destruct (keep match_file b2 _ (fst (fst w))); [|reflexivity].
  apply flat_map_ext. intros file. unfold rel_file_section.
  now rewrite (keep_base b1 b2 _ _ H).
Qed.

End DirectoryName.

(** The document does not say where the directory is: two paths whose
    last names are both hidden or both not give, for the same tree, the
    same sections and the same text. *)
Theorem document_ignores_directory_path :
  forall (match_file : PathSpec -> string -> bool) (top : node)
         (d1 d2 : string) (allowed_extensions : option (list string)),
    PyStr.startswith "." (PurePath.name (PurePath.Path d1))
    = PyStr.startswith "." (PurePath.name (PurePath.Path d2)) ->
    sections match_file top d1 allowed_extensions
    = sections match_file top d2 allowed_extensions
    /\ document match_file top d1 allowed_extensions
       = document match_file top d2 allowed_extensions.
Proof.
  intros match_file top d1 d2 allowed_extensions H.
  assert (E : sections match_file top d1 allowed_extensions
              = sections match_file top d2 allowed_extensions).
  { rewrite !sections_relative. now apply rel_sections_base. }
  split; [exact E|]. now rewrite !concatenated_sections, E.
Qed.

Lemma document_ignores_directory_path_witness :
  sections GitWildMatch.match_file Examples.project_tree "proj" None
  = sections GitWildMatch.match_file Examples.project_tree
      "/srv/../work/./proj2/" None
  /\ document GitWildMatch.match_file Examples.project_tree "proj" None
     = document GitWildMatch.match_file Examples.project_tree
         "/srv/../work/./proj2/" None.
Proof.
  apply (document_ignores_directory_path GitWildMatch.match_file
           Examples.project_tree "proj" "/srv/../work/./proj2/" None).
  reflexivity.
Defined.

(** When [directory] names a file and not a directory, nothing is
    walked and nothing is reported: the document is empty, and it is
    still written to [output_file]. *)
Theorem file_as_directory_gives_empty_document :
  forall (match_file : PathSpec -> string -> bool) (r : read_result)
         (fs : Store.t) (cwd : Store.loc) (directory : string)
         (output_file : option string)
         (allowed_extensions : option (list string)),
    let result :=
      concatenate_directory match_file (File r) fs cwd directory output_file
        allowed_extensions in
    fst (fst result) = EmptyString
    /\ sections match_file (File r) directory allowed_extensions = []
    /\ (forall e,
          In e (snd result) ->
          e = ErrorWritingOutput \/ exists f, e = OutputWritten f)
    /\ (forall f fs',
          output_file = Some f -> PyStr.truthy f = true ->
          Store.open_write_str fs cwd f EmptyString = Some fs' ->
          result = (EmptyString, fs', [OutputWritten f])).
Proof.
  intros match_file r fs cwd directory output_file allowed_extensions.
  cbv zeta. unfold concatenate_directory, sections.
  cbn [load_gitignore gitignore_patterns lookup find_entry os_walk map gather
       concat fst snd PyStr.nonempty PyStr.join String.concat app flat_map].
  split; [|split; [reflexivity|split]].
  - destruct output_file as [f|]; [|reflexivity].
    destruct (PyStr.truthy f); [|reflexivity].
    now destruct (Store.open_write_str fs cwd f EmptyString).
  - intros e. destruct output_file as [f|]; [|intros []].
    destruct (PyStr.truthy f); [|intros []].
    destruct (Store.open_write_str fs cwd f EmptyString);
      (intros [<-|[]]); eauto.
  - intros f fs' -> Hf W. now rewrite Hf, W.
Qed.

(** Every line of [.gitignore] that is not blank and does not start
    with [#] becomes a pattern, stripped; the test for [#] is made on the
    line as it is read, so that a comment that is indented is loaded as a
    pattern too. *)
Theorem gitignore_lines_become_patterns :
  forall (top : node) (text line : string),
    lookup top [".gitignore"] = Some (File (ReadOk text)) ->
    In line (PyStr.lines text) ->
    PyStr.strip line <> EmptyString ->
    PyStr.startswith "#" line = false ->
    fst (load_gitignore top) = map PyStr.strip (usable_lines text)
    /\ In (PyStr.strip line) (fst (load_gitignore top)).
Proof.
  intros top text line Hl Hin Hs Hc.
  assert (U : In line (usable_lines text)).
  { unfold usable_lines. apply filter_In. split; [exact Hin|].
    rewrite Hc. destruct (PyStr.strip line); [congruence | reflexivity]. }
  assert (E : fst (load_gitignore top) = map PyStr.strip (usable_lines text)).
  { unfold load_gitignore, gitignore_patterns.
    apply TreeFacts.open_read_file in Hl. rewrite Hl.
    apply TreeFacts.open_read_file in Hl. rewrite Hl.
    destruct (usable_lines text) as [|a l]; [destruct U | reflexivity]. }
  split; [exact E|]. rewrite E. now apply in_map.
Qed.

Lemma gitignore_lines_become_patterns_witness :
  fst (load_gitignore Examples.indented_comment_tree)
  = map PyStr.strip
      (usable_lines ("  # build" ++ PyStr.nl ++ "*.log" ++ PyStr.nl)%string)
  /\ In (PyStr.strip ("  # build" ++ PyStr.nl)%string)
        (fst (load_gitignore Examples.indented_comment_tree)).
Proof.
  apply (gitignore_lines_become_patterns Examples.indented_comment_tree
           ("  # build" ++ PyStr.nl ++ "*.log" ++ PyStr.nl)%string
           ("  # build" ++ PyStr.nl)%string).
  - reflexivity.
  - vm_compute. auto.
  - vm_compute. discriminate.
  - reflexivity.
Defined.

(** ** The extension list and the document *)

Module ExtensionFacts.
Import PyStr StrFacts StripFacts PurePath WalkFacts SuffixFacts.

(** The test of line 83 lets a file through when the list is empty or
    holds the file's suffix. *)
Lemma extension_kept_iff (allowed : list string) (p : PurePath.t) :
  extension_skipped allowed p = false <->
  allowed = [] \/ In (suffix p) allowed.
Proof.
  unfold extension_skipped. destruct allowed as [|a l].
  - cbn [nonempty andb]. split; [now left | reflexivity].
  - cbn [nonempty andb]. rewrite negb_false_iff, mem_In.
    split; [now right|]. intros [H|H]; [discriminate | exact H].
Qed.

Lemma absent_replicate (n : nat) (c d : ascii) :
  d <> c -> absent c (replicate n d).
Proof. intros H. induction n as [|n IH]; [exact I | now split]. Qed.

Lemma length_replicate (n : nat) (c : ascii) :
  String.length (replicate n c) = n.
Proof. induction n as [|n IH]; simpl; [reflexivity | now rewrite IH]. Qed.

Lemma length_in_total (x : string) (l : list string) :
  In x l ->
  String.length x <= fold_right (fun x n => String.length x + n) 0 l.
Proof.
  induction l as [|y l IH]; [intros []|]. cbn [fold_right].
  intros [->|H]; [lia|]. specialize (IH H). lia.
Qed.

(** The suffix of [unlisted_name l] is not in [l]. *)
Lemma unlisted_name_skipped (l : list string) (p : PurePath.t) :
  l <> [] -> extension_skipped l (child p (unlisted_name l)) = true.
Proof.
  intros Hl. destruct (extension_skipped l _) eqn:E; [reflexivity|].
  exfalso. apply extension_kept_iff in E. destruct E as [E|E]; [congruence|].
  rewrite (suffix_child p (mk EmptyString []) (unlisted_name l)) in E.
  set (n := S (fold_right (fun x n => String.length x + n) 0 l)) in *.
  assert (Q : suffix (child (mk EmptyString []) (unlisted_name l))
              = ("." ++ replicate n "a")%string).
  { refine (suffix_of_name "x" (replicate n "a") [] _ _ _).
    - discriminate.
    - discriminate.
    - apply absent_replicate. discriminate. }
  rewrite Q in E. apply length_in_total in E.
  change (String.length ("." ++ replicate n "a"))
    with (S (String.length (replicate n "a"))) in E.
  rewrite length_replicate in E. subst n. lia.
Qed.

Lemma unlisted_name_plain (l : list string) :
  plain_name (unlisted_name l) /\ startswith "." (unlisted_name l) = false.
Proof.
  unfold unlisted_name. split; [|reflexivity].
  split; [discriminate|]. split; [discriminate|]. split; [discriminate|].
  split; [discriminate|]. split; [discriminate|].
  apply absent_replicate. discriminate.
Qed.

End ExtensionFacts.

Section ExtensionFilter.
Import PyStr PurePath WalkFacts ExtensionFacts.

Variable match_file : PathSpec -> string -> bool.

(** A section for the path of a walked file says that the file's
    extension was let through. *)
Lemma section_path_kept top directory allowed_extensions root_path ds files
    file s :
  In (root_path, ds, files) (os_walk (Path directory) top) ->
  In s (sections match_file top directory allowed_extensions) ->
  fst s = relative_to (child root_path file) (Path directory) ->
  extension_skipped
    (match allowed_extensions with
     | None => DEFAULT_EXTENSIONS
     | Some l => l
     end) (child root_path file) = false.
Proof.
  intros Hw Hs Es.
  destruct (walked_relative top directory root_path ds files Hw)
    as (dir0 & -> & _).
  rewrite child_descend, relative_to_descend in Es.
  destruct (section_origin match_file top directory allowed_extensions s Hs)
    as (dir & file' & E & _ & _ & _ & Ke).
  rewrite E in Es. cbn [fst] in Es. injection Es as Es.
  apply app_inj_tail in Es. destruct Es as [_ ->].
  now rewrite (extension_skipped_child _ _ (mk EmptyString []) file).
Qed.

End ExtensionFilter.

(** C4, amended: an absent [allowed_extensions] argument stands for the
    default list, so the call behaves as with that list given.  For every
    file that the walk meets, that passes the filter with its directory
    and that can be read, there is a section in the document exactly when
    the list is empty or holds the file's suffix; otherwise no section
    has the file's path.  Only the empty list lets every extension
    through: every other list skips some file name, whatever its
    directory.  The document is the text of the sections. *)
Theorem extension_filter_default_and_empty :
  forall (match_file : PathSpec -> string -> bool) (top : node)
         (fs : Store.t) (cwd : Store.loc) (directory : string)
         (output_file : option string),
    concatenate_directory match_file top fs cwd directory output_file None
    = concatenate_directory match_file top fs cwd directory output_file
        (Some DEFAULT_EXTENSIONS)
    /\ (forall file_path, extension_skipped [] file_path = false)
    /\ (forall file_path,
          extension_skipped DEFAULT_EXTENSIONS file_path
          = negb (PyStr.mem (PurePath.suffix file_path) DEFAULT_EXTENSIONS))
    /\ (forall file_path,
          extension_skipped DEFAULT_EXTENSIONS
            (PurePath.child file_path "notes.txt") = true)
    /\ (forall allowed_extensions root_path ds files file content,
          let allowed :=
            match allowed_extensions with
            | None => DEFAULT_EXTENSIONS
            | Some l => l
            end in
          let spec := fst (load_gitignore top) in
          let dp := PurePath.Path directory in
          let rel :=
            PurePath.relative_to (PurePath.child root_path file) dp in
          let secs := sections match_file top directory allowed_extensions in
          In (root_path, ds, files) (os_walk dp top) -> In file files ->
          should_process_file match_file root_path dp spec = true ->
          should_process_file match_file (PurePath.child root_path file)
            dp spec = true ->
          open_read top (PurePath.parts rel) = ReadOk content ->
          (In (rel, content) secs <->
             allowed = []
             \/ In (PurePath.suffix (PurePath.child root_path file)) allowed)
          /\ (allowed <> [] ->
              ~ In (PurePath.suffix (PurePath.child root_path file))
                   allowed ->
              ~ In rel (map fst secs))
          /\ document match_file top directory allowed_extensions
             = PyStr.join EmptyString (flat_map render secs))
    /\ (forall l : list string,
          (forall file_path, extension_skipped l file_path = false) <->
          l = [])
    /\ (forall l : list string,
          l <> [] ->
          PurePath.plain_name (unlisted_name l)
          /\ PyStr.startswith "." (unlisted_name l) = false
          /\ forall root_path,
               extension_skipped l
                 (PurePath.child root_path (unlisted_name l)) = true).
Proof.
  intros match_file top fs cwd directory output_file.
  split; [reflexivity|]. split; [reflexivity|]. split; [reflexivity|].
  split.
  { intros file_path. unfold extension_skipped, PurePath.suffix.
    rewrite WalkFacts.name_child. reflexivity. }
  split; [|split].
  - intros allowed_extensions root_path ds files file content allowed spec
      dp rel secs Hw Hf Hroot Hfile Hread.
    split; [|split].
    + split.
      * intros H. apply ExtensionFacts.extension_kept_iff.
        exact (section_path_kept match_file top directory allowed_extensions
                 root_path ds files file _ Hw H eq_refl).
      * intros H. apply ExtensionFacts.extension_kept_iff in H.
        apply in_sections. exists (root_path, ds, files).
        split; [exact Hw|].
        apply in_directory_sections. cbn [fst snd]. split; [exact Hroot|].
        exists file. split; [exact Hf|].
        apply in_file_section. cbn [fst snd]. auto.
    + intros Hne Hs Hin. apply in_map_iff in Hin.
      destruct Hin as (s & Es & Hsec).
      pose proof (section_path_kept match_file top directory
                    allowed_extensions root_path ds files file s Hw Hsec Es)
        as K.
      apply ExtensionFacts.extension_kept_iff in K.
      destruct K as [K|K]; [exact (Hne K) | exact (Hs K)].
    + apply concatenated_sections.
  - intros l. split.
    + intros H. destruct l as [|a l]; [reflexivity|].
      pose proof (ExtensionFacts.unlisted_name_skipped (a :: l)
                    (PurePath.mk EmptyString []) ltac:(discriminate)) as K.
      rewrite H in K. discriminate K.
    + intros -> file_path. reflexivity.
  - intros l Hl.
    destruct (ExtensionFacts.unlisted_name_plain l) as [H1 H2].
    split; [exact H1|]. split; [exact H2|].
    intros root_path. now apply ExtensionFacts.unlisted_name_skipped.
Qed.

(** ** The lines of the ignore file *)

Section UsableLines.
Import PyStr.



End UsableLines.



